(** * A-Share market crawler: the task-scheduling engine of [AShareCrawler]

    A shallow embedding of [src/ashare_crawler.py]: the three queues of
    [self.queues], the progress bar [self.pbar], the loop bodies of
    [do_task] and [write_result], and the thread pool of [assign_tasks].

    The crawler queue is a [queue.PriorityQueue], that is Python's [heapq]
    on a list; its entries are the two-element lists [[prior, task]] the
    code puts, compared the way Python compares lists.

    The bound methods [get_list] and [get_stock] are embedded from the
    answer of [get] on: the answer is a JSON value, the dicts of
    parameters in [self.req_info] are shared objects, and the pandas calls
    of [get_stock] are a parameter. *)

From stdpp Require Import base list strings sorting gmap pretty.
From Stdlib Require Import ZArith Lia ZifyNat PrimFloat Ascii.

Open Scope Z_scope.

(** ** Values *)

(** The two bound methods a task can carry, [self.get_list] and
    [self.get_stock]. *)
Inductive method := get_list | get_stock.

Definition method_name (f : method) : string :=
  match f with
  | get_list => "get_list"
  | get_stock => "get_stock"
  end.

(** What the code stores in [task.args]: a page number or a stock code. *)
Inductive pyval :=
| PInt (z : Z)
| PStr (s : string).

(** [each_task(func, args, tries)]. *)
Record each_task := mk_task {
  func : method;
  args : list pyval;
  tries : Z
}.

(** An entry of the crawler queue: the list [[prior, task]]. *)
Abbreviation entry := (Z * each_task)%type.

(** A [pandas.DataFrame], as far as the crawler looks at it. *)
Record DataFrame := mk_frame {
  columns : list string;
  rows : list (list string)
}.

(** [df.empty]: true when an axis has length zero. *)
Definition empty (df : DataFrame) : bool :=
  match columns df, rows df with
  | [], _ | _, [] => true
  | _, _ => false
  end.

#[global] Instance method_eq_dec : EqDecision method.
Proof. solve_decision. Defined.
#[global] Instance pyval_eq_dec : EqDecision pyval.
Proof. solve_decision. Defined.
#[global] Instance each_task_eq_dec : EqDecision each_task.
Proof. solve_decision. Defined.
#[global] Instance DataFrame_eq_dec : EqDecision DataFrame.
Proof. solve_decision. Defined.

(** ** [heapq] over the entries of the crawler queue *)

Module heapq.
Section Heap.

(** [each_task] is declared in [src/utils], whose comparison methods the
    queue calls when two entries have the same priority: [task_eq] is
    [t1 == t2] and [task_lt] is [t1 < t2]. Both are taken to answer; a
    comparison that raises is not modelled. *)
Variable task_eq : each_task -> each_task -> bool.
Variable task_lt : each_task -> each_task -> bool.

(** [[p1, t1] < [p2, t2]] on Python lists: the first pair of items that
    are not equal decides; two lists equal item by item are not less. *)
Definition entry_lt (x y : entry) : bool :=
  if fst x =? fst y then
    if task_eq (snd x) (snd y) then false else task_lt (snd x) (snd y)
  else fst x <? fst y.

(** The [while pos > startpos] loop of [_siftdown] followed by
    [heap[pos] = newitem]. [pos] strictly decreases, so [fuel = pos]
    iterations are enough. *)
Fixpoint _siftdown_loop (fuel : nat) (heap : list entry)
    (startpos pos : nat) (newitem : entry) : list entry :=
  match fuel with
  | O => <[pos := newitem]> heap
  | S fuel' =>
      if decide (startpos < pos)%nat then
        let parentpos := ((pos - 1) / 2)%nat in
        match heap !! parentpos with
        | Some parent =>
            if entry_lt newitem parent
            then _siftdown_loop fuel' (<[pos := parent]> heap)
                   startpos parentpos newitem
            else <[pos := newitem]> heap
        | None => <[pos := newitem]> heap
        end
      else <[pos := newitem]> heap
  end.

Definition _siftdown (heap : list entry) (startpos pos : nat) : list entry :=
  match heap !! pos with
  | Some newitem => _siftdown_loop pos heap startpos pos newitem
  | None => heap
  end.

(** The [while childpos < endpos] loop of [_siftup]: the smaller child is
    moved up until [pos] is a leaf; the result is the heap and that leaf.
    [pos] strictly increases below [endpos]. *)
Fixpoint _siftup_loop (fuel : nat) (heap : list entry) (pos : nat)
    : list entry * nat :=
  match fuel with
  | O => (heap, pos)
  | S fuel' =>
      let endpos := length heap in
      let childpos := (2 * pos + 1)%nat in
      if decide (childpos < endpos)%nat then
        let rightpos := (childpos + 1)%nat in
        let childpos :=
          match heap !! childpos, heap !! rightpos with
          | Some c, Some r => if entry_lt c r then childpos else rightpos
          | _, _ => childpos
          end in
        match heap !! childpos with
        | Some c => _siftup_loop fuel' (<[pos := c]> heap) childpos
        | None => (heap, pos)
        end
      else (heap, pos)
  end.

Definition _siftup (heap : list entry) (pos : nat) : list entry :=
  match heap !! pos with
  | Some newitem =>
      let '(heap, leaf) := _siftup_loop (length heap) heap pos in
      _siftdown (<[leaf := newitem]> heap) pos leaf
  | None => heap
  end.

Definition heappush (heap : list entry) (item : entry) : list entry :=
  let heap := heap ++ [item] in
  _siftdown heap 0 (length heap - 1).

(** [heappop]; [None] is the [IndexError] of popping an empty list. *)
Definition heappop (heap : list entry) : option (entry * list entry) :=
  match last heap with
  | None => None
  | Some lastelt =>
      let heap := removelast heap in
      match heap with
      | [] => Some (lastelt, [])
      | returnitem :: _ => Some (returnitem, _siftup (<[0%nat := lastelt]> heap) 0)
      end
  end.

End Heap.
End heapq.

(** ** Logging *)

Inductive level := INFO | WARNING | ERROR.

(** An argument of a log call; [LArgs a] stands for [str(task.args)]. *)
Inductive log_arg :=
| LStr (s : string)
| LInt (z : Z)
| LArgs (a : list pyval).

Record log_record := mk_log {
  levelname : level;
  msg : string;
  log_args : list log_arg;
  exc_info : bool
}.

Definition info (m : string) (a : list log_arg) : log_record := mk_log INFO m a false.
Definition warning (m : string) (a : list log_arg) : log_record := mk_log WARNING m a false.
Definition error (m : string) (a : list log_arg) : log_record := mk_log ERROR m a false.
(** [logging.exception(exc)]: error severity, with the traceback. *)
Definition exception (exc : string) : log_record := mk_log ERROR exc [] true.

(** ** Calls that leave the class *)

(** What a call does: it returns or it raises an [Exception]. *)
Inductive outcome (A : Type) :=
| Returns (r : A)
| Raises (exc : string).
Arguments Returns {A} r.
Arguments Raises {A} exc.

(** The return type of each bound method, [None] apart:
    [get_list -> List[str] | None], [get_stock -> pd.DataFrame | None]. *)
Definition returns (f : method) : Type :=
  match f with
  | get_list => list string
  | get_stock => DataFrame
  end.

(** [task.func( *task.args )] *)
Definition call_outcome (f : method) : Type := outcome (option (returns f)).

(** ** The shared objects and the operations on them *)

Inductive action :=
| crawler_put (e : entry)                   (* self.queues.crawler.put([prior, task]) *)
| writer_put (result : DataFrame) (save_fp : string)  (* self.queues.writer.put((result, save_fp)) *)
| other_put (thread_id : nat)               (* self.queues.other.put(thread_id) *)
| other_get                                 (* self.queues.other.get() *)
| acquire                                   (* with PBAR_LOCK: enter *)
| release                                   (* with PBAR_LOCK: exit *)
| total_add (k : Z)                         (* self.pbar.total += k *)
| refresh                                   (* self.pbar.refresh() *)
| update (k : Z)                            (* self.pbar.update(k) *)
| logging (r : log_record).

Record state := mk_state {
  crawler : list entry;                  (* self.queues.crawler, the heap *)
  writer : list (DataFrame * string);    (* self.queues.writer *)
  other : list nat;                      (* self.queues.other *)
  total : Z;                             (* self.pbar.total *)
  n : Z;                                 (* self.pbar.n *)
  PBAR_LOCK : option nat;                (* the thread holding the lock *)
  log : list log_record
}.

(** [s[2:]] on a string. *)
Fixpoint slice_from (k : nat) (s : string) : string :=
  match k, s with
  | O, _ => s
  | S k', String _ s' => slice_from k' s'
  | S _, EmptyString => EmptyString
  end.

(** [queue.Empty], the exception [except Empty] takes (lines 110 and
    142); every other name is an exception [except Exception] takes. *)
Definition is_Empty (exc : string) : bool := bool_decide (exc = "Empty").

Section Crawler.

Variable task_eq : each_task -> each_task -> bool.
Variable task_lt : each_task -> each_task -> bool.

(** [max_retry] of [do_task]. *)
Variable max_retry : Z.

(** [self.save_fp % s] for a string [s]: the path, or the exception the
    operator raises on a template that does not take one string. *)
Variable format_save_fp : string -> outcome string.

(** One operation of thread [tid] on the shared objects; [None] when the
    thread has to wait (the lock is held, the registry is empty). *)
Definition exec (tid : nat) (a : action) (s : state) : option state :=
  match a with
  | crawler_put e =>
      Some (mk_state (heapq.heappush task_eq task_lt (crawler s) e) (writer s)
              (other s) (total s) (n s) (PBAR_LOCK s) (log s))
  | writer_put result save_fp =>
      Some (mk_state (crawler s) (writer s ++ [(result, save_fp)])
              (other s) (total s) (n s) (PBAR_LOCK s) (log s))
  | other_put thread_id =>
      Some (mk_state (crawler s) (writer s) (other s ++ [thread_id])
              (total s) (n s) (PBAR_LOCK s) (log s))
  | other_get =>
      match other s with
      | [] => None
      | _ :: rest =>
          Some (mk_state (crawler s) (writer s) rest
                  (total s) (n s) (PBAR_LOCK s) (log s))
      end
  | acquire =>
      match PBAR_LOCK s with
      | Some _ => None
      | None =>
          Some (mk_state (crawler s) (writer s) (other s)
                  (total s) (n s) (Some tid) (log s))
      end
  | release =>
      Some (mk_state (crawler s) (writer s) (other s)
              (total s) (n s) None (log s))
  | total_add k =>
      Some (mk_state (crawler s) (writer s) (other s)
              (total s + k) (n s) (PBAR_LOCK s) (log s))
  | refresh => Some s
  | update k =>
      Some (mk_state (crawler s) (writer s) (other s)
              (total s) (n s + k) (PBAR_LOCK s) (log s))
  | logging r =>
      Some (mk_state (crawler s) (writer s) (other s)
              (total s) (n s) (PBAR_LOCK s) (log s ++ [r]))
  end.

(** A run of operations by one thread with no other thread in between. *)
Fixpoint exec_all (tid : nat) (acts : list action) (s : state) : option state :=
  match acts with
  | [] => Some s
  | a :: rest =>
      match exec tid a s with
      | Some s' => exec_all tid rest s'
      | None => None
      end
  end.

(** *** [do_task]: one turn of the loop *)

(** What the body of the [try] did before it ended: its operations on the
    shared objects, in order, and the exception that ended it, if one did. *)
Record tried := mk_tried {
  performed : list action;
  raised : option string
}.

(** [task.tries += 1] *)
Definition bump (task : each_task) : each_task :=
  mk_task (func task) (args task) (tries task + 1).

(** [except Exception as exc:] (lines 113-116). *)
Definition caught (exc : string) (task : each_task) : list action :=
  [logging (exception exc);
   logging (error "%s(%s)" [LStr (method_name (func task)); LArgs (args task)])].

(** [if result is None:] (lines 72-87). *)
Definition retry (prior : Z) (task : each_task) : list action :=
  if tries task >=? max_retry then
    [logging (error "%s(%s) fails %d times. Stop retrying!"
                [LStr (method_name (func task)); LArgs (args task); LInt max_retry])]
  else
    [logging (warning "%s(%s) fails %d times. Continue retrying..."
                [LStr (method_name (func task)); LArgs (args task); LInt (tries task)]);
     crawler_put (prior + 2, task)].

(** The [get_list] branch (lines 91-104). [task.args[0] + 1] is evaluated
    after the stocks are put. *)
Definition fan_out (task : each_task) (result : list string) : tried :=
  match result with
  | [] => mk_tried [] None
  | _ =>
      let stocks :=
        map (fun stk_id => crawler_put (0, mk_task get_stock [PStr stk_id] 0)) result in
      match args task with
      | PInt page_num :: _ =>
          mk_tried
            ([acquire; total_add (Z.of_nat (length result)); refresh; release]
             ++ stocks
             ++ [crawler_put (1, mk_task get_list [PInt (page_num + 1)] 0)])
            None
      | PStr _ :: _ =>
          mk_tried
            ([acquire; total_add (Z.of_nat (length result)); refresh; release]
             ++ stocks)
            (Some "TypeError")
      | [] =>
          mk_tried
            ([acquire; total_add (Z.of_nat (length result)); refresh; release]
             ++ stocks)
            (Some "IndexError")
      end
  end.

(** The [get_stock] branch (lines 107-108). *)
Definition forward (task : each_task) (result : DataFrame) : tried :=
  match args task with
  | PStr stock_id :: _ =>
      match format_save_fp (slice_from 2 stock_id) with
      | Returns save_fp => mk_tried [writer_put result save_fp] None
      | Raises exc => mk_tried [] (Some exc)
      end
  | PInt _ :: _ => mk_tried [] (Some "TypeError")
  | [] => mk_tried [] (Some "IndexError")
  end.

(** [if task.func.__name__ == 'get_list': ... else: ...] *)
Definition dispatch (task : each_task) : returns (func task) -> tried :=
  match func task as f return returns f -> tried with
  | get_list => fan_out task
  | get_stock => forward task
  end.

(** What a turn of the loop leaves behind: the task object as the turn
    left it, the operations on the shared objects, in order, and whether
    the turn left the loop by [break]. *)
Record iteration := mk_iteration {
  task_after : each_task;
  effects : list action;
  breaks : bool
}.

(** The handlers of the [try] (lines 110-116) for a body that ended as [t]
    says. [except Empty: break] is tested first: it takes an [Empty] raised
    anywhere in the body, not only by the [get] of line 68, and logs
    nothing. [except Exception] takes every other exception, logs, and the
    loop goes on. *)
Definition handled (task : each_task) (t : tried) : iteration :=
  match raised t with
  | None => mk_iteration task (performed t) false
  | Some exc =>
      if is_Empty exc then mk_iteration task (performed t) true
      else mk_iteration task (performed t ++ caught exc task) false
  end.

(** Lines 69-116, for the entry [[prior, task]] that [get] returned and
    the outcome [o] of [task.func( *task.args )]. *)
Definition do_task_iter (prior : Z) (task : each_task)
    (o : call_outcome (func task)) : iteration :=
  match o with
  | Raises exc => handled task (mk_tried [] (Some exc))
  | Returns result =>
      let task := bump task in
      match result with
      | None => handled task (mk_tried (retry prior task) None)
      | Some result => handled task (dispatch task result)
      end
  end.

(** *** [write_result]: one turn of the loop *)

(** Lines 133-140 and 142-147, for the pair [(result, save_fp)] that [get]
    returned and the outcome [w] of [write(result, save_fp)]: the
    operations of the turn on the shared objects. An [Empty] raised by
    [write] is taken by [except Empty] of line 142, which logs nothing;
    [write_result_next] says where the turn leaves the thread. *)
Definition write_result_iter (result : DataFrame) (save_fp : string)
    (w : outcome bool) : list action :=
  if empty result then
    [acquire; total_add (-1); refresh; release]
  else
    match w with
    | Returns true => [acquire; update 1; release]
    | Returns false => []
    | Raises exc => if is_Empty exc then [] else [logging (exception exc)]
    end.

End Crawler.

(** ** The thread pool of [assign_tasks] *)

(** A crawler thread, by where it is in [do_task] and what is left of the
    turn or of the epilogue it is in. *)
Inductive crawler_thread :=
| in_loop (pending : list action)     (* in [while True]; [[]]: at the [get] of line 68 *)
| leaving (pending : list action).    (* after [break]; [[]]: returned *)

(** The writer thread, likewise for [write_result]. *)
Inductive writer_thread :=
| w_in_loop (pending : list action)   (* [[]]: at the [get] of line 131 *)
| w_timed_out                         (* in [except Empty], at the test of line 143 *)
| w_leaving (pending : list action).  (* after [break]; [[]]: returned *)

(** Where a turn of [do_task] leaves crawler [i]: after a [break] at the
    epilogue of lines 118-120, else in the loop, in both cases with the
    operations of the turn still to run. *)
Definition do_task_next (i : nat) (it : iteration) : crawler_thread :=
  if breaks it
  then leaving (effects it
                ++ [other_get;
                    logging (info "Crawler Thread %d stopped." [LInt (Z.of_nat i)])])
  else in_loop (effects it).

(** Where a turn of [write_result] leaves the writer: an [Empty] raised by
    [write] puts it in the handler of line 142, as a [get] that timed out
    does; after anything else it is in the loop with the operations of the
    turn to run. [write] is called only on a frame that is not empty. *)
Definition write_result_next (result : DataFrame) (save_fp : string)
    (w : outcome bool) : writer_thread :=
  match w with
  | Raises exc =>
      if negb (empty result) && is_Empty exc then w_timed_out
      else w_in_loop (write_result_iter result save_fp w)
  | Returns _ => w_in_loop (write_result_iter result save_fp w)
  end.

(** What the run remembers of each entry a crawler took with the outcome of
    its call, and of each pair the writer took with the outcome of [write]. *)
Inductive event :=
| crawled (prior : Z) (task : each_task) (o : call_outcome (func task))
| wrote (result : DataFrame) (save_fp : string) (w : outcome bool).

Record system := mk_system {
  shared : state;
  crawlers : list crawler_thread;
  writer_th : writer_thread;
  reported : bool;                     (* the tally of line 51 is logged *)
  history : list event
}.

(** Who moves next, and what the world answers if the move is a call. *)
Inductive label :=
| crawler_moves (i : nat) (call : forall f, call_outcome f)
| writer_moves (w : outcome bool)
| pool_exits.

(** [AShareCrawler.__init__]: three empty queues and [tqdm(total=0)]. *)
Definition init : state := mk_state [] [] [] 0 0 None [].

Definition finished (t : crawler_thread) : bool :=
  match t with
  | leaving [] => true
  | _ => false
  end.

Definition w_finished (t : writer_thread) : bool :=
  match t with
  | w_leaving [] => true
  | _ => false
  end.

Section Pool.

Variable task_eq : each_task -> each_task -> bool.
Variable task_lt : each_task -> each_task -> bool.
Variable max_retry : Z.
Variable format_save_fp : string -> outcome string.

(** One move of crawler thread [i]. [get(timeout=30)] raises [Empty] only
    on an empty queue; the [Empty] of a call is in [do_task_iter]. *)
Definition crawler_step (i : nat) (call : forall f, call_outcome f)
    (t : crawler_thread) (s : state)
    : option (crawler_thread * state * list event) :=
  match t with
  | in_loop (a :: rest) =>
      match exec task_eq task_lt i a s with
      | Some s' => Some (in_loop rest, s', [])
      | None => None
      end
  | in_loop [] =>
      match heapq.heappop task_eq task_lt (crawler s) with
      | Some ((prior, task), heap) =>
          let o := call (func task) in
          let it := do_task_iter max_retry format_save_fp prior task o in
          Some (do_task_next i it,
                mk_state heap (writer s) (other s) (total s) (n s)
                  (PBAR_LOCK s) (log s),
                [crawled prior task o])
      | None =>
          Some (leaving [other_get;
                         logging (info "Crawler Thread %d stopped."
                                    [LInt (Z.of_nat i)])],
                s, [])
      end
  | leaving (a :: rest) =>
      match exec task_eq task_lt i a s with
      | Some s' => Some (leaving rest, s', [])
      | None => None
      end
  | leaving [] => None
  end.

(** One move of the writer, thread [tid]. *)
Definition writer_step (tid : nat) (w : outcome bool)
    (t : writer_thread) (s : state)
    : option (writer_thread * state * list event) :=
  match t with
  | w_in_loop (a :: rest) =>
      match exec task_eq task_lt tid a s with
      | Some s' => Some (w_in_loop rest, s', [])
      | None => None
      end
  | w_in_loop [] =>
      match writer s with
      | (result, save_fp) :: rest =>
          Some (write_result_next result save_fp w,
                mk_state (crawler s) rest (other s) (total s) (n s)
                  (PBAR_LOCK s) (log s),
                [wrote result save_fp w])
      | [] => Some (w_timed_out, s, [])
      end
  | w_timed_out =>
      match other s with
      | [] =>
          Some (w_leaving [logging (info "Writer Thread %d stopped"
                                      [LInt (Z.of_nat tid)])],
                s, [])
      | _ :: _ => Some (w_in_loop [], s, [])
      end
  | w_leaving (a :: rest) =>
      match exec task_eq task_lt tid a s with
      | Some s' => Some (w_leaving rest, s', [])
      | None => None
      end
  | w_leaving [] => None
  end.

(** [k] moves of the writer with no other thread in between, [write]
    answering [w] each time. *)
Fixpoint run_writer (tid : nat) (w : outcome bool) (k : nat)
    (t : writer_thread) (s : state) : option (writer_thread * state) :=
  match k with
  | O => Some (t, s)
  | S k' =>
      match writer_step tid w t s with
      | Some (t', s', _) => run_writer tid w k' t' s'
      | None => None
      end
  end.

Definition step (l : label) (sys : system) : option system :=
  match l with
  | crawler_moves i call =>
      match crawlers sys !! i with
      | Some t =>
          match crawler_step i call t (shared sys) with
          | Some (t', s', evs) =>
              Some (mk_system s' (<[i := t']> (crawlers sys)) (writer_th sys)
                      (reported sys) (history sys ++ evs))
          | None => None
          end
      | None => None
      end
  | writer_moves w =>
      match writer_step (length (crawlers sys)) w (writer_th sys) (shared sys) with
      | Some (t', s', evs) =>
          Some (mk_system s' (crawlers sys) t' (reported sys) (history sys ++ evs))
      | None => None
      end
  | pool_exits =>
      (* leaving the [with ThreadPoolExecutor] block joins every thread *)
      if forallb finished (crawlers sys) && w_finished (writer_th sys)
         && negb (reported sys)
      then
        let s := shared sys in
        Some (mk_system
                (mk_state (crawler s) (writer s) (other s) (total s) (n s)
                   (PBAR_LOCK s)
                   (log s ++ [info "%d/%d stocks' data are retrieved."
                                [LInt (n s); LInt (total s)]]))
                (crawlers sys) (writer_th sys) true (history sys))
      else None
  end.

Fixpoint run (ls : list label) (sys : system) : option system :=
  match ls with
  | [] => Some sys
  | l :: rest =>
      match step l sys with
      | Some sys' => run rest sys'
      | None => None
      end
  end.

(** [assign_tasks(num_crawler, max_retry)] on an object in state [s]:
    the first log line, then [num_crawler] threads at the top of
    [do_task] and one at the top of [write_result]. *)
Definition assign_tasks (num_crawler : nat) (s : state) : system :=
  mk_system
    (mk_state (crawler s) (writer s) (other s) (total s) (n s) (PBAR_LOCK s)
       (log s ++ [info "Thread Pool starts %d threads..."
                    [LInt (Z.of_nat num_crawler + 1)]]))
    (map (fun i => in_loop [other_put i;
                            logging (info "Crawler Thread %d starts..."
                                       [LInt (Z.of_nat i)])])
         (seq 0 num_crawler))
    (w_in_loop [logging (info "Writer Thread %d starts..."
                           [LInt (Z.of_nat num_crawler)])])
    false [].

(** Every queue is empty and every worker has returned. *)
Definition quiescent (sys : system) : Prop :=
  crawler (shared sys) = [] /\ writer (shared sys) = [] /\
  forallb finished (crawlers sys) = true /\ w_finished (writer_th sys) = true.

(** *** The events the accounting speaks of *)

(** The writer took a frame with nothing in it. *)
Definition permanent_empty_result (ev : event) : bool :=
  match ev with
  | wrote result _ _ => empty result
  | crawled _ _ _ => false
  end.

(** [write] answered false. *)
Definition persistence_failure (ev : event) : bool :=
  match ev with
  | wrote result _ (Returns false) => negb (empty result)
  | _ => false
  end.

(** A [get_stock] task answered [None] for the last time. *)
Definition dropped_fetch (ev : event) : bool :=
  match ev with
  | crawled _ task o =>
      match func task as f return call_outcome f -> bool with
      | get_stock => fun o =>
          match o with
          | Returns None => tries task + 1 >=? max_retry
          | _ => false
          end
      | get_list => fun _ => false
      end o
  | wrote _ _ _ => false
  end.

Definition is_writer_put (acts : list action) : bool :=
  match acts with
  | [writer_put _ _] => true
  | _ => false
  end.

(** A stock was lost to an exception: in the call, on the way to the
    writer queue, or in [write]. *)
Definition lost_to_exception (ev : event) : bool :=
  match ev with
  | crawled _ task o =>
      match func task as f return call_outcome f -> bool with
      | get_stock => fun o =>
          match o with
          | Raises _ => true
          | Returns (Some result) =>
              negb (is_writer_put
                      (performed (forward format_save_fp (bump task) result)))
          | Returns None => false
          end
      | get_list => fun _ => false
      end o
  | wrote result _ (Raises _) => negb (empty result)
  | wrote _ _ _ => false
  end.

Definition count (p : event -> bool) (sys : system) : Z :=
  Z.of_nat (length (filter (fun ev => p ev = true) (history sys))).

End Pool.

(** ** Histories of the crawler queue alone *)

Inductive queue_op :=
| put (e : entry)
| get.

Section Histories.

Variable task_eq : each_task -> each_task -> bool.
Variable task_lt : each_task -> each_task -> bool.

(** The heap after a history of [put] and [get]; a [get] on an empty queue
    times out and leaves it as it is. *)
Fixpoint replay (ops : list queue_op) (heap : list entry) : list entry :=
  match ops with
  | [] => heap
  | put e :: ops => replay ops (heapq.heappush task_eq task_lt heap e)
  | get :: ops =>
      match heapq.heappop task_eq task_lt heap with
      | Some (_, heap') => replay ops heap'
      | None => replay ops heap
      end
  end.

(** What [fuel] successive [get]s return. *)
Fixpoint drain (fuel : nat) (heap : list entry) : list entry :=
  match fuel with
  | O => []
  | S fuel' =>
      match heapq.heappop task_eq task_lt heap with
      | Some (e, heap') => e :: drain fuel' heap'
      | None => []
      end
  end.

(** First in, first out among entries of one priority [p]: tasks put in
    the order [ts] come back in the order [ts]. *)
Definition fifo_among_equals : Prop :=
  forall (p : Z) (ts : list each_task), NoDup ts ->
    drain (length ts) (replay (map (fun t => put (p, t)) ts) [])
    = map (fun t => (p, t)) ts.

End Histories.

(** ** Following one task through its retries *)

Section Retries.

Variable max_retry : Z.
Variable format_save_fp : string -> outcome string.

(** The entry a turn puts back on the crawler queue, if it does. *)
Fixpoint requeued (acts : list action) : option entry :=
  match acts with
  | [] => None
  | crawler_put e :: _ => Some e
  | _ :: rest => requeued rest
  end.

(** The turns that take the entry [[prior, task]], each call answering
    [None], until a turn does not put it back. *)
Fixpoint attempts (fuel : nat) (prior : Z) (task : each_task) : list iteration :=
  match fuel with
  | O => []
  | S fuel' =>
      let it := do_task_iter max_retry format_save_fp prior task (Returns None) in
      it :: match requeued (effects it) with
            | Some (prior', task') => attempts fuel' prior' task'
            | None => []
            end
  end.

End Retries.

(** ** What is still owed to the progress bar *)

Definition is_fetch (e : entry) : bool :=
  match func (snd e) with
  | get_stock => true
  | get_list => false
  end.

(** The [get_stock] tasks on the crawler queue. *)
Definition queued_fetch (heap : list entry) : Z :=
  Z.of_nat (length (filter (fun e => is_fetch e = true) heap)).

(** The sum of what the pending [total += k] will add. *)
Fixpoint pending_total (acts : list action) : Z :=
  match acts with
  | [] => 0
  | total_add k :: rest => k + pending_total rest
  | _ :: rest => pending_total rest
  end.

(** The sum of what the pending [update(k)] will add. *)
Fixpoint pending_n (acts : list action) : Z :=
  match acts with
  | [] => 0
  | update k :: rest => k + pending_n rest
  | _ :: rest => pending_n rest
  end.

(** The stocks the pending operations still carry: a [get_stock] task on
    its way to the crawler queue, a frame on its way to the writer queue. *)
Fixpoint pending_stocks (acts : list action) : Z :=
  match acts with
  | [] => 0
  | crawler_put e :: rest => (if is_fetch e then 1 else 0) + pending_stocks rest
  | writer_put _ _ :: rest => 1 + pending_stocks rest
  | _ :: rest => pending_stocks rest
  end.

(** What a thread still owes: stocks in hand, less the difference its
    pending bar operations will make. *)
Definition owed (acts : list action) : Z :=
  pending_stocks acts + pending_n acts - pending_total acts.

Definition crawler_pending (t : crawler_thread) : list action :=
  match t with
  | in_loop acts | leaving acts => acts
  end.

Definition writer_pending (t : writer_thread) : list action :=
  match t with
  | w_in_loop acts | w_leaving acts => acts
  | w_timed_out => []
  end.

Fixpoint owed_by (ts : list crawler_thread) : Z :=
  match ts with
  | [] => 0
  | t :: rest => owed (crawler_pending t) + owed_by rest
  end.

(** The stocks counted in [total] and not yet settled. *)
Definition in_flight (sys : system) : Z :=
  queued_fetch (crawler (shared sys)) + Z.of_nat (length (writer (shared sys)))
  + owed_by (crawlers sys) + owed (writer_pending (writer_th sys)).

(** A state whose bar agrees with its queues, as after [__init__] and any
    number of [get_list] tasks put on the crawler queue. *)
Definition balanced (s : state) : Prop :=
  total s = n s + queued_fetch (crawler s) + Z.of_nat (length (writer s)).

(** Every write to the bar in [acts] happens with the lock held; [held]
    tells whether it is held on entry. *)
Fixpoint guarded (held : bool) (acts : list action) : bool :=
  match acts with
  | [] => true
  | acquire :: rest => guarded true rest
  | release :: rest => guarded false rest
  | total_add _ :: rest | update _ :: rest => held && guarded held rest
  | _ :: rest => guarded held rest
  end.

(** The writer is past the [break] of line 144. *)
Definition w_broke (t : writer_thread) : bool :=
  match t with
  | w_leaving _ => true
  | _ => false
  end.

(** An operation that touches neither the bar nor the two work queues. *)
Definition bookkeeping (a : action) : bool :=
  match a with
  | other_put _ | other_get | logging _ => true
  | _ => false
  end.

(** ** Heap order on priorities *)

(** Every entry has a priority no smaller than its parent's. *)
Definition heap_ok (h : list entry) : Prop :=
  forall i x y, (0 < i)%nat -> h !! i = Some x ->
    h !! ((i - 1) / 2)%nat = Some y -> fst y <= fst x.

(** The same, the slot [pos] left out: the edges that do not touch [pos]
    are in order, and so is each child of [pos] with the parent of [pos]. *)
Definition hole_ok (h : list entry) (pos : nat) : Prop :=
  (forall i x y, (0 < i)%nat -> i <> pos -> ((i - 1) / 2)%nat <> pos ->
     h !! i = Some x -> h !! ((i - 1) / 2)%nat = Some y -> fst y <= fst x) /\
  (forall c x y, (0 < pos)%nat -> (0 < c)%nat -> ((c - 1) / 2)%nat = pos ->
     h !! c = Some x -> h !! ((pos - 1) / 2)%nat = Some y -> fst y <= fst x).

(** [newitem] may sit above the children of [pos]. *)
Definition below (newitem : entry) (h : list entry) (pos : nat) : Prop :=
  forall c x, (0 < c)%nat -> ((c - 1) / 2)%nat = pos -> h !! c = Some x ->
    fst newitem <= fst x.

(** ** Instances for the worked examples *)

(** A comparison of tasks field by field, as a record type that orders
    its instances has it. Where Python would raise (two different methods,
    an [int] against a [str]) it answers false. *)
Definition pyval_lt (a b : pyval) : bool :=
  match a, b with
  | PInt x, PInt y => x <? y
  | PStr x, PStr y => String.ltb x y
  | _, _ => false
  end.

Fixpoint args_lt (a b : list pyval) : bool :=
  match a, b with
  | [], [] => false
  | [], _ :: _ => true
  | _ :: _, [] => false
  | x :: a', y :: b' => if decide (x = y) then args_lt a' b' else pyval_lt x y
  end.

Definition fieldwise_eq (t1 t2 : each_task) : bool := bool_decide (t1 = t2).

Definition fieldwise_lt (t1 t2 : each_task) : bool :=
  if decide (func t1 = func t2) then
    if decide (args t1 = args t2) then tries t1 <? tries t2
    else args_lt (args t1) (args t2)
  else false.

(** [self.save_fp = './data/%s.csv'] *)
Definition data_csv (s : string) : outcome string :=
  Returns ("./data/" +:+ s +:+ ".csv").

(** The world answering [l] to [get_list] and [d] to [get_stock]. *)
Definition answers (l : option (list string)) (d : option DataFrame)
    : forall f, call_outcome f :=
  fun f =>
    match f with
    | get_list => Returns l
    | get_stock => Returns d
    end.

(** The world raising [exc] whatever is called. *)
Definition raising (exc : string) : forall f, call_outcome f :=
  fun f => Raises exc.


(** A crawler in state [init] with the task of page 0 put on its queue at
    priority 1. *)
Definition seeded : state :=
  mk_state [(1, mk_task get_list [PInt 0] 0)] [] [] 0 0 None [].

Definition no_rows : DataFrame := mk_frame ["date"; "open"; "close"] [].

(** A run of one crawler and the writer on [seeded]: page 0 lists one
    stock, the stock has no rows in the range of dates, page 1 is empty. *)
Definition one_stock_without_rows : list label :=
  replicate 2 (crawler_moves 0 (answers None None))
  ++ [crawler_moves 0 (answers (Some ["1.600000"]) None)]
  ++ replicate 6 (crawler_moves 0 (answers None None))
  ++ [crawler_moves 0 (answers None (Some no_rows))]
  ++ [crawler_moves 0 (answers None None)]
  ++ [crawler_moves 0 (answers (Some []) None)]
  ++ replicate 3 (crawler_moves 0 (answers None None))
  ++ replicate 9 (writer_moves (Returns true))
  ++ [pool_exits].

(** The same, but the call of [get_stock] raises. *)
Definition one_stock_raising : list label :=
  replicate 2 (crawler_moves 0 (answers None None))
  ++ [crawler_moves 0 (answers (Some ["1.600000"]) None)]
  ++ replicate 6 (crawler_moves 0 (answers None None))
  ++ [crawler_moves 0 (raising "TypeError")]
  ++ replicate 2 (crawler_moves 0 (answers None None))
  ++ [crawler_moves 0 (answers (Some []) None)]
  ++ replicate 3 (crawler_moves 0 (answers None None))
  ++ replicate 4 (writer_moves (Returns true))
  ++ [pool_exits].

(** A run of one crawler and the writer on [init], to the end. *)
Definition nothing_to_do : list label :=
  replicate 5 (crawler_moves 0 (answers None None))
  ++ replicate 4 (writer_moves (Returns true))
  ++ [pool_exits].

(** The bar against the queues. *)
Definition account (s : state) : Z :=
  total s - n s - queued_fetch (crawler s) - Z.of_nat (length (writer s)).

(** Nothing has been crawled and nothing is about to be. *)
Definition idle (sys : system) : Prop :=
  crawler (shared sys) = [] /\ writer (shared sys) = [] /\
  total (shared sys) = 0 /\ n (shared sys) = 0 /\ history sys = [] /\
  Forall (fun t => forallb bookkeeping (crawler_pending t) = true) (crawlers sys) /\
  forallb bookkeeping (writer_pending (writer_th sys)) = true.

(** The books of a run: what [total] counts is what [n] counts, what is in
    flight, and what was lost on the way. *)
Definition ledger (max_retry : Z) (format_save_fp : string -> outcome string)
    (sys : system) : Prop :=
  total (shared sys)
  = n (shared sys) + in_flight sys
    + count persistence_failure sys
    + count (dropped_fetch max_retry) sys
    + count (lost_to_exception format_save_fp) sys.

(** ** The moves of the pool, one by one *)

Definition with_crawler (heap : list entry) (s : state) : state :=
  mk_state heap (writer s) (other s) (total s) (n s) (PBAR_LOCK s) (log s).

Definition with_writer (q : list (DataFrame * string)) (s : state) : state :=
  mk_state (crawler s) q (other s) (total s) (n s) (PBAR_LOCK s) (log s).

Section Moves.

Variable task_eq : each_task -> each_task -> bool.
Variable task_lt : each_task -> each_task -> bool.
Variable max_retry : Z.
Variable format_save_fp : string -> outcome string.

(** What [step] can do, case by case. *)
Inductive moved (sys : system) : system -> Prop :=
| crawler_runs i a rest s' :
    crawlers sys !! i = Some (in_loop (a :: rest)) ->
    exec task_eq task_lt i a (shared sys) = Some s' ->
    moved sys (mk_system s' (<[i := in_loop rest]> (crawlers sys))
                 (writer_th sys) (reported sys) (history sys))
| crawler_takes i prior task heap (o : call_outcome (func task)) :
    crawlers sys !! i = Some (in_loop []) ->
    heapq.heappop task_eq task_lt (crawler (shared sys)) = Some ((prior, task), heap) ->
    moved sys (mk_system (with_crawler heap (shared sys))
                 (<[i := do_task_next i (do_task_iter max_retry format_save_fp
                                           prior task o)]> (crawlers sys))
                 (writer_th sys) (reported sys)
                 (history sys ++ [crawled prior task o]))
| crawler_times_out i :
    crawlers sys !! i = Some (in_loop []) ->
    crawler (shared sys) = [] ->
    moved sys (mk_system (shared sys)
                 (<[i := leaving [other_get;
                                  logging (info "Crawler Thread %d stopped."
                                             [LInt (Z.of_nat i)])]]> (crawlers sys))
                 (writer_th sys) (reported sys) (history sys))
| crawler_leaves i a rest s' :
    crawlers sys !! i = Some (leaving (a :: rest)) ->
    exec task_eq task_lt i a (shared sys) = Some s' ->
    moved sys (mk_system s' (<[i := leaving rest]> (crawlers sys))
                 (writer_th sys) (reported sys) (history sys))
| writer_runs a rest s' :
    writer_th sys = w_in_loop (a :: rest) ->
    exec task_eq task_lt (length (crawlers sys)) a (shared sys) = Some s' ->
    moved sys (mk_system s' (crawlers sys) (w_in_loop rest) (reported sys)
                 (history sys))
| writer_takes result save_fp q w :
    writer_th sys = w_in_loop [] ->
    writer (shared sys) = (result, save_fp) :: q ->
    moved sys (mk_system (with_writer q (shared sys)) (crawlers sys)
                 (write_result_next result save_fp w) (reported sys)
                 (history sys ++ [wrote result save_fp w]))
| writer_times_out :
    writer_th sys = w_in_loop [] ->
    writer (shared sys) = [] ->
    moved sys (mk_system (shared sys) (crawlers sys) w_timed_out (reported sys)
                 (history sys))
| writer_breaks :
    writer_th sys = w_timed_out ->
    other (shared sys) = [] ->
    moved sys (mk_system (shared sys) (crawlers sys)
                 (w_leaving [logging (info "Writer Thread %d stopped"
                                        [LInt (Z.of_nat (length (crawlers sys)))])])
                 (reported sys) (history sys))
| writer_goes_on :
    writer_th sys = w_timed_out ->
    other (shared sys) <> [] ->
    moved sys (mk_system (shared sys) (crawlers sys) (w_in_loop []) (reported sys)
                 (history sys))
| writer_leaves a rest s' :
    writer_th sys = w_leaving (a :: rest) ->
    exec task_eq task_lt (length (crawlers sys)) a (shared sys) = Some s' ->
    moved sys (mk_system s' (crawlers sys) (w_leaving rest) (reported sys)
                 (history sys))
| pool_reports :
    forallb finished (crawlers sys) = true ->
    w_finished (writer_th sys) = true ->
    reported sys = false ->
    moved sys (mk_system
                 (mk_state (crawler (shared sys)) (writer (shared sys))
                    (other (shared sys)) (total (shared sys)) (n (shared sys))
                    (PBAR_LOCK (shared sys))
                    (log (shared sys)
                     ++ [info "%d/%d stocks' data are retrieved."
                           [LInt (n (shared sys)); LInt (total (shared sys))]]))
                 (crawlers sys) (writer_th sys) true (history sys)).

End Moves.

(** ** The discipline of the lock and of the registry *)

Definition registry_op (a : action) : bool :=
  match a with
  | other_put _ | other_get => true
  | _ => false
  end.

(** No operation of [acts] touches [self.queues.other]. *)
Definition plain (acts : list action) : bool :=
  forallb (fun a => negb (registry_op a)) acts.

(** Thread [k] holds [PBAR_LOCK]. *)
Definition holds (k : nat) (s : state) : bool :=
  bool_decide (PBAR_LOCK s = Some k).

(** [acts] takes and gives back the lock in turn, ends with the lock given
    back, writes to the bar only while it holds the lock and waits on the
    registry only while it does not; [held] tells whether the lock is held
    on entry. *)
Fixpoint bracketed (held : bool) (acts : list action) : bool :=
  match acts with
  | [] => negb held
  | acquire :: rest => negb held && bracketed true rest
  | release :: rest => held && bracketed false rest
  | total_add _ :: rest | update _ :: rest => held && bracketed held rest
  | other_put _ :: rest | other_get :: rest => negb held && bracketed held rest
  | _ :: rest => bracketed held rest
  end.

(** The crawler has put its identity on [self.queues.other] (line 62) and
    not yet taken one off (line 118). *)
Definition registered (t : crawler_thread) : bool :=
  match t with
  | in_loop (other_put _ :: _) => false
  | in_loop _ => true
  | leaving (other_get :: _) => true
  | leaving _ => false
  end.

(** Only the next operation of a crawler may be one on the registry: the
    [put] on the way in, the [get] on the way out. *)
Definition crawler_shape (t : crawler_thread) : bool :=
  match t with
  | in_loop [] | leaving [] => true
  | in_loop (other_get :: _) | leaving (other_put _ :: _) => false
  | in_loop (_ :: rest) | leaving (_ :: rest) => plain rest
  end.

(** The number of registered crawlers. *)
Fixpoint live (ts : list crawler_thread) : Z :=
  match ts with
  | [] => 0
  | t :: rest => Z.b2z (registered t) + live rest
  end.

Definition disciplined (sys : system) : Prop :=
  (forall i t, crawlers sys !! i = Some t ->
     crawler_shape t = true /\
     bracketed (holds i (shared sys)) (crawler_pending t) = true) /\
  plain (writer_pending (writer_th sys)) = true /\
  bracketed (holds (length (crawlers sys)) (shared sys))
    (writer_pending (writer_th sys)) = true /\
  (forall k, PBAR_LOCK (shared sys) = Some k -> (k <= length (crawlers sys))%nat) /\
  Z.of_nat (length (other (shared sys))) = live (crawlers sys).

(** The thread a label moves. *)
Definition mover (crawlers : nat) (l : label) : option nat :=
  match l with
  | crawler_moves i _ => Some i
  | writer_moves _ => Some crawlers
  | pool_exits => None
  end.

(** ** The bar is never ahead *)

(** Whatever is left of [acts] to run, it owes nothing negative. *)
Fixpoint solvent (acts : list action) : bool :=
  match acts with
  | [] => true
  | a :: rest => (0 <=? owed (a :: rest)) && solvent rest
  end.

Definition all_solvent (sys : system) : Prop :=
  (forall i t, crawlers sys !! i = Some t -> solvent (crawler_pending t) = true) /\
  solvent (writer_pending (writer_th sys)) = true.

(** ** Priorities and tries *)

(** The entries [acts] will put on the crawler queue. *)
Fixpoint crawler_puts (acts : list action) : list entry :=
  match acts with
  | [] => []
  | crawler_put e :: rest => e :: crawler_puts rest
  | _ :: rest => crawler_puts rest
  end.

(** The priority of an entry is twice the tries of its task, plus one for
    a [get_list] task; and a task that has been tried is one the limit of
    retries has let through. *)
Definition ranked (max_retry : Z) (e : entry) : Prop :=
  fst e = 2 * tries (snd e) + (if is_fetch e then 0 else 1) /\
  (tries (snd e) = 0 \/ 0 < tries (snd e) < max_retry).

Definition all_ranked (max_retry : Z) (sys : system) : Prop :=
  heap_ok (crawler (shared sys)) /\
  Forall (ranked max_retry) (crawler (shared sys)) /\
  (forall i t, crawlers sys !! i = Some t ->
     Forall (ranked max_retry) (crawler_puts (crawler_pending t))) /\
  crawler_puts (writer_pending (writer_th sys)) = [].

(** ** One page at a time *)

Definition queued_lists (heap : list entry) : Z :=
  Z.of_nat (length (filter (fun e => is_fetch e = false) heap)).

(** The [get_list] tasks [acts] will put on the crawler queue. *)
Fixpoint pending_lists (acts : list action) : Z :=
  match acts with
  | [] => 0
  | crawler_put e :: rest => (if is_fetch e then 0 else 1) + pending_lists rest
  | _ :: rest => pending_lists rest
  end.

Fixpoint lists_held (ts : list crawler_thread) : Z :=
  match ts with
  | [] => 0
  | t :: rest => pending_lists (crawler_pending t) + lists_held rest
  end.

(** The [get_list] tasks of a run: queued, or about to be. *)
Definition pages_out (sys : system) : Z :=
  queued_lists (crawler (shared sys)) + lists_held (crawlers sys)
  + pending_lists (writer_pending (writer_th sys)).

(** A run of one crawler on [seeded] up to the moment it holds the lock
    and is about to add to [total]. *)
Definition up_to_total_add : list label :=
  replicate 2 (crawler_moves 0 (answers None None))
  ++ [crawler_moves 0 (answers (Some ["1.600000"]) None)]
  ++ [crawler_moves 0 (answers None None)].

(** A run of one crawler on [seeded] up to its [self.queues.other.get()]. *)
Definition up_to_deregistration : list label :=
  replicate 2 (crawler_moves 0 (answers None None))
  ++ [crawler_moves 0 (answers (Some []) None)]
  ++ [crawler_moves 0 (answers None None)].

(** No operation of [acts] raises [total] or lowers [n]. *)
Fixpoint harmless (acts : list action) : bool :=
  match acts with
  | [] => true
  | total_add k :: rest => (k <=? 0) && harmless rest
  | update k :: rest => (0 <=? k) && harmless rest
  | _ :: rest => harmless rest
  end.

(** A run of one crawler on [seeded] up to the moment the stock of page 0
    and the task of page 1 are both queued. *)
Definition up_to_next_page : list label :=
  replicate 2 (crawler_moves 0 (answers None None))
  ++ [crawler_moves 0 (answers (Some ["1.600000"]) None)]
  ++ replicate 6 (crawler_moves 0 (answers None None)).

(** The same, the stock then answering [None] once: the stock is back on
    the queue at priority 2 with the task of page 1. *)
Definition up_to_retried_stock : list label :=
  up_to_next_page
  ++ [crawler_moves 0 (answers None None)]
  ++ replicate 2 (crawler_moves 0 (answers None None)).

(** ** The answers of the server *)

(** What [get] hands to [get_list] and [get_stock]: [None], or the decoded
    body of the response, a JSON value as Python holds it. A [dict] keeps
    its keys in the order of insertion and has each key once. *)
#[warnings="-register-all"] Inductive json :=
| JNull                                    (* None *)
| JBool (b : bool)
| JInt (z : Z)
| JFloat (x : float)
| JStr (s : string)
| JList (items : list json)
| JDict (fields : list (string * json)).

(** Raising is the error monad on [outcome]. *)
#[global] Instance outcome_ret : MRet outcome := fun _ r => Returns r.
#[global] Instance outcome_bind : MBind outcome := fun _ _ k o =>
  match o with
  | Returns r => k r
  | Raises exc => Raises exc
  end.

(** The operations of Python the two methods apply to the answer. A
    string is a [string] of the library, its characters the [ascii] it is
    made of. *)
Module py.

Fixpoint assoc (key : string) (fields : list (string * json)) : option json :=
  match fields with
  | [] => None
  | (k, v) :: rest => if decide (k = key) then Some v else assoc key rest
  end.

(** [v[key]] for a string [key]. *)
Definition getitem (v : json) (key : string) : outcome json :=
  match v with
  | JDict fields =>
      match assoc key fields with
      | Some x => Returns x
      | None => Raises "KeyError"
      end
  | _ => Raises "TypeError"    (* indices must be integers; not subscriptable *)
  end.

(** [bool(v)], the test of [if v:] and of [not v]. *)
Definition truthy (v : json) : bool :=
  match v with
  | JNull => false
  | JBool b => b
  | JInt z => negb (z =? 0)
  | JFloat x => negb (PrimFloat.eqb x 0%float)
  | JStr s => negb (bool_decide (s = ""))
  | JList items => negb (bool_decide (items = []))
  | JDict fields => negb (bool_decide (fields = []))
  end.

Fixpoint chars (s : string) : list string :=
  match s with
  | "" => []
  | String c s' => String c "" :: chars s'
  end.

(** [for each in v]: the items of a list, the keys of a dict, the
    characters of a string. *)
Definition iter (v : json) : outcome (list json) :=
  match v with
  | JList items => Returns items
  | JDict fields => Returns (map (fun kv => JStr (fst kv)) fields)
  | JStr s => Returns (map JStr (chars s))
  | _ => Raises "TypeError"    (* object is not iterable *)
  end.

(** [s.split(sep)] for a separator of one character. *)
Fixpoint split (sep : Ascii.ascii) (s : string) : list string :=
  match s with
  | "" => [""]
  | String c s' =>
      if decide (c = sep) then "" :: split sep s'
      else match split sep s' with
           | field :: fields => String c field :: fields
           | [] => [String c ""]
           end
  end.

(** [each.split(',')] *)
Definition split_commas (each : json) : outcome (list string) :=
  match each with
  | JStr s => Returns (split ","%char s)
  | _ => Raises "AttributeError"    (* object has no attribute 'split' *)
  end.

Section Str.

(** [repr] of a float, a list or a dict. *)
Variable repr : json -> string.

(** [str(v)], which is what ['{}'.format(v)] writes. *)
Definition str (v : json) : string :=
  match v with
  | JNull => "None"
  | JBool true => "True"
  | JBool false => "False"
  | JInt z => pretty z
  | JStr s => s
  | _ => repr v
  end.

End Str.

End py.

(** [self.req_info]: the five keys [start_crawler.py] gives it. The two
    dicts of parameters are objects the calls share and update. *)
Record request_info := mk_req_info {
  stock_url : string;
  list_url : string;
  stock_params : gmap string pyval;
  list_params : gmap string pyval;
  stock_cols : list string
}.

(** What a call of a bound method leaves behind: [self.req_info] with the
    dict the call updated, the records it logged, and what it returned or
    raised. *)
Record returned (f : method) := mk_returned {
  req_info_after : request_info;
  logged : list log_record;
  value : call_outcome f
}.
Arguments mk_returned {f} _ _ _.
Arguments req_info_after {f} _.
Arguments logged {f} _.
Arguments value {f} _.

Module AShareCrawler.
Section Methods.

(** [repr] of a float, a list or a dict. *)
Variable repr : json -> string.

(** [get(url=..., params=...)] of [src.utils]: the answer of the server,
    [None] or the decoded body. *)
Variable get : string -> gmap string pyval -> outcome json.

(** [round(time())] *)
Variable now : Z.

(** Lines 168-173 after the comprehension: [pd.DataFrame(rows)], the
    column names of [stock_cols], the dates parsed and the rows filtered
    by [self.dates]; the frame, or the exception pandas raises. *)
Variable frame : list string -> list (list string) -> outcome DataFrame.

(** [[each.split(',') for each in content['data']['klines']]] *)
Definition klines (content : json) : outcome (list (list string)) :=
  data ← py.getitem content "data";
  lines ← py.getitem data "klines";
  items ← py.iter lines;
  mapM py.split_commas items.

(** Lines 158-179. *)
Definition get_stock (req_info : request_info) (stock_id : pyval)
    : returned get_stock :=
  let params := <["_" := PInt now]> (<["secid" := stock_id]> (stock_params req_info)) in
  let req_info := mk_req_info (stock_url req_info) (list_url req_info) params
                    (list_params req_info) (stock_cols req_info) in
  match get (stock_url req_info) params with
  | Raises exc => mk_returned req_info [] (Raises exc)
  | Returns JNull => mk_returned req_info [] (Returns None)
  | Returns content =>
      match rows ← klines content; frame (stock_cols req_info) rows with
      | Returns data_df => mk_returned req_info [] (Returns (Some data_df))
      | Raises exc =>
          if decide (exc = "KeyError")
          then mk_returned req_info [error exc []] (Returns None)
          else mk_returned req_info [] (Raises exc)
      end
  end.

(** ['{}.{}'.format(each['f13'], each['f12'])] *)
Definition stock_code (each : json) : outcome string :=
  f13 ← py.getitem each "f13";
  f12 ← py.getitem each "f12";
  mret (py.str repr f13 +:+ "." +:+ py.str repr f12).

(** Lines 194-205, from the answer on. *)
Definition stock_ls (content : json) : outcome (option (list string)) :=
  match content with
  | JNull => Returns None
  | _ =>
      data ← py.getitem content "data";
      if negb (py.truthy data) then Returns (Some [])
      else
        diff ← py.getitem data "diff";
        items ← py.iter diff;
        codes ← mapM stock_code items;
        mret (Some codes)
  end.

(** Lines 188-205. *)
Definition get_list (req_info : request_info) (page_num : pyval)
    : returned get_list :=
  let params := <["_" := PInt now]> (<["pn" := page_num]> (list_params req_info)) in
  let req_info := mk_req_info (stock_url req_info) (list_url req_info)
                    (stock_params req_info) params (stock_cols req_info) in
  mk_returned req_info [] (content ← get (list_url req_info) params; stock_ls content).

End Methods.
End AShareCrawler.

Section Turn.

Variable repr : json -> string.
Variable get : string -> gmap string pyval -> outcome json.
Variable now : Z.
Variable frame : list string -> list (list string) -> outcome DataFrame.
Variable max_retry : Z.
Variable format_save_fp : string -> outcome string.

(** [task.func( *task.args )] of line 69: the bound methods take one
    argument. *)
Definition call_task (req_info : request_info) (task : each_task)
    : returned (func task) :=
  match args task with
  | [arg] =>
      match func task as f return returned f with
      | get_list => AShareCrawler.get_list repr get now req_info arg
      | get_stock => AShareCrawler.get_stock get now frame req_info arg
      end
  | _ => mk_returned req_info [] (Raises "TypeError")
  end.

(** A turn of the loop of [do_task] from the entry [[prior, task]] on,
    the call of the method with it: [self.req_info] after the turn and the
    operations on the shared objects, in order. Whether the turn leaves
    the loop is [breaks] of the same [do_task_iter]. *)
Definition do_task_turn (req_info : request_info) (prior : Z) (task : each_task)
    : request_info * list action :=
  let r := call_task req_info task in
  (req_info_after r,
   map logging (logged r)
   ++ effects (do_task_iter max_retry format_save_fp prior task (value r))).

End Turn.

(** ** The dict of parameters under several callers *)

(** The statements of a method up to its request, one by one: the two
    assignments to [params], which is the dict of [self.req_info] itself,
    and the moment [get] reads the dict it was handed. *)
Inductive request_op :=
| setitem (key : string) (val : pyval)     (* params[key] = val *)
| get_reads (url : string).                (* get(url=url, params=params) *)

(** Lines 158-162 of [get_stock]. *)
Definition stock_request (req_info : request_info) (stock_id : pyval) (now : Z)
    : list request_op :=
  [setitem "secid" stock_id; setitem "_" (PInt now); get_reads (stock_url req_info)].

(** Threads inside calls on one dict: the dict, what each thread has left
    to do, and the requests made so far, each with its thread and the
    parameters [get] read. *)
Record callers := mk_callers {
  params : gmap string pyval;
  in_call : list (list request_op);
  requests : list (nat * (string * gmap string pyval))
}.

(** Thread [i] runs its next statement. *)
Definition request_step (i : nat) (c : callers) : option callers :=
  match in_call c !! i with
  | Some (setitem key val :: rest) =>
      Some (mk_callers (<[key := val]> (params c)) (<[i := rest]> (in_call c))
              (requests c))
  | Some (get_reads url :: rest) =>
      Some (mk_callers (params c) (<[i := rest]> (in_call c))
              (requests c ++ [(i, (url, params c))]))
  | _ => None
  end.

Fixpoint request_run (schedule : list nat) (c : callers) : option callers :=
  match schedule with
  | [] => Some c
  | i :: rest =>
      match request_step i c with
      | Some c' => request_run rest c'
      | None => None
      end
  end.

(** A server of one page: page 0 lists the stock 600000 of market 1, every
    other request is answered with [data] null. *)
Definition one_page (url : string) (params : gmap string pyval) : outcome json :=
  match params !! "pn" with
  | Some (PInt 0) =>
      Returns (JDict [("data",
                       JDict [("total", JInt 1);
                              ("diff", JList [JDict [("f12", JStr "600000");
                                                     ("f13", JInt 1)]])])])
  | _ => Returns (JDict [("data", JNull)])
  end.

(** A server that does not answer: [get] returns [None]. *)
Definition silent (url : string) (params : gmap string pyval) : outcome json :=
  Returns JNull.

(** [repr] of an empty list or dict, all the examples need. *)
Definition repr_empty (v : json) : string :=
  match v with
  | JList [] => "[]"
  | JDict [] => "{}"
  | _ => ""
  end.

(** pandas on lines 168-173 as they are written, for dates that parse.
    [pd.DataFrame(rows)] has as many columns as the longest row has fields,
    and line 170 is a [ValueError] when [stock_cols] has another number of
    names. Past it no frame comes back either: line 171 is a [KeyError]
    when no column has the name it asks for, and line 172 indexes with a
    list of one mask, which is looked up as a column, a [KeyError] again. *)
Definition as_written (cols : list string) (rows : list (list string))
    : outcome DataFrame :=
  if bool_decide (length cols = foldr (fun row => Nat.max (length row)) 0%nat rows)
  then Raises "KeyError"
  else Raises "ValueError".

Definition config : request_info :=
  mk_req_info "http://stock" "http://list"
    {["klt" := PStr "101"]} {["pz" := PInt 50]} ["date"; "open"; "close"].

(** A server that answers a stock it does not know with [data] null. *)
Definition unknown_stock (url : string) (params : gmap string pyval) : outcome json :=
  Returns (JDict [("rc", JInt 0); ("data", JNull)]).

(** A server whose answer has no key [data]. *)
Definition without_data (url : string) (params : gmap string pyval) : outcome json :=
  Returns (JDict [("rc", JInt 102)]).

(** An answer that holds two klines. *)
Definition two_klines : json :=
  JDict [("data",
          JDict [("code", JStr "600000");
                 ("klines", JList [JStr "2024-01-02,10.1,10.4";
                                   JStr "2024-01-03,10.4,10.2"])])].

(** The statements of the threads run in the order [0; 1; 0; 0; 1; 1], the
    second thread assigning [secid] between the assignment and the request
    of the first. *)
Definition second_assigns_in_between : list nat := [0; 1; 0; 0; 1; 1]%nat.

Ltac Zify.zify_post_hook ::= Z.to_euclidean_division_equations.


(** * Properties *)

(** ** [heapq] keeps the heap order on priorities and loses no entry *)

Section HeapFacts.

Variable task_eq : each_task -> each_task -> bool.
Variable task_lt : each_task -> each_task -> bool.

Local Abbreviation entry_lt := (heapq.entry_lt task_eq task_lt).
Local Abbreviation _siftdown_loop := (heapq._siftdown_loop task_eq task_lt).
Local Abbreviation _siftup_loop := (heapq._siftup_loop task_eq task_lt).
Local Abbreviation heappush := (heapq.heappush task_eq task_lt).
Local Abbreviation heappop := (heapq.heappop task_eq task_lt).

Lemma entry_lt_true x y : entry_lt x y = true -> fst x <= fst y.
Proof.
  unfold heapq.entry_lt. destruct (Z.eqb_spec (fst x) (fst y)); [lia|].
  intros ?%Z.ltb_lt. lia.
Qed.

Lemma entry_lt_false x y : entry_lt x y = false -> fst y <= fst x.
Proof.
  unfold heapq.entry_lt. destruct (Z.eqb_spec (fst x) (fst y)); [lia|].
  intros ?%Z.ltb_ge. lia.
Qed.

Lemma hole_ok_insert h pos x : hole_ok h pos -> hole_ok (<[pos := x]> h) pos.
Proof.
  intros [H1 H2]. split.
  - intros i a b ? ? ?. rewrite !list_lookup_insert_ne by done. eauto.
  - intros c a b ? ? ?. rewrite !list_lookup_insert_ne by lia. eauto.
Qed.

(** Writing [x] into the hole gives a heap when [x] fits between the
    parent and the children of the hole. *)
Lemma fill_hole h pos x :
  hole_ok h pos -> below x h pos ->
  (forall y, (0 < pos)%nat -> h !! ((pos - 1) / 2)%nat = Some y -> fst y <= fst x) ->
  heap_ok (<[pos := x]> h).
Proof.
  intros [H1 H2] Hb Hp i a b Hi Ha Hb'.
  apply list_lookup_insert_Some in Ha as [(-> & -> & ?)|[? Ha]];
    apply list_lookup_insert_Some in Hb' as [(? & -> & ?)|[? Hb']].
  - lia.
  - eauto.
  - eapply Hb; eauto.
  - eapply H1; eauto.
Qed.

(** Moving the value of one slot into the hole moves the hole. *)
Lemma move_hole (h : list entry) i j x y :
  (i < length h)%nat -> i <> j -> h !! j = Some y ->
  <[j := x]> (<[i := y]> h) ≡ₚ <[i := x]> h.
Proof.
  intros Hi Hne Hj.
  rewrite <- (list_insert_insert_eq h i y x).
  apply Permutation_insert_swap.
  - rewrite list_lookup_insert_eq; [done|lia].
  - rewrite list_lookup_insert_ne; done.
Qed.

Lemma siftdown_loop_perm fuel : forall h startpos pos newitem,
  (pos < length h)%nat ->
  _siftdown_loop fuel h startpos pos newitem ≡ₚ <[pos := newitem]> h.
Proof.
  induction fuel as [|fuel IH]; intros h startpos pos newitem Hlen;
    cbn [heapq._siftdown_loop]; [done|].
  destruct (decide (startpos < pos)%nat) as [Hpos|Hpos]; [|done].
  destruct (h !! ((pos - 1) / 2)%nat) as [parent|] eqn:Hpar; [|done].
  destruct (entry_lt newitem parent); [|done].
  rewrite IH by (rewrite length_insert; lia).
  apply move_hole; auto. lia.
Qed.

Lemma siftdown_loop_ok fuel : forall h pos newitem,
  (pos <= fuel)%nat -> (pos < length h)%nat ->
  hole_ok h pos -> below newitem h pos ->
  heap_ok (_siftdown_loop fuel h 0 pos newitem).
Proof.
  induction fuel as [|fuel IH]; intros h pos newitem Hfuel Hlen Hh Hb;
    cbn [heapq._siftdown_loop].
  { apply fill_hole; auto. intros; lia. }
  destruct (decide (0 < pos)%nat) as [Hpos|Hpos];
    [|apply fill_hole; auto; intros; lia].
  destruct (h !! ((pos - 1) / 2)%nat) as [parent|] eqn:Hpar;
    [|apply lookup_ge_None in Hpar; lia].
  destruct (entry_lt newitem parent) eqn:Hlt.
  - apply entry_lt_true in Hlt. destruct Hh as [H1 H2].
    apply IH; [lia|rewrite length_insert; lia| |].
    + split.
      * intros i a b Hi Hne1 Hne2 Ha Hb'.
        apply list_lookup_insert_Some in Ha as [(<- & <- & ?)|[? Ha]]; [lia|].
        apply list_lookup_insert_Some in Hb' as [(Hpi & <- & ?)|[? Hb']].
        -- eapply (H2 i a parent); eauto.
        -- eapply H1; eauto.
      * intros c a b Hpp Hc Hcp Ha Hb'.
        rewrite list_lookup_insert_ne in Hb' by lia.
        assert (fst b <= fst parent).
        { eapply (H1 ((pos - 1) / 2)%nat parent b); eauto; lia. }
        apply list_lookup_insert_Some in Ha as [(<- & <- & ?)|[? Ha]]; [done|].
        assert (fst parent <= fst a); [|lia].
        rewrite <- Hcp in Hpar. eapply (H1 c a parent); eauto; lia.
    + intros c a Hc Hcp Ha.
      apply list_lookup_insert_Some in Ha as [(<- & <- & ?)|[? Ha]]; [done|].
      assert (fst parent <= fst a); [|lia].
      rewrite <- Hcp in Hpar. eapply (H1 c a parent); eauto; lia.
  - apply entry_lt_false in Hlt.
    apply fill_hole; auto. intros y _ Hy. simplify_eq. lia.
Qed.

(** The smaller child, as the loop of [_siftup] picks it. *)
Lemma smaller_child (h : list entry) pos c :
  h !! (2 * pos + 1)%nat = Some c ->
  exists childpos m,
    match h !! (2 * pos + 1 + 1)%nat with
    | Some r => if entry_lt c r then (2 * pos + 1)%nat else (2 * pos + 1 + 1)%nat
    | None => (2 * pos + 1)%nat
    end = childpos /\
    h !! childpos = Some m /\ (0 < childpos)%nat /\
    ((childpos - 1) / 2)%nat = pos /\
    forall s x, (0 < s)%nat -> ((s - 1) / 2)%nat = pos ->
      h !! s = Some x -> fst m <= fst x.
Proof.
  intros Hlc. destruct (h !! (2 * pos + 1 + 1)%nat) as [r|] eqn:Hr.
  - destruct (entry_lt c r) eqn:Hlt.
    + apply entry_lt_true in Hlt. exists (2 * pos + 1)%nat, c.
      split_and!; auto; try lia. intros s x Hs Hsp Hx.
      assert (s = (2 * pos + 1)%nat \/ s = (2 * pos + 1 + 1)%nat) as [->| ->] by lia;
        simplify_eq; lia.
    + apply entry_lt_false in Hlt. exists (2 * pos + 1 + 1)%nat, r.
      split_and!; auto; try lia. intros s x Hs Hsp Hx.
      assert (s = (2 * pos + 1)%nat \/ s = (2 * pos + 1 + 1)%nat) as [->| ->] by lia;
        simplify_eq; lia.
  - exists (2 * pos + 1)%nat, c. split_and!; auto; try lia.
    intros s x Hs Hsp Hx. apply lookup_ge_None in Hr.
    apply lookup_lt_Some in Hx as Hx'.
    assert (s = (2 * pos + 1)%nat) as -> by lia. simplify_eq; lia.
Qed.

(** The loop of [_siftup] ends on a leaf, by its test and not for want of
    fuel, and only moves the hole. *)
Lemma siftup_loop_perm fuel : forall h pos newitem,
  (length h <= fuel + pos)%nat -> (pos < length h)%nat ->
  exists h' leaf,
    _siftup_loop fuel h pos = (h', leaf) /\
    (leaf < length h')%nat /\ (length h' <= 2 * leaf + 1)%nat /\
    length h' = length h /\
    (<[leaf := newitem]> h' ≡ₚ <[pos := newitem]> h).
Proof.
  induction fuel as [|fuel IH]; intros h pos newitem Hfuel Hlen;
    cbn [heapq._siftup_loop].
  { exists h, pos. split_and!; auto; try done; lia. }
  destruct (decide (2 * pos + 1 < length h)%nat) as [Hc|Hc];
    [|exists h, pos; split_and!; auto; try done; lia].
  destruct (lookup_lt_is_Some_2 h (2 * pos + 1)%nat Hc) as [c Hlc].
  rewrite Hlc.
  destruct (smaller_child h pos c Hlc) as (childpos & m & -> & Hm & ? & ? & _).
  rewrite Hm. apply lookup_lt_Some in Hm as Hml.
  destruct (IH (<[pos := m]> h) childpos newitem)
    as (h' & leaf & Heq & ? & ? & Hl & Hp);
    [rewrite length_insert; lia..|].
  exists h', leaf. rewrite length_insert in Hl. split_and!; auto.
  rewrite Hp. apply move_hole; auto. lia.
Qed.

Lemma siftup_loop_ok fuel : forall h pos h' leaf,
  (pos < length h)%nat -> hole_ok h pos ->
  _siftup_loop fuel h pos = (h', leaf) -> hole_ok h' leaf.
Proof.
  induction fuel as [|fuel IH]; intros h pos h' leaf Hlen Hh;
    cbn [heapq._siftup_loop]; [by intros [= <- <-]|].
  destruct (decide (2 * pos + 1 < length h)%nat) as [Hc|Hc];
    [|by intros [= <- <-]].
  destruct (lookup_lt_is_Some_2 h (2 * pos + 1)%nat Hc) as [c Hlc].
  rewrite Hlc.
  destruct (smaller_child h pos c Hlc) as (childpos & m & -> & Hm & ? & Hcpp & Hmin).
  rewrite Hm. apply lookup_lt_Some in Hm as Hml.
  apply IH; [rewrite length_insert; lia|].
  destruct Hh as [H1 H2]. split.
  - intros i a b Hi Hne1 Hne2 Ha Hb.
    apply list_lookup_insert_Some in Ha as [(<- & <- & ?)|[? Ha]];
      apply list_lookup_insert_Some in Hb as [(Hpi & <- & ?)|[? Hb]].
    + lia.
    + eapply (H2 childpos); eauto.
    + eapply Hmin; eauto.
    + eapply H1; eauto.
  - intros s a b _ Hs Hsp Ha Hb.
    rewrite Hcpp in Hb. rewrite list_lookup_insert_eq in Hb by done.
    simplify_eq.
    rewrite list_lookup_insert_ne in Ha by lia.
    eapply (H1 s a b); eauto; first [lia|congruence].
Qed.

Lemma heappush_perm h e : heappush h e ≡ₚ e :: h.
Proof.
  unfold heapq.heappush, heapq._siftdown.
  rewrite length_app, Nat.add_sub. cbn [length].
  rewrite (lookup_app_r h [e]) by lia. rewrite Nat.sub_diag. cbn [lookup list_lookup].
  rewrite siftdown_loop_perm by (rewrite length_app; cbn; lia).
  rewrite list_insert_id; [by rewrite Permutation_app_comm|].
  rewrite lookup_app_r by lia. by rewrite Nat.sub_diag.
Qed.

Lemma heappush_ok h e : heap_ok h -> heap_ok (heappush h e).
Proof.
  intros Hh. unfold heapq.heappush, heapq._siftdown.
  rewrite length_app, Nat.add_sub. cbn [length].
  rewrite (lookup_app_r h [e]) by lia. rewrite Nat.sub_diag. cbn [lookup list_lookup].
  apply siftdown_loop_ok; [lia|rewrite length_app; cbn; lia| |].
  - split.
    + intros i a b Hi Hne1 Hne2 Ha Hb.
      apply lookup_lt_Some in Ha as Hl. rewrite length_app in Hl. cbn in Hl.
      rewrite lookup_app_l in Ha, Hb by lia. eauto.
    + intros c a b _ Hc Hcp Ha _.
      apply lookup_lt_Some in Ha as Hl. rewrite length_app in Hl. cbn in Hl. lia.
  - intros c a Hc Hcp Ha.
    apply lookup_lt_Some in Ha as Hl. rewrite length_app in Hl. cbn in Hl. lia.
Qed.

(** In a heap the first entry has the least priority. *)
Lemma heap_ok_root h r x : heap_ok h -> h !! 0%nat = Some r -> x ∈ h -> fst r <= fst x.
Proof.
  intros Hh Hr [i Hi]%list_elem_of_lookup. revert x Hi.
  induction (lt_wf i) as [i _ IH]. intros x Hi.
  destruct (decide (i = 0)%nat) as [->|Hne]; [simplify_eq; lia|].
  destruct (lookup_lt_is_Some_2 h ((i - 1) / 2)%nat) as [y Hy].
  { apply lookup_lt_Some in Hi. lia. }
  assert (fst r <= fst y) by (apply (IH ((i - 1) / 2)%nat); [lia|done]).
  assert (fst y <= fst x) by (apply (Hh i x y); [lia|done..]).
  lia.
Qed.

(** The shape of a successful [heappop]. *)
Lemma heappop_Some h e h' :
  heappop h = Some (e, h') ->
  (h = [e] /\ h' = []) \/
  exists rest lastelt,
    h = e :: rest ++ [lastelt] /\
    h' = heapq._siftup task_eq task_lt (lastelt :: rest) 0.
Proof.
  unfold heapq.heappop.
  destruct h as [|x h _] using rev_ind; [done|].
  rewrite last_snoc, removelast_last.
  destruct h as [|r rest]; intros [= <- <-]; [by left|].
  right. by exists rest, x.
Qed.

Lemma siftup_root_perm x rest :
  heapq._siftup task_eq task_lt (x :: rest) 0 ≡ₚ x :: rest.
Proof.
  unfold heapq._siftup. cbn [lookup list_lookup].
  destruct (siftup_loop_perm (length (x :: rest)) (x :: rest) 0 x)
    as (h1 & leaf & -> & Hleaf & _ & _ & Hp); [lia|cbn; lia|].
  unfold heapq._siftdown.
  rewrite list_lookup_insert_eq by done.
  rewrite siftdown_loop_perm by (rewrite length_insert; lia).
  by rewrite list_insert_insert_eq, Hp.
Qed.

Lemma heappop_perm h e h' : heappop h = Some (e, h') -> h ≡ₚ e :: h'.
Proof.
  intros [[-> ->]|(rest & lastelt & -> & ->)]%heappop_Some; [done|].
  rewrite siftup_root_perm. constructor. by rewrite Permutation_app_comm.
Qed.

Lemma heappop_ok h e h' : heap_ok h -> heappop h = Some (e, h') -> heap_ok h'.
Proof.
  intros Hh [[-> ->]|(rest & lastelt & -> & ->)]%heappop_Some.
  { intros i x y _ Hx. by destruct i. }
  unfold heapq._siftup. cbn [lookup list_lookup].
  destruct (siftup_loop_perm (length (lastelt :: rest)) (lastelt :: rest) 0 lastelt)
    as (h1 & leaf & Heq & Hleaf & Hnochild & _ & _); [lia|cbn; lia|].
  rewrite Heq. unfold heapq._siftdown.
  rewrite list_lookup_insert_eq by done.
  apply siftdown_loop_ok; [lia|rewrite length_insert; lia| |].
  - apply hole_ok_insert. eapply siftup_loop_ok; [| |exact Heq]; [cbn; lia|].
    split; [|intros; lia].
    intros i a b Hi Hne1 Hne2 Ha Hb.
    destruct i as [|i]; [lia|]. cbn in Ha.
    destruct ((S i - 1) / 2)%nat as [|j] eqn:Hj; [lia|]. cbn in Hb.
    apply (Hh (S i) a b); [lia|..].
    + cbn. by apply lookup_app_l_Some.
    + rewrite Hj. cbn. by apply lookup_app_l_Some.
  - intros c a Hc Hcp Ha. rewrite list_lookup_insert_ne in Ha by lia.
    apply lookup_lt_Some in Ha. lia.
Qed.

Lemma heappop_min h e h' x :
  heap_ok h -> heappop h = Some (e, h') -> x ∈ h -> fst e <= fst x.
Proof.
  intros Hh Hpop. apply heap_ok_root; [done|].
  by apply heappop_Some in Hpop as [[-> ->]|(rest & lastelt & -> & ->)].
Qed.

Lemma heappop_None h : heappop h = None -> h = [].
Proof.
  unfold heapq.heappop. destruct h as [|x h _] using rev_ind; [done|].
  rewrite last_snoc, removelast_last. by destruct h.
Qed.

Lemma heap_ok_nil : heap_ok [].
Proof. intros i x y _ Hx. by destruct i. Qed.

Lemma replay_ok ops : forall h, heap_ok h -> heap_ok (replay task_eq task_lt ops h).
Proof.
  induction ops as [|[e|] ops IH]; intros h Hh; cbn [replay]; [done|..].
  - apply IH. by apply heappush_ok.
  - destruct (heappop h) as [[e h']|] eqn:Hpop; [|by apply IH].
    apply IH. by eapply heappop_ok.
Qed.

(** Successive [get]s empty a heap in the order of the priorities. *)
Lemma drain_sorted fuel : forall h,
  heap_ok h -> (length h <= fuel)%nat ->
  drain task_eq task_lt fuel h ≡ₚ h /\
  StronglySorted (fun x y => fst x <= fst y) (drain task_eq task_lt fuel h).
Proof.
  induction fuel as [|fuel IH]; intros h Hh Hlen; cbn [drain].
  { destruct h; [split; [done|constructor]|cbn in Hlen; lia]. }
  destruct (heappop h) as [[e h']|] eqn:Hpop.
  - pose proof (heappop_perm _ _ _ Hpop) as Hp.
    destruct (IH h') as [Hp' Hs'].
    { by eapply heappop_ok. }
    { apply Permutation_length in Hp. cbn in Hp. lia. }
    split; [by rewrite Hp, Hp'|].
    constructor; [done|]. apply Forall_forall. intros x Hx.
    eapply heappop_min; [done..|].
    rewrite Hp. right. by rewrite <- Hp'.
  - apply heappop_None in Hpop as ->. split; [done|constructor].
Qed.

End HeapFacts.

(** ** The order in which the crawler queue hands out its entries *)

(** C4 (as amended): on a queue built from [PriorityQueue()] by any history
    of [put] and [get], a [get] returns an entry whose priority is least
    among the entries queued, and removes that entry alone; so of two queued
    entries with priorities [p1 < p2] the second is never returned while the
    first is queued, and successive [get]s return the queue in the order of
    the priorities. Nothing is said of entries of one priority: their order
    is that of the comparison of the tasks and of the layout of the heap. *)
Theorem priority_order (task_eq task_lt : each_task -> each_task -> bool)
    (ops : list queue_op) :
  let Q := replay task_eq task_lt ops [] in
  match heapq.heappop task_eq task_lt Q with
  | Some (e, Q') =>
      Q ≡ₚ e :: Q' /\
      (forall x, x ∈ Q -> fst e <= fst x) /\
      (forall e1 e2, e1 ∈ Q -> e2 ∈ Q -> fst e1 < fst e2 -> e <> e2 /\ e2 ∈ Q')
  | None => Q = []
  end /\
  drain task_eq task_lt (length Q) Q ≡ₚ Q /\
  StronglySorted (fun x y => fst x <= fst y) (drain task_eq task_lt (length Q) Q).
Proof.
  intros Q.
  assert (HQ : heap_ok Q) by apply replay_ok, heap_ok_nil.
  split; [|by apply drain_sorted].
  destruct (heapq.heappop task_eq task_lt Q) as [[e Q']|] eqn:Hpop;
    [|by apply heappop_None in Hpop].
  pose proof (heappop_perm _ _ _ _ _ Hpop) as Hp.
  assert (Hmin : forall x, x ∈ Q -> fst e <= fst x).
  { intros x Hx. by eapply heappop_min. }
  split_and!; [done..|].
  intros e1 e2 H1 H2 Hlt.
  assert (e <> e2) as Hne.
  { intros ->. specialize (Hmin e1 H1). lia. }
  split; [done|].
  rewrite Hp in H2. apply elem_of_cons in H2 as [->|]; done.
Qed.

(** C4 (as stated) fails: two [get_stock] tasks put at priority 0, as a
    fan-out puts them, come back in the other order when tasks compare field
    by field. *)
Lemma fifo_fails_on_two_stocks :
  let first := mk_task get_stock [PStr "1.600000"] 0 in
  let second := mk_task get_stock [PStr "0.000001"] 0 in
  NoDup [first; second] /\
  drain fieldwise_eq fieldwise_lt 2
    (replay fieldwise_eq fieldwise_lt [put (0, first); put (0, second)] [])
  = [(0, second); (0, first)] /\
  ~ fifo_among_equals fieldwise_eq fieldwise_lt.
Proof.
  intros first second.
  assert (Hnd : NoDup [first; second]).
  { apply NoDup_cons. split; [|apply NoDup_singleton].
    intros ?%list_elem_of_singleton. discriminate. }
  split; [done|]. split; [vm_compute; reflexivity|].
  intros Hfifo. specialize (Hfifo 0 [first; second] Hnd).
  vm_compute in Hfifo. discriminate.
Qed.

(** Whatever the comparison of tasks, entries of one priority do not come
    back first in, first out. *)
Section NoFifo.

Variable task_eq : each_task -> each_task -> bool.
Variable task_lt : each_task -> each_task -> bool.

Local Abbreviation lt x y := (if task_eq x y then false else task_lt x y).

Lemma entry_lt_same_prior p x y :
  heapq.entry_lt task_eq task_lt (p, x) (p, y) = lt x y.
Proof. unfold heapq.entry_lt. cbn [fst snd]. by rewrite Z.eqb_refl. Qed.

Lemma two_puts p x y :
  lt x y = true ->
  drain task_eq task_lt 2 (replay task_eq task_lt [put (p, y); put (p, x)] [])
  = [(p, x); (p, y)].
Proof.
  intros H. rewrite <- entry_lt_same_prior with (p := p) in H.
  cbv -[heapq.entry_lt]. rewrite H.
  cbv -[heapq.entry_lt]. reflexivity.
Qed.

Lemma four_puts p a b c d :
  lt b a = false -> lt c a = false -> lt d b = false ->
  lt b c = false -> lt d c = false ->
  drain task_eq task_lt 4
    (replay task_eq task_lt [put (p, a); put (p, b); put (p, c); put (p, d)] [])
  = [(p, a); (p, c); (p, b); (p, d)].
Proof.
  intros Hba Hca Hdb Hbc Hdc.
  rewrite <- entry_lt_same_prior with (p := p) in Hba, Hca, Hdb, Hbc, Hdc.
  repeat (cbv -[heapq.entry_lt]; rewrite ?Hba, ?Hca, ?Hdb, ?Hbc, ?Hdc).
  reflexivity.
Qed.

Lemma no_comparison_gives_fifo : ~ fifo_among_equals task_eq task_lt.
Proof.
  intros Hfifo.
  set (t := fun s => mk_task get_stock [PStr s] 0).
  assert (Hpair : forall x y, x <> y -> lt x y = false).
  { intros x y Hne. destruct (lt x y) eqn:Hlt; [|done].
    assert (NoDup [y; x]) as Hnd.
    { apply NoDup_cons. split; [|apply NoDup_singleton].
      intros ?%list_elem_of_singleton. congruence. }
    specialize (Hfifo 0 [y; x] Hnd). cbn [length map] in Hfifo.
    rewrite (two_puts 0 x y Hlt) in Hfifo. congruence. }
  assert (NoDup [t "a"; t "b"; t "c"; t "d"]) as Hnd.
  { apply (bool_decide_unpack _). by vm_compute. }
  specialize (Hfifo 0 _ Hnd). cbn [length map] in Hfifo.
  rewrite four_puts in Hfifo by (apply Hpair; discriminate).
  discriminate.
Qed.

End NoFifo.

(** ** Runs of operations by one thread *)

Section ExecFacts.

Variable task_eq : each_task -> each_task -> bool.
Variable task_lt : each_task -> each_task -> bool.

Local Abbreviation exec_all := (exec_all task_eq task_lt).

Lemma exec_all_app tid a b s :
  exec_all tid (a ++ b) s
  = match exec_all tid a s with
    | Some s' => exec_all tid b s'
    | None => None
    end.
Proof.
  revert s. induction a as [|x a IH]; intros s; cbn; [done|].
  destruct (exec task_eq task_lt tid x s); [apply IH|done].
Qed.

(** A run of [put]s on the crawler queue adds the entries and nothing
    else. *)
Lemma exec_all_puts tid es : forall s,
  exists heap,
    exec_all tid (map crawler_put es) s
    = Some (mk_state heap (writer s) (other s) (total s) (n s) (PBAR_LOCK s) (log s))
    /\ heap ≡ₚ es ++ crawler s.
Proof.
  induction es as [|e es IH]; intros s; cbn.
  { exists (crawler s). by destruct s. }
  destruct (IH (mk_state (heapq.heappush task_eq task_lt (crawler s) e) (writer s)
                  (other s) (total s) (n s) (PBAR_LOCK s) (log s)))
    as (heap & -> & Hp).
  exists heap. split; [done|]. cbn in Hp.
  rewrite Hp, heappush_perm. by rewrite Permutation_middle.
Qed.

End ExecFacts.

(** ** One turn of [do_task] *)

Section TurnFacts.

Variable max_retry : Z.
Variable format_save_fp : string -> outcome string.

Local Abbreviation do_task_iter := (do_task_iter max_retry format_save_fp).
Local Abbreviation turns_of := (attempts max_retry format_save_fp).

(** A turn whose call answers [None]: the task counts one more try and
    the retry policy decides. *)
Lemma failing_turn prior task :
  do_task_iter prior task (Returns None)
  = mk_iteration (bump task) (retry max_retry prior (bump task)) false.
Proof. reflexivity. Qed.

Lemma retry_gives_up prior task :
  tries task >= max_retry ->
  retry max_retry prior task
  = [logging (error "%s(%s) fails %d times. Stop retrying!"
                [LStr (method_name (func task)); LArgs (args task); LInt max_retry])].
Proof. intros H. unfold retry. destruct (Z.geb_spec (tries task) max_retry); [done|lia]. Qed.

Lemma retry_requeues prior task :
  tries task < max_retry ->
  retry max_retry prior task
  = [logging (warning "%s(%s) fails %d times. Continue retrying..."
                [LStr (method_name (func task)); LArgs (args task); LInt (tries task)]);
     crawler_put (prior + 2, task)].
Proof. intros H. unfold retry. destruct (Z.geb_spec (tries task) max_retry); [lia|done]. Qed.

Lemma attempts_spec fuel : forall prior task,
  (Z.to_nat (Z.max 1 (max_retry - tries task)) <= fuel)%nat ->
  length (turns_of fuel prior task) = Z.to_nat (Z.max 1 (max_retry - tries task)) /\
  forall k it, turns_of fuel prior task !! k = Some it ->
    task_after it = mk_task (func task) (args task) (tries task + Z.of_nat k + 1) /\
    effects it = retry max_retry (prior + 2 * Z.of_nat k) (task_after it).
Proof.
  induction fuel as [|fuel IH]; intros prior task Hfuel; [lia|].
  cbn [attempts]. rewrite failing_turn. cbn [effects].
  assert (Hhead : forall it, Some (mk_iteration (bump task)
                                     (retry max_retry prior (bump task)) false)
                             = Some it ->
            task_after it = mk_task (func task) (args task) (tries task + Z.of_nat 0 + 1) /\
            effects it = retry max_retry (prior + 2 * Z.of_nat 0) (task_after it)).
  { intros it [= <-]. cbn [task_after effects]. unfold bump.
    split; [f_equal; lia|]. f_equal. lia. }
  destruct (decide (tries task + 1 < max_retry)) as [Hlt|Hge].
  - assert (requeued (retry max_retry prior (bump task))
            = Some (prior + 2, bump task)) as ->
      by (by rewrite retry_requeues).
    destruct (IH (prior + 2) (bump task)) as [Hlen Hturns]; [cbn [tries bump]; lia|].
    split; [cbn [length]; rewrite Hlen; cbn [tries bump]; lia|].
    intros [|k] it Hk; [by apply Hhead|].
    destruct (Hturns k it Hk) as [-> ->]. cbn [func args tries bump task_after].
    split; [f_equal; lia|]. f_equal. lia.
  - assert (requeued (retry max_retry prior (bump task)) = None) as ->
      by (rewrite retry_gives_up; [done|cbn [tries bump]; lia]).
    split; [cbn [length]; lia|].
    intros [|k] it Hk; [by apply Hhead|done].
Qed.

End TurnFacts.

(** The operations of a turn through the [get_list] branch, the handler of
    the [TypeError] or [IndexError] of line 104 with them; the turn stays in
    the loop. *)
Lemma handled_fan_out (task_at : each_task) (task : each_task) (result : list string) :
  effects (handled task_at (fan_out task result))
  = match result with
    | [] => []
    | _ =>
        [acquire; total_add (Z.of_nat (length result)); refresh; release]
        ++ map (fun stk_id => crawler_put (0, mk_task get_stock [PStr stk_id] 0)) result
        ++ match args task with
           | PInt page_num :: _ =>
               [crawler_put (1, mk_task get_list [PInt (page_num + 1)] 0)]
           | PStr _ :: _ => caught "TypeError" task_at
           | [] => caught "IndexError" task_at
           end
    end /\
  breaks (handled task_at (fan_out task result)) = false.
Proof.
  unfold fan_out, handled. destruct result as [|stk_id result]; [done|].
  destruct (args task) as [|[?|?] ?]; cbn [raised performed effects breaks];
    try change (is_Empty "TypeError") with false;
    try change (is_Empty "IndexError") with false;
    cbn [effects breaks]; by rewrite <- ?app_assoc.
Qed.

(** The operations of a turn through the [get_stock] branch, and whether
    it leaves the loop. *)
Lemma handled_forward (format_save_fp : string -> outcome string)
    (task_at : each_task) (task : each_task) (result : DataFrame) :
  effects (handled task_at (forward format_save_fp task result))
  = match args task with
    | PStr stock_id :: _ =>
        match format_save_fp (slice_from 2 stock_id) with
        | Returns save_fp => [writer_put result save_fp]
        | Raises exc => if is_Empty exc then [] else caught exc task_at
        end
    | PInt _ :: _ => caught "TypeError" task_at
    | [] => caught "IndexError" task_at
    end /\
  breaks (handled task_at (forward format_save_fp task result))
  = match args task with
    | PStr stock_id :: _ =>
        match format_save_fp (slice_from 2 stock_id) with
        | Returns _ => false
        | Raises exc => is_Empty exc
        end
    | _ => false
    end.
Proof.
  unfold forward, handled. destruct (args task) as [|[?|?] ?]; try done.
  destruct (format_save_fp _) as [?|exc]; [done|].
  cbn [raised performed]. by destruct (is_Empty exc).
Qed.

(** A turn that leaves the loop has done nothing to the shared objects. *)
Lemma breaks_effects (max_retry : Z) (format_save_fp : string -> outcome string)
    (prior : Z) (task : each_task) (o : call_outcome (func task)) :
  breaks (do_task_iter max_retry format_save_fp prior task o) = true ->
  effects (do_task_iter max_retry format_save_fp prior task o) = [].
Proof.
  destruct task as [f a t]. cbn [func] in o.
  destruct o as [[result|]|exc]; cbn [do_task_iter].
  - unfold bump. destruct f; cbn [dispatch func].
    + by rewrite (proj2 (handled_fan_out _ _ _)).
    + rewrite (proj1 (handled_forward _ _ _ _)), (proj2 (handled_forward _ _ _ _)).
      cbn [args]. destruct a as [|[?|?] ?]; try done.
      destruct (format_save_fp _) as [?|exc]; [done|]. by intros ->.
  - done.
  - unfold handled. cbn [raised performed]. by destruct (is_Empty exc).
Qed.

Lemma guarded_stock_puts held (result : list string) rest :
  guarded held
    (map (fun stk_id => crawler_put (0, mk_task get_stock [PStr stk_id] 0)) result
     ++ rest)
  = guarded held rest.
Proof. induction result as [|stk_id result IH]; [done|]. exact IH. Qed.

(** A turn of [do_task] writes to the bar only inside [with PBAR_LOCK]. *)
Lemma do_task_iter_guarded (max_retry : Z) (format_save_fp : string -> outcome string)
    (prior : Z) (task : each_task) (o : call_outcome (func task)) :
  guarded false (effects (do_task_iter max_retry format_save_fp prior task o)) = true.
Proof.
  destruct task as [f a t]. cbn [func] in o.
  destruct o as [[result|]|exc]; cbn [do_task_iter].
  - unfold bump. destruct f; cbn [dispatch func].
    + rewrite (proj1 (handled_fan_out _ _ _)). cbn [args].
      destruct result as [|stk_id result]; [done|].
      cbn [app guarded andb]. rewrite guarded_stock_puts.
      by destruct a as [|[?|?] ?].
    + rewrite (proj1 (handled_forward _ _ _ _)). cbn [args].
      destruct a as [|[?|?] ?]; try done.
      destruct (format_save_fp _) as [?|exc]; [done|]. by destruct (is_Empty exc).
  - cbn [handled raised performed effects]. unfold retry. by destruct (_ >=? _).
  - unfold handled. cbn [raised performed]. by destruct (is_Empty exc).
Qed.

(** C1 (as amended): a task that has not been tried and whose call answers
    [None] every time is taken [max(1, max_retry)] times, which is
    [max_retry] times whenever [max_retry >= 1]. The turn numbered [k]
    (from 0) leaves the task with [k + 1] tries; when that reaches
    [max_retry] the turn logs one record of error severity and puts nothing
    on any queue, otherwise it logs a warning and puts the task back, two
    priority levels down. *)
Theorem retry_exhaustion (max_retry : Z) (format_save_fp : string -> outcome string)
    (fuel : nat) (prior : Z) (task : each_task) :
  tries task = 0 ->
  (Z.to_nat (Z.max 1 max_retry) <= fuel)%nat ->
  let turns := attempts max_retry format_save_fp fuel prior task in
  length turns = Z.to_nat (Z.max 1 max_retry) /\
  forall k it, turns !! k = Some it ->
    task_after it = mk_task (func task) (args task) (Z.of_nat k + 1) /\
    effects it =
      if Z.of_nat k + 1 >=? max_retry then
        [logging (error "%s(%s) fails %d times. Stop retrying!"
                    [LStr (method_name (func task)); LArgs (args task);
                     LInt max_retry])]
      else
        [logging (warning "%s(%s) fails %d times. Continue retrying..."
                    [LStr (method_name (func task)); LArgs (args task);
                     LInt (Z.of_nat k + 1)]);
         crawler_put (prior + 2 * Z.of_nat k + 2, task_after it)].
Proof.
  intros Hfresh Hfuel turns.
  destruct (attempts_spec max_retry format_save_fp fuel prior task) as [Hlen Hturns].
  { rewrite Hfresh, Z.sub_0_r. done. }
  rewrite Hfresh, Z.sub_0_r in Hlen. split; [done|].
  intros k it Hk. destruct (Hturns k it Hk) as [Hafter Heff].
  rewrite Hfresh, Z.add_0_l in Hafter. split; [done|].
  rewrite Heff, Hafter. unfold retry. cbn [func args tries]. done.
Qed.

Lemma retry_exhaustion_witness :
  length (attempts 3 data_csv 3 1 (mk_task get_stock [PStr "1.600000"] 0)) = 3%nat.
Proof.
  destruct (retry_exhaustion 3 data_csv 3 1 (mk_task get_stock [PStr "1.600000"] 0))
    as [Hlen _]; [reflexivity|vm_compute; lia|exact Hlen].
Defined.

(** C1 (as stated) fails for a limit of zero retries: the task is taken
    once, not zero times. *)
Lemma zero_retries_still_one_attempt :
  length (attempts 0 data_csv 5 1 (mk_task get_stock [PStr "1.600000"] 0)) = 1%nat /\
  length (attempts 0 data_csv 5 1 (mk_task get_stock [PStr "1.600000"] 0))
  <> Z.to_nat 0.
Proof. split; [reflexivity|discriminate]. Qed.

(** C2: a turn on a [get_list] task for page [page_num] whose call returns
    a non-empty list of [K] stock codes takes the lock, adds [K] to
    [total], releases the lock, then puts one fresh [get_stock] task per
    code at priority 0 and one [get_list] task for [page_num + 1] at
    priority 1, and does nothing else; run from a state where the lock is
    free, it leaves [total] larger by [K], [n] and the writer queue
    untouched, and the crawler queue larger by exactly these [K + 1]
    entries. *)
Theorem fan_out_correct (task_eq task_lt : each_task -> each_task -> bool)
    (max_retry : Z) (format_save_fp : string -> outcome string)
    (prior page_num : Z) (more : list pyval) (tries0 : Z) (result : list string)
    (tid : nat) (s : state) :
  result <> [] ->
  PBAR_LOCK s = None ->
  let task := mk_task get_list (PInt page_num :: more) tries0 in
  let it := do_task_iter max_retry format_save_fp prior task (Returns (Some result)) in
  let stocks := map (fun stk_id => (0, mk_task get_stock [PStr stk_id] 0)) result in
  let next_page := (1, mk_task get_list [PInt (page_num + 1)] 0) in
  effects it
  = [acquire; total_add (Z.of_nat (length result)); refresh; release]
    ++ map crawler_put stocks ++ [crawler_put next_page] /\
  exists s',
    exec_all task_eq task_lt tid (effects it) s = Some s' /\
    total s' = total s + Z.of_nat (length result) /\
    n s' = n s /\
    crawler s' ≡ₚ stocks ++ next_page :: crawler s /\
    writer s' = writer s /\
    PBAR_LOCK s' = None.
Proof.
  intros Hne Hfree task it stocks next_page.
  assert (Heff : effects it
                 = [acquire; total_add (Z.of_nat (length result)); refresh; release]
                   ++ map crawler_put stocks ++ [crawler_put next_page]).
  { subst it task stocks. cbn [do_task_iter effects dispatch func bump].
    unfold fan_out. cbn [args]. destruct result; [done|].
    by rewrite map_map. }
  split; [done|]. rewrite Heff.
  cbn [app exec_all exec]. rewrite Hfree. cbn [PBAR_LOCK crawler writer other total n log].
  rewrite exec_all_app.
  edestruct (exec_all_puts task_eq task_lt tid stocks) as (heap & -> & Hp).
  cbn [exec_all exec crawler writer other total n PBAR_LOCK log].
  eexists. split; [done|]. cbn [crawler writer other total n PBAR_LOCK log].
  split_and!; try done.
  rewrite heappush_perm. cbn [crawler] in Hp. rewrite Hp.
  by rewrite Permutation_middle.
Qed.

Lemma fan_out_correct_witness :
  exists s',
    exec_all fieldwise_eq fieldwise_lt 0
      (effects (do_task_iter 3 data_csv 1 (mk_task get_list [PInt 0] 0)
                  (Returns (Some ["1.600000"; "0.000001"])))) init
    = Some s' /\ total s' = 2.
Proof.
  destruct (fan_out_correct fieldwise_eq fieldwise_lt 3 data_csv 1 0 [] 0
              ["1.600000"; "0.000001"] 0%nat init)
    as (_ & s' & Hrun & Htotal & _); [discriminate|reflexivity|].
  exists s'. split; [exact Hrun|exact Htotal].
Defined.

(** C10: every task a turn on a [get_list] task puts on the crawler queue
    after its call returned a list, whether a [get_stock] task or the task
    of the next page, has [tries = 0], whatever the tries of the task that
    was taken. *)
Theorem fan_out_tasks_are_fresh (max_retry : Z)
    (format_save_fp : string -> outcome string) (prior : Z)
    (args0 : list pyval) (tries0 : Z) (result : list string) (e : entry) :
  crawler_put e ∈ effects (do_task_iter max_retry format_save_fp prior
                             (mk_task get_list args0 tries0)
                             (Returns (Some result))) ->
  tries (snd e) = 0.
Proof.
  cbn [do_task_iter dispatch func bump]. rewrite (proj1 (handled_fan_out _ _ _)).
  cbn [args].
  destruct result as [|stk_id result]; [by intros ?%elem_of_nil|].
  rewrite !elem_of_app. intros [Hin|[Hin|Hin]].
  - repeat (apply elem_of_cons in Hin as [?|Hin]; [discriminate|]).
    by apply elem_of_nil in Hin.
  - apply list_elem_of_fmap in Hin as (x & [= ->] & _). done.
  - destruct args0 as [|[page_num|?] ?]; unfold caught in Hin;
      repeat (apply elem_of_cons in Hin as [Heq|Hin]; [by simplify_eq|]);
      by apply elem_of_nil in Hin.
Qed.

Lemma fan_out_tasks_are_fresh_witness :
  tries (snd (1, mk_task get_list [PInt 8] 0)) = 0.
Proof.
  apply (fan_out_tasks_are_fresh 3 data_csv 5 [PInt 7] 2 ["1.600000"]).
  vm_compute. do 5 right. left.
Defined.

(** C9: the entry the retry policy puts back holds the task that was
    taken, with the same method and the same arguments and one more try, at
    the priority it was taken at plus two. *)
Theorem requeue_frame (max_retry : Z) (format_save_fp : string -> outcome string)
    (prior : Z) (task : each_task) (e : entry) :
  let it := do_task_iter max_retry format_save_fp prior task (Returns None) in
  requeued (effects it) = Some e ->
  fst e = prior + 2 /\
  snd e = task_after it /\
  func (snd e) = func task /\
  args (snd e) = args task /\
  tries (snd e) = tries task + 1.
Proof.
  intros it. subst it. rewrite failing_turn. cbn [effects task_after].
  unfold retry. destruct (_ >=? _); cbn [requeued]; [done|].
  intros [= <-]. done.
Qed.

Lemma requeue_frame_witness :
  snd (1 + 2, mk_task get_list [PInt 4] 1) = mk_task get_list [PInt 4] 1.
Proof.
  destruct (requeue_frame 3 data_csv 1 (mk_task get_list [PInt 4] 0)
              (1 + 2, mk_task get_list [PInt 4] 1))
    as (_ & Hsame & _); [reflexivity|exact Hsame].
Defined.

(** C8 (as amended): when the call of the task a crawler has taken raises
    an exception other than [Empty], the turn leaves the task as it was
    taken (its tries are not counted up), logs the exception and then, at
    error severity, the name of the method and the arguments, puts nothing
    back on the crawler queue, and the thread stays in the loop. An [Empty]
    raised by the call is taken by [except Empty] of line 110: the task is
    left as it was taken and nothing is put back, but nothing is logged
    and the thread leaves the loop for the epilogue of line 118. *)
Theorem raised_call_is_logged (task_eq task_lt : each_task -> each_task -> bool)
    (max_retry : Z) (format_save_fp : string -> outcome string)
    (i : nat) (call : forall f, call_outcome f) (s : state)
    (prior : Z) (task : each_task) (heap : list entry) (exc : string) :
  heapq.heappop task_eq task_lt (crawler s) = Some ((prior, task), heap) ->
  call (func task) = Raises exc ->
  let it := do_task_iter max_retry format_save_fp prior task (Raises exc) in
  let s1 := mk_state heap (writer s) (other s) (total s) (n s) (PBAR_LOCK s) (log s) in
  task_after it = task /\
  requeued (effects it) = None /\
  (exc <> "Empty" ->
   effects it = [logging (exception exc);
                 logging (error "%s(%s)"
                            [LStr (method_name (func task)); LArgs (args task)])] /\
   levelname (exception exc) = ERROR /\
   breaks it = false /\
   crawler_step task_eq task_lt max_retry format_save_fp i call (in_loop []) s
   = Some (in_loop (effects it), s1, [crawled prior task (Raises exc)]) /\
   exec_all task_eq task_lt i (effects it) s1
   = Some (mk_state heap (writer s) (other s) (total s) (n s) (PBAR_LOCK s)
             (log s ++ [exception exc;
                        error "%s(%s)"
                          [LStr (method_name (func task)); LArgs (args task)]]))) /\
  (exc = "Empty" ->
   effects it = [] /\
   breaks it = true /\
   crawler_step task_eq task_lt max_retry format_save_fp i call (in_loop []) s
   = Some (leaving [other_get;
                    logging (info "Crawler Thread %d stopped." [LInt (Z.of_nat i)])],
           s1, [crawled prior task (Raises exc)])).
Proof.
  intros Hpop Hcall it s1. subst it s1. cbn [do_task_iter]. unfold handled.
  cbn [raised performed]. unfold is_Empty.
  destruct (bool_decide_reflect (exc = "Empty")) as [->|Hexc];
    cbn [task_after effects breaks app].
  - split_and!; try done. intros _. split_and!; try done.
    cbn [crawler_step]. rewrite Hpop, Hcall. cbn [do_task_iter]. unfold handled.
    cbn [raised performed]. change (is_Empty "Empty") with true.
    unfold do_task_next. by cbn [breaks effects app].
  - split_and!; try done. intros _. split_and!; try done.
    + cbn [crawler_step]. rewrite Hpop, Hcall. cbn [do_task_iter]. unfold handled.
      cbn [raised performed]. unfold is_Empty.
      rewrite (bool_decide_eq_false_2 _ Hexc). unfold do_task_next.
      by cbn [breaks effects app].
    + unfold caught. cbn [exec_all exec crawler writer other total n PBAR_LOCK log].
      by rewrite <- app_assoc.
Qed.

Lemma raised_call_is_logged_witness :
  requeued (effects (do_task_iter 3 data_csv 0
                       (mk_task get_stock [PStr "1.600000"] 0)
                       (Raises "ConnectionError"))) = None.
Proof.
  destruct (raised_call_is_logged fieldwise_eq fieldwise_lt 3 data_csv 0
              (raising "ConnectionError")
              (mk_state [(0, mk_task get_stock [PStr "1.600000"] 0)] [] [0%nat] 1 0 None [])
              0 (mk_task get_stock [PStr "1.600000"] 0) [] "ConnectionError")
    as (_ & Hnone & _); [reflexivity|reflexivity|exact Hnone].
Defined.

(** C8 (as stated) fails for the exception [Empty]: raised by the call of
    the task, it is not logged, and the thread does not stay in the loop:
    it deregisters and returns, with the stock still counted in [total]
    and nothing but the two lines of the thread itself in the log. *)
Lemma empty_from_the_call_ends_the_loop :
  effects (do_task_iter 3 data_csv 0 (mk_task get_stock [PStr "1.600000"] 0)
             (Raises "Empty")) = [] /\
  run fieldwise_eq fieldwise_lt 3 data_csv
    (replicate 5 (crawler_moves 0 (raising "Empty")))
    (mk_system
       (mk_state [(0, mk_task get_stock [PStr "1.600000"] 0)] [] [] 1 0 None [])
       [in_loop [other_put 0%nat;
                 logging (info "Crawler Thread %d starts..." [LInt 0])]]
       (w_in_loop []) false [])
  = Some (mk_system
            (mk_state [] [] [] 1 0 None
               [info "Crawler Thread %d starts..." [LInt 0];
                info "Crawler Thread %d stopped." [LInt 0]])
            [leaving []] (w_in_loop []) false
            [crawled 0 (mk_task get_stock [PStr "1.600000"] 0) (Raises "Empty")]).
Proof. split; reflexivity. Qed.

(** ** One turn of [write_result] *)

(** C6: for a pair the writer has taken, run from a state where the lock is
    free: an empty frame lowers [total] by one and leaves [n]; a frame with
    rows that [write] reports written raises [n] by one and leaves [total];
    a frame with rows that [write] reports not written changes neither; and
    every change of the bar is made with the lock held. *)
Theorem write_result_accounting (task_eq task_lt : each_task -> each_task -> bool)
    (tid : nat) (result : DataFrame) (save_fp : string) (w : outcome bool)
    (s : state) :
  PBAR_LOCK s = None ->
  let acts := write_result_iter result save_fp w in
  guarded false acts = true /\
  exists s',
    exec_all task_eq task_lt tid acts s = Some s' /\
    PBAR_LOCK s' = None /\
    match empty result, w with
    | true, _ => total s' = total s - 1 /\ n s' = n s
    | false, Returns true => total s' = total s /\ n s' = n s + 1
    | false, Returns false => total s' = total s /\ n s' = n s
    | false, Raises _ => total s' = total s /\ n s' = n s
    end.
Proof.
  intros Hfree acts. subst acts. unfold write_result_iter.
  destruct (empty result); [|destruct w as [[|]|exc]; [| |destruct (is_Empty exc)]];
    (split; [reflexivity|]);
    cbn [exec_all exec]; rewrite ?Hfree;
    eexists; (split; [reflexivity|]); cbn; split; try done; lia.
Qed.

Lemma write_result_accounting_witness :
  exists s',
    exec_all fieldwise_eq fieldwise_lt 1
      (write_result_iter (mk_frame ["date"] []) "./data/600000.csv" (Returns true))
      (mk_state [] [] [] 1 0 None [])
    = Some s' /\ total s' = 0 /\ n s' = 0.
Proof.
  destruct (write_result_accounting fieldwise_eq fieldwise_lt 1
              (mk_frame ["date"] []) "./data/600000.csv" (Returns true)
              (mk_state [] [] [] 1 0 None []))
    as (_ & s' & Hrun & _ & Htotal & Hn); [reflexivity|].
  exists s'. split; [exact Hrun|]. split; [exact Htotal|exact Hn].
Defined.

(** C7 (as amended): the writer passes the [break] exactly from the
    handler of [Empty] with the registry of crawlers empty, and there it
    does: it logs that it stopped and returns. With a crawler still
    registered it goes back to the [get]. It is in that handler after a
    [get] on an empty writer queue and after a [write] that raised [Empty]
    on a frame with rows, and at no other time. When [write] raises any
    other exception on a frame with rows, the turn logs the exception, at
    error severity with the traceback, and the thread is back at the
    [get]. *)
Theorem writer_stops_iff (task_eq task_lt : each_task -> each_task -> bool)
    (tid : nat) (w : outcome bool) (s : state) :
  (forall t t' s' evs,
     writer_step task_eq task_lt tid w t s = Some (t', s', evs) ->
     (w_broke t = false /\ w_broke t' = true <-> t = w_timed_out /\ other s = []) /\
     (t' = w_timed_out
      <-> t = w_in_loop [] /\
          (writer s = [] \/
           exists result save_fp rest,
             writer s = (result, save_fp) :: rest /\ empty result = false /\
             w = Raises "Empty"))) /\
  (other s = [] ->
   writer_step task_eq task_lt tid w w_timed_out s
   = Some (w_leaving [logging (info "Writer Thread %d stopped" [LInt (Z.of_nat tid)])],
           s, []) /\
   run_writer task_eq task_lt tid w 2 w_timed_out s
   = Some (w_leaving [],
           mk_state (crawler s) (writer s) (other s) (total s) (n s) (PBAR_LOCK s)
             (log s ++ [info "Writer Thread %d stopped" [LInt (Z.of_nat tid)]]))) /\
  (other s <> [] ->
   writer_step task_eq task_lt tid w w_timed_out s = Some (w_in_loop [], s, [])) /\
  (writer s = [] ->
   writer_step task_eq task_lt tid w (w_in_loop []) s = Some (w_timed_out, s, [])) /\
  (forall result save_fp rest exc,
     writer s = (result, save_fp) :: rest -> empty result = false ->
     w = Raises exc ->
     let s1 := mk_state (crawler s) rest (other s) (total s) (n s) (PBAR_LOCK s)
                 (log s) in
     (exc <> "Empty" ->
      writer_step task_eq task_lt tid w (w_in_loop []) s
      = Some (w_in_loop [logging (exception exc)], s1, [wrote result save_fp w]) /\
      run_writer task_eq task_lt tid w 2 (w_in_loop []) s
      = Some (w_in_loop [],
              mk_state (crawler s) rest (other s) (total s) (n s) (PBAR_LOCK s)
                (log s ++ [mk_log ERROR exc [] true]))) /\
     (exc = "Empty" ->
      writer_step task_eq task_lt tid w (w_in_loop []) s
      = Some (w_timed_out, s1, [wrote result save_fp w]))).
Proof.
  split_and!.
  - intros t t' s' evs Hstep.
    destruct t as [[|a pending]| |[|a pending]]; cbn [writer_step] in Hstep.
    + destruct (writer s) as [|[result save_fp] rest] eqn:Hw; simplify_eq.
      * split; [cbn; intuition congruence|].
        split; [intros _; split; [done|by left]|done].
      * split; [|].
        { unfold write_result_next. destruct w as [?|exc]; [cbn; intuition congruence|].
          destruct (negb (empty result) && is_Empty exc); cbn; intuition congruence. }
        unfold write_result_next. destruct w as [b|exc].
        { split; [done|]. by intros [_ [?|(? & ? & ? & _ & _ & ?)]]. }
        destruct (empty result) eqn:Hempty; cbn [negb andb].
        { split; [done|]. intros [_ [?|(? & ? & ? & [= <- <- <-] & ? & _)]]; congruence. }
        unfold is_Empty. destruct (bool_decide_reflect (exc = "Empty")) as [->|Hexc].
        { split; [intros _|done]. split; [done|]. right. by exists result, save_fp, rest. }
        split; [done|]. intros [_ [?|(? & ? & ? & _ & _ & [= ?])]]; congruence.
    + destruct (exec task_eq task_lt tid a s); simplify_eq.
      split; cbn; intuition congruence.
    + destruct (other s) eqn:Ho; simplify_eq; split; cbn; intuition congruence.
    + done.
    + destruct (exec task_eq task_lt tid a s); simplify_eq.
      split; cbn; intuition congruence.
  - intros Ho. cbn [run_writer writer_step]. rewrite Ho. split; [done|].
    cbn [writer_step exec crawler writer other total n PBAR_LOCK log].
    by rewrite Ho.
  - intros Ho. cbn [writer_step]. by destruct (other s).
  - intros Hw. cbn [writer_step]. by rewrite Hw.
  - intros result save_fp rest exc Hw Hempty -> s1. split.
    + intros Hexc. cbn [run_writer writer_step]. rewrite Hw.
      unfold write_result_next, write_result_iter, is_Empty.
      rewrite Hempty, (bool_decide_eq_false_2 _ Hexc). cbn [negb andb].
      split; [done|]. by cbn [exec crawler writer other total n PBAR_LOCK log].
    + intros ->. cbn [writer_step]. rewrite Hw.
      unfold write_result_next. rewrite Hempty. done.
Qed.

Lemma writer_stops_iff_witness :
  run_writer fieldwise_eq fieldwise_lt 1 (Raises "OSError") 2 (w_in_loop [])
    (mk_state [] [(mk_frame ["date"] [["2024-01-02"]], "./data/600000.csv")]
       [0%nat] 1 0 None [])
  = Some (w_in_loop [],
          mk_state [] [] [0%nat] 1 0 None [mk_log ERROR "OSError" [] true]).
Proof.
  destruct (writer_stops_iff fieldwise_eq fieldwise_lt 1 (Raises "OSError")
              (mk_state [] [(mk_frame ["date"] [["2024-01-02"]], "./data/600000.csv")]
                 [0%nat] 1 0 None []))
    as (_ & _ & _ & _ & Hraise).
  destruct (Hraise (mk_frame ["date"] [["2024-01-02"]]) "./data/600000.csv" []
              "OSError" eq_refl eq_refl eq_refl) as [Hlogged _].
  destruct Hlogged as [_ Hrun]; [discriminate|exact Hrun].
Defined.

(** C7 (as stated) fails when [write] raises [Empty]: with no crawler
    registered the writer stops although no [get] timed out (the frame was
    on the queue), and the exception is not logged. *)
Lemma empty_from_write_stops_the_writer :
  run_writer fieldwise_eq fieldwise_lt 1 (Raises "Empty") 3 (w_in_loop [])
    (mk_state [] [(mk_frame ["date"] [["2024-01-02"]], "./data/600000.csv")]
       [] 1 0 None [])
  = Some (w_leaving [],
          mk_state [] [] [] 1 0 None [info "Writer Thread %d stopped" [LInt 1]]).
Proof. reflexivity. Qed.

(** ** The books of a run *)

Section Accounting.

Variable task_eq : each_task -> each_task -> bool.
Variable task_lt : each_task -> each_task -> bool.
Variable max_retry : Z.
Variable format_save_fp : string -> outcome string.

Local Abbreviation exec_op := (exec task_eq task_lt).
Local Abbreviation move := (step task_eq task_lt max_retry format_save_fp).
Local Abbreviation moves := (run task_eq task_lt max_retry format_save_fp).
Local Abbreviation turn := (do_task_iter max_retry format_save_fp).
Local Abbreviation tally p evs :=
  (Z.of_nat (length (filter (fun ev : event => p ev = true) evs))).

Lemma queued_fetch_perm h h' : h ≡ₚ h' -> queued_fetch h = queued_fetch h'.
Proof. intros Hp. unfold queued_fetch. by rewrite Hp. Qed.

Lemma queued_fetch_cons e h :
  queued_fetch (e :: h) = Z.b2z (is_fetch e) + queued_fetch h.
Proof.
  unfold queued_fetch. rewrite filter_cons.
  destruct (is_fetch e); case_decide; try done; cbn [length Z.b2z]; lia.
Qed.

Lemma tally_snoc p evs ev : tally p (evs ++ [ev]) = tally p evs + Z.b2z (p ev).
Proof.
  rewrite filter_app, length_app, filter_cons, filter_nil.
  destruct (p ev); case_decide; try done; cbn [length Z.b2z]; lia.
Qed.

(** An operation settles what its thread owed for it. *)
Lemma exec_account tid a rest s s' :
  exec_op tid a s = Some s' ->
  account s' + owed (a :: rest) = account s + owed rest.
Proof.
  unfold account, owed.
  destruct a as [e|result save_fp|thread_id| | | |k| |k|r];
    cbn [exec pending_stocks pending_n pending_total];
    try (intros [= <-]; cbn [total n crawler writer]; lia).
  - intros [= <-]. cbn [total n crawler writer].
    rewrite (queued_fetch_perm _ _ (heappush_perm task_eq task_lt (crawler s) e)).
    rewrite queued_fetch_cons. destruct (is_fetch e); cbn [Z.b2z]; lia.
  - intros [= <-]. cbn [total n crawler writer]. rewrite length_app. cbn [length]. lia.
  - destruct (other s) as [|registered others]; [done|]. intros [= <-]. cbn [total n crawler writer]. lia.
  - destruct (PBAR_LOCK s); [done|]. intros [= <-]. cbn [total n crawler writer]. lia.
Qed.

Lemma owed_app a b : owed (a ++ b) = owed a + owed b.
Proof.
  unfold owed. induction a as [|x a IH]; [cbn; lia|].
  destruct x; cbn [app pending_stocks pending_n pending_total]; lia.
Qed.

Lemma owed_stock_puts (result : list string) :
  owed (map (fun stk_id => crawler_put (0, mk_task get_stock [PStr stk_id] 0)) result)
  = Z.of_nat (length result).
Proof.
  unfold owed. induction result as [|x result IH]; [done|].
  cbn [map pending_stocks pending_n pending_total is_fetch snd func length]. lia.
Qed.

Lemma owed_caught exc task : owed (caught exc task) = 0.
Proof. reflexivity. Qed.

(** A turn of a crawler: a [get_stock] task that was taken is put back,
    sent on to the writer, dropped or lost; a [get_list] task counts the
    stocks it puts. *)
Lemma do_task_account prior task (o : call_outcome (func task)) :
  owed (effects (turn prior task o))
  + Z.b2z (dropped_fetch max_retry (crawled prior task o))
  + Z.b2z (lost_to_exception format_save_fp (crawled prior task o))
  = Z.b2z (is_fetch (prior, task)).
Proof.
  destruct task as [f a t]. cbn [func] in o. unfold is_fetch. cbn [snd func].
  destruct f; cbn [dropped_fetch lost_to_exception func].
  - destruct o as [[result|]|exc]; cbn [do_task_iter].
    + unfold bump. cbn [dispatch func]. rewrite (proj1 (handled_fan_out _ _ _)).
      cbn [args]. destruct result as [|stk_id result]; [done|].
      rewrite owed_app, owed_app, owed_stock_puts.
      destruct a as [|[page_num|?] ?]; rewrite ?owed_caught; unfold owed;
        cbn [pending_stocks pending_n pending_total is_fetch snd func Z.b2z];
        lia.
    + cbn [handled raised performed effects]. unfold retry.
      destruct (_ >=? _); reflexivity.
    + unfold handled. cbn [raised performed]. by destruct (is_Empty exc).
  - destruct o as [[result|]|exc]; cbn [do_task_iter].
    + unfold bump. cbn [dispatch func]. rewrite (proj1 (handled_forward _ _ _ _)).
      unfold forward. cbn [args].
      destruct a as [|[?|stock_id] ?]; try done.
      destruct (format_save_fp _) as [?|exc]; [done|].
      by destruct (is_Empty exc).
    + cbn [handled raised performed effects]. unfold retry. cbn [bump tries].
      destruct (_ >=? _); reflexivity.
    + unfold handled. cbn [raised performed]. by destruct (is_Empty exc).
Qed.

(** What a crawler has left to do after a turn: the operations of the
    turn, and after a [break] the epilogue. *)
Lemma pending_do_task_next i (it : iteration) :
  crawler_pending (do_task_next i it)
  = effects it
    ++ (if breaks it
        then [other_get;
              logging (info "Crawler Thread %d stopped." [LInt (Z.of_nat i)])]
        else []).
Proof. unfold do_task_next. destruct (breaks it); [done|]. by rewrite app_nil_r. Qed.

Lemma owed_do_task_next i (it : iteration) :
  owed (crawler_pending (do_task_next i it)) = owed (effects it).
Proof.
  rewrite pending_do_task_next, owed_app.
  destruct (breaks it); [replace (owed [other_get; _]) with 0 by reflexivity|
                         change (owed []) with 0]; lia.
Qed.

Lemma owed_write_result_next result save_fp w :
  owed (writer_pending (write_result_next result save_fp w))
  = owed (write_result_iter result save_fp w).
Proof.
  unfold write_result_next, write_result_iter.
  destruct w as [?|exc]; [done|].
  destruct (empty result); [done|]. cbn [negb andb]. by destruct (is_Empty exc).
Qed.

(** A turn of the writer: the frame is discounted, counted, refused or
    lost. *)
Lemma write_result_account result save_fp w :
  owed (write_result_iter result save_fp w)
  + Z.b2z (persistence_failure (wrote result save_fp w))
  + Z.b2z (lost_to_exception format_save_fp (wrote result save_fp w))
  = 1.
Proof.
  unfold write_result_iter. cbn [persistence_failure lost_to_exception].
  destruct (empty result), w as [[|]|exc]; try reflexivity.
  by destruct (is_Empty exc).
Qed.

Lemma owed_by_insert ts i t t' :
  ts !! i = Some t ->
  owed_by (<[i := t']> ts)
  = owed_by ts - owed (crawler_pending t) + owed (crawler_pending t').
Proof.
  revert i. induction ts as [|x ts IH]; intros [|i] Hi; simplify_eq/=; [lia|].
  rewrite (IH i Hi). lia.
Qed.

Lemma step_ledger l sys sys' :
  ledger max_retry format_save_fp sys -> move l sys = Some sys' ->
  ledger max_retry format_save_fp sys'.
Proof.
  unfold ledger, in_flight, count. intros Hinv Hstep.
  assert (Hacc : account (shared sys)
                 = owed_by (crawlers sys) + owed (writer_pending (writer_th sys))
                   + tally persistence_failure (history sys)
                   + tally (dropped_fetch max_retry) (history sys)
                   + tally (lost_to_exception format_save_fp) (history sys))
    by (unfold account; lia).
  clear Hinv.
  enough (account (shared sys')
          = owed_by (crawlers sys') + owed (writer_pending (writer_th sys'))
            + tally persistence_failure (history sys')
            + tally (dropped_fetch max_retry) (history sys')
            + tally (lost_to_exception format_save_fp) (history sys'))
    by (unfold account in *; lia).
  destruct sys as [s ts wt rep hist]. cbn [shared crawlers writer_th history] in *.
  destruct l as [i call|w|]; cbn [step shared crawlers writer_th reported history] in Hstep.
  - destruct (ts !! i) as [t|] eqn:Ht; [|done].
    destruct t as [[|a rest]|[|a rest]]; cbn [crawler_step] in Hstep.
    + destruct (heapq.heappop task_eq task_lt (crawler s)) as [[[prior task] heap]|] eqn:Hpop;
        simplify_eq; cbn [shared crawlers writer_th history].
      * rewrite !tally_snoc, (owed_by_insert _ _ _ _ Ht), owed_do_task_next.
        cbn [crawler_pending persistence_failure].
        pose proof (do_task_account prior task (call (func task))) as Hturn.
        pose proof (queued_fetch_perm _ _ (heappop_perm _ _ _ _ _ Hpop)) as Hq.
        rewrite queued_fetch_cons in Hq.
        unfold account in *. cbn [total n crawler writer Z.b2z] in *.
        replace (owed []) with 0 by reflexivity. lia.
      * rewrite app_nil_r, (owed_by_insert _ _ _ _ Ht). cbn [crawler_pending].
        replace (owed [other_get; _]) with 0 by reflexivity.
        replace (owed []) with 0 by reflexivity. lia.
    + destruct (exec_op i a s) as [s1|] eqn:Hexec; simplify_eq.
      cbn [shared crawlers writer_th history].
      rewrite app_nil_r, (owed_by_insert _ _ _ _ Ht). cbn [crawler_pending].
      pose proof (exec_account _ _ rest _ _ Hexec). lia.
    + done.
    + destruct (exec_op i a s) as [s1|] eqn:Hexec; simplify_eq.
      cbn [shared crawlers writer_th history].
      rewrite app_nil_r, (owed_by_insert _ _ _ _ Ht). cbn [crawler_pending].
      pose proof (exec_account _ _ rest _ _ Hexec). lia.
  - destruct wt as [[|a rest]| |[|a rest]]; cbn [writer_step] in Hstep.
    + destruct (writer s) as [|[result save_fp] q] eqn:Hw; simplify_eq;
        cbn [shared crawlers writer_th history writer_pending].
      * rewrite app_nil_r. cbn [writer_pending] in Hacc. lia.
      * rewrite !tally_snoc, owed_write_result_next. cbn [dropped_fetch Z.b2z].
        pose proof (write_result_account result save_fp w) as Hturn.
        unfold account in *. cbn [total n crawler writer writer_pending] in *.
        rewrite Hw in Hacc. cbn [length] in Hacc.
        replace (owed []) with 0 in Hacc by reflexivity. lia.
    + destruct (exec_op (length ts) a s) as [s1|] eqn:Hexec; simplify_eq.
      cbn [shared crawlers writer_th history writer_pending] in *.
      rewrite app_nil_r.
      pose proof (exec_account _ _ rest _ _ Hexec). lia.
    + destruct (other s) as [|registered others]; simplify_eq;
        cbn [shared crawlers writer_th history writer_pending] in *;
        rewrite app_nil_r; unfold owed in *;
        cbn [pending_stocks pending_n pending_total] in *; lia.
    + done.
    + destruct (exec_op (length ts) a s) as [s1|] eqn:Hexec; simplify_eq.
      cbn [shared crawlers writer_th history writer_pending] in *.
      rewrite app_nil_r.
      pose proof (exec_account _ _ rest _ _ Hexec). lia.
  - destruct (_ && _); simplify_eq.
    cbn [shared crawlers writer_th history]. unfold account in *.
    cbn [total n crawler writer] in *. lia.
Qed.

Lemma run_ledger ls : forall sys sys',
  ledger max_retry format_save_fp sys -> moves ls sys = Some sys' ->
  ledger max_retry format_save_fp sys'.
Proof.
  induction ls as [|l ls IH]; intros sys sys' Hinv; cbn [run].
  { by intros [= <-]. }
  destruct (move l sys) as [sys1|] eqn:Hstep; [|done].
  apply IH. by eapply step_ledger.
Qed.

Lemma owed_by_starting k m :
  owed_by (map (fun i => in_loop [other_put i;
                                  logging (info "Crawler Thread %d starts..."
                                             [LInt (Z.of_nat i)])])
             (seq k m)) = 0.
Proof.
  revert k. induction m as [|m IH]; intros k; [done|].
  cbn [seq map owed_by crawler_pending]. rewrite IH. reflexivity.
Qed.

Lemma assign_tasks_ledger num_crawler s :
  balanced s -> ledger max_retry format_save_fp (assign_tasks num_crawler s).
Proof.
  unfold balanced, ledger, in_flight, count, assign_tasks.
  cbn [shared crawlers writer_th history total n crawler writer writer_pending
       filter length].
  rewrite owed_by_starting, !filter_nil. unfold owed.
  cbn [pending_stocks pending_n pending_total length]. lia.
Qed.

Lemma owed_by_finished ts : forallb finished ts = true -> owed_by ts = 0.
Proof.
  induction ts as [|t ts IH]; [done|]. cbn [forallb owed_by].
  intros [Ht Hts]%andb_prop. rewrite (IH Hts).
  by destruct t as [?|[|]].
Qed.

Lemma count_nonneg p sys : 0 <= count p sys.
Proof. unfold count. lia. Qed.

End Accounting.

(** C3 (as amended): in every run of [assign_tasks] on a crawler whose bar
    agrees with its queues, once every queue is empty and every worker has
    returned, [n <= total], and [total - n] is the number of frames [write]
    refused, plus the number of [get_stock] tasks dropped at the limit of
    retries, plus the number of stocks lost to an exception. Frames without
    rows are not in the sum: each has already lowered [total] by one. *)
Theorem accounting_at_quiescence (task_eq task_lt : each_task -> each_task -> bool)
    (max_retry : Z) (format_save_fp : string -> outcome string)
    (num_crawler : nat) (s : state) (ls : list label) (sys : system) :
  balanced s ->
  run task_eq task_lt max_retry format_save_fp ls (assign_tasks num_crawler s)
  = Some sys ->
  quiescent sys ->
  n (shared sys) <= total (shared sys) /\
  total (shared sys) - n (shared sys)
  = count persistence_failure sys
    + count (dropped_fetch max_retry) sys
    + count (lost_to_exception format_save_fp) sys.
Proof.
  intros Hbal Hrun (Hc & Hw & Hts & Hwt).
  pose proof (run_ledger task_eq task_lt max_retry format_save_fp ls _ _
                (assign_tasks_ledger max_retry format_save_fp num_crawler s Hbal) Hrun)
    as Hledger.
  unfold ledger, in_flight in Hledger.
  rewrite Hc, Hw, (owed_by_finished _ Hts) in Hledger.
  destruct (writer_th sys) as [?| |[|? ?]]; try discriminate.
  cbn [writer_pending length] in Hledger.
  change (queued_fetch []) with 0 in Hledger.
  change (owed []) with 0 in Hledger.
  pose proof (count_nonneg persistence_failure sys).
  pose proof (count_nonneg (dropped_fetch max_retry) sys).
  pose proof (count_nonneg (lost_to_exception format_save_fp) sys).
  lia.
Qed.

Lemma accounting_at_quiescence_witness :
  exists sys,
    run fieldwise_eq fieldwise_lt 3 data_csv one_stock_without_rows
      (assign_tasks 1 seeded) = Some sys /\
    quiescent sys /\
    total (shared sys) - n (shared sys)
    = count persistence_failure sys + count (dropped_fetch 3) sys
      + count (lost_to_exception data_csv) sys.
Proof.
  destruct (run fieldwise_eq fieldwise_lt 3 data_csv one_stock_without_rows
              (assign_tasks 1 seeded)) as [sys|] eqn:Hrun;
    [|vm_compute in Hrun; discriminate].
  assert (Hq : quiescent sys).
  { vm_compute in Hrun. injection Hrun as <-. by vm_compute. }
  exists sys. split; [reflexivity|]. split; [exact Hq|].
  apply (accounting_at_quiescence fieldwise_eq fieldwise_lt 3 data_csv 1 seeded
           one_stock_without_rows sys); [reflexivity|exact Hrun|exact Hq].
Defined.

(** C3 (as stated) fails: in the run [one_stock_without_rows] the one stock
    listed yields a frame without rows; at the end [total = n = 0] while one
    such frame has been seen. *)
Lemma empty_results_are_not_owed :
  exists sys,
    run fieldwise_eq fieldwise_lt 3 data_csv one_stock_without_rows
      (assign_tasks 1 seeded) = Some sys /\
    quiescent sys /\
    total (shared sys) - n (shared sys) = 0 /\
    count permanent_empty_result sys = 1 /\
    total (shared sys) - n (shared sys)
    <> count permanent_empty_result sys + count persistence_failure sys
       + count (dropped_fetch 3) sys.
Proof.
  eexists. split; [vm_compute; reflexivity|]. by vm_compute.
Qed.

(** A stock whose call raises is counted in [total] for good: the sum
    needs the term for exceptions. *)
Lemma raised_stock_stays_in_total :
  exists sys,
    run fieldwise_eq fieldwise_lt 3 data_csv one_stock_raising
      (assign_tasks 1 seeded) = Some sys /\
    quiescent sys /\
    total (shared sys) = 1 /\ n (shared sys) = 0 /\
    count persistence_failure sys + count (dropped_fetch 3) sys = 0 /\
    count (lost_to_exception data_csv) sys = 1.
Proof.
  eexists. split; [vm_compute; reflexivity|]. by vm_compute.
Qed.

(** ** [assign_tasks] on a crawler fresh from [__init__] *)

Section Unseeded.

Variable task_eq : each_task -> each_task -> bool.
Variable task_lt : each_task -> each_task -> bool.
Variable max_retry : Z.
Variable format_save_fp : string -> outcome string.

Local Abbreviation exec_op := (exec task_eq task_lt).
Local Abbreviation move := (step task_eq task_lt max_retry format_save_fp).
Local Abbreviation moves := (run task_eq task_lt max_retry format_save_fp).

(** Registering, deregistering and logging leave the work alone. *)
Lemma exec_bookkeeping tid a s s' :
  bookkeeping a = true -> exec_op tid a s = Some s' ->
  crawler s' = crawler s /\ writer s' = writer s /\
  total s' = total s /\ n s' = n s.
Proof.
  destruct a as [e|result save_fp|thread_id| | | |k| |k|r]; try done;
    intros _; cbn [exec].
  - by intros [= <-].
  - destruct (other s) as [|registered others]; [done|]. by intros [= <-].
  - by intros [= <-].
Qed.

Lemma step_idle l sys sys' : idle sys -> move l sys = Some sys' -> idle sys'.
Proof.
  intros (Hc & Hw & Ht & Hn & Hh & Hts & Hwt) Hstep.
  destruct sys as [s ts wt rep hist]. cbn [shared crawlers writer_th history] in *.
  destruct l as [i call|w|];
    cbn [step shared crawlers writer_th reported history] in Hstep.
  - destruct (ts !! i) as [t|] eqn:Hi; [|done].
    pose proof (Forall_lookup_1 _ _ _ _ Hts Hi) as Hpending.
    destruct t as [[|a rest]|[|a rest]]; cbn [crawler_step] in Hstep;
      cbn [crawler_pending forallb] in Hpending.
    + rewrite Hc in Hstep. cbn in Hstep. simplify_eq.
      split_and!; try done. cbn [crawlers]. by apply Forall_insert.
    + apply andb_prop in Hpending as [Ha Hrest].
      destruct (exec_op i a s) as [s1|] eqn:Hexec; simplify_eq.
      destruct (exec_bookkeeping _ _ _ _ Ha Hexec) as (E1 & E2 & E3 & E4).
      unfold idle. cbn [shared crawlers writer_th history writer_pending].
      rewrite E1, E2, E3, E4.
      split_and!; try done. cbn [crawlers]. by apply Forall_insert.
    + done.
    + apply andb_prop in Hpending as [Ha Hrest].
      destruct (exec_op i a s) as [s1|] eqn:Hexec; simplify_eq.
      destruct (exec_bookkeeping _ _ _ _ Ha Hexec) as (E1 & E2 & E3 & E4).
      unfold idle. cbn [shared crawlers writer_th history writer_pending].
      rewrite E1, E2, E3, E4.
      split_and!; try done. cbn [crawlers]. by apply Forall_insert.
  - destruct wt as [[|a rest]| |[|a rest]]; cbn [writer_step] in Hstep;
      cbn [writer_pending forallb] in Hwt.
    + rewrite Hw in Hstep. simplify_eq. by split_and!.
    + apply andb_prop in Hwt as [Ha Hrest].
      destruct (exec_op (length ts) a s) as [s1|] eqn:Hexec; simplify_eq.
      destruct (exec_bookkeeping _ _ _ _ Ha Hexec) as (E1 & E2 & E3 & E4).
      unfold idle. cbn [shared crawlers writer_th history writer_pending].
      rewrite E1, E2, E3, E4.
      by split_and!.
    + destruct (other s) as [|registered others]; simplify_eq; by split_and!.
    + done.
    + apply andb_prop in Hwt as [Ha Hrest].
      destruct (exec_op (length ts) a s) as [s1|] eqn:Hexec; simplify_eq.
      destruct (exec_bookkeeping _ _ _ _ Ha Hexec) as (E1 & E2 & E3 & E4).
      unfold idle. cbn [shared crawlers writer_th history writer_pending].
      rewrite E1, E2, E3, E4.
      by split_and!.
  - destruct (_ && _); simplify_eq. by split_and!.
Qed.

Lemma run_idle ls : forall sys sys', idle sys -> moves ls sys = Some sys' -> idle sys'.
Proof.
  induction ls as [|l ls IH]; intros sys sys' Hidle; cbn [run].
  { by intros [= <-]. }
  destruct (move l sys) as [sys1|] eqn:Hstep; [|done].
  apply IH. by eapply step_idle.
Qed.

Lemma assign_tasks_idle num_crawler : idle (assign_tasks num_crawler init).
Proof.
  unfold idle, assign_tasks. cbn [shared crawlers writer_th history init
    crawler writer total n writer_pending forallb bookkeeping].
  split_and!; try done.
  apply Forall_forall. intros t (i & -> & _)%list_elem_of_fmap. done.
Qed.

End Unseeded.

(** C5, against the code: [assign_tasks] starts the workers on the queues
    as [__init__] made them. Whatever the run, the crawler queue stays
    empty, so the task of page 0 is never on it, no task is ever taken, and
    the bar stays at 0 of 0. *)
Theorem assign_tasks_never_seeds (task_eq task_lt : each_task -> each_task -> bool)
    (max_retry : Z) (format_save_fp : string -> outcome string)
    (num_crawler : nat) (ls : list label) (sys : system) :
  run task_eq task_lt max_retry format_save_fp ls (assign_tasks num_crawler init)
  = Some sys ->
  crawler (shared sys) = [] /\
  ((1, mk_task get_list [PInt 0] 0) ∉ crawler (shared sys)) /\
  history sys = [] /\
  total (shared sys) = 0 /\ n (shared sys) = 0.
Proof.
  intros Hrun.
  destruct (run_idle task_eq task_lt max_retry format_save_fp ls _ _
              (assign_tasks_idle num_crawler) Hrun)
    as (Hc & _ & Ht & Hn & Hh & _).
  split_and!; try done. rewrite Hc. apply not_elem_of_nil.
Qed.

Lemma assign_tasks_never_seeds_witness :
  exists sys,
    run fieldwise_eq fieldwise_lt 3 data_csv nothing_to_do (assign_tasks 1 init)
    = Some sys /\
    quiescent sys /\ reported sys = true /\
    history sys = [] /\
    last (log (shared sys))
    = Some (info "%d/%d stocks' data are retrieved." [LInt 0; LInt 0]).
Proof.
  destruct (run fieldwise_eq fieldwise_lt 3 data_csv nothing_to_do
              (assign_tasks 1 init)) as [sys|] eqn:Hrun;
    [|vm_compute in Hrun; discriminate].
  destruct (assign_tasks_never_seeds fieldwise_eq fieldwise_lt 3 data_csv 1
              nothing_to_do sys Hrun) as (_ & _ & Hh & _).
  exists sys. split; [reflexivity|].
  vm_compute in Hrun. injection Hrun as <-.
  split; [by vm_compute|]. split; [reflexivity|]. split; [exact Hh|reflexivity].
Defined.

(** ** Every step is one of the moves *)

Lemma step_moved (task_eq task_lt : each_task -> each_task -> bool)
    (max_retry : Z) (format_save_fp : string -> outcome string)
    (l : label) (sys sys' : system) :
  step task_eq task_lt max_retry format_save_fp l sys = Some sys' ->
  moved task_eq task_lt max_retry format_save_fp sys sys'.
Proof.
  destruct l as [i call|w|]; cbn [step].
  - destruct (crawlers sys !! i) as [t|] eqn:Ht; [|done].
    destruct t as [[|a rest]|[|a rest]]; cbn [crawler_step].
    + destruct (heapq.heappop _ _ _) as [[[prior task] heap]|] eqn:Hpop.
      * intros [= <-]. by apply crawler_takes.
      * intros [= <-]. rewrite app_nil_r. apply crawler_times_out; [done|].
        apply (heappop_None _ _ _ Hpop).
    + destruct (exec _ _ _ _ _) as [s1|] eqn:He; [|done].
      intros [= <-]. rewrite app_nil_r. by eapply crawler_runs.
    + done.
    + destruct (exec _ _ _ _ _) as [s1|] eqn:He; [|done].
      intros [= <-]. rewrite app_nil_r. by eapply crawler_leaves.
  - destruct (writer_th sys) as [[|a rest]| |[|a rest]] eqn:Hw; cbn [writer_step].
    + destruct (writer (shared sys)) as [|[result save_fp] q] eqn:Hq.
      * intros [= <-]. rewrite app_nil_r. by apply writer_times_out.
      * intros [= <-]. by apply writer_takes.
    + destruct (exec _ _ _ _ _) as [s1|] eqn:He; [|done].
      intros [= <-]. rewrite app_nil_r. by eapply writer_runs.
    + destruct (other (shared sys)) as [|registered others] eqn:Ho.
      * intros [= <-]. rewrite app_nil_r. by apply writer_breaks.
      * intros [= <-]. rewrite app_nil_r. apply writer_goes_on; [done|].
        by rewrite Ho.
    + done.
    + destruct (exec _ _ _ _ _) as [s1|] eqn:He; [|done].
      intros [= <-]. rewrite app_nil_r. by eapply writer_leaves.
  - destruct (forallb finished (crawlers sys)) eqn:H1; [|done].
    destruct (w_finished (writer_th sys)) eqn:H2; [|done].
    destruct (reported sys) eqn:H3; [done|]. cbn [andb negb].
    intros [= <-]. by apply pool_reports.
Qed.

(** ** The lock and the registry *)

Lemma plain_thread acts :
  plain acts = true ->
  crawler_shape (in_loop acts) = true /\ crawler_shape (leaving acts) = true /\
  registered (in_loop acts) = true /\ registered (leaving acts) = false.
Proof.
  destruct acts as [|a rest]; [done|]. cbn [plain forallb].
  intros [Ha Hrest]%andb_prop. fold (plain rest) in Hrest.
  by destruct a.
Qed.

Lemma plain_app a b : plain (a ++ b) = plain a && plain b.
Proof. unfold plain. apply forallb_app. Qed.

Lemma plain_stock_puts (result : list string) :
  plain (map (fun stk_id => crawler_put (0, mk_task get_stock [PStr stk_id] 0)) result)
  = true.
Proof. by induction result. Qed.

Lemma bracketed_stock_puts held (result : list string) rest :
  bracketed held
    (map (fun stk_id => crawler_put (0, mk_task get_stock [PStr stk_id] 0)) result
     ++ rest)
  = bracketed held rest.
Proof. induction result as [|stk_id result IH]; [done|]. exact IH. Qed.

(** A turn of [do_task] leaves the registry alone and gives the lock back. *)
Lemma do_task_iter_disciplined (max_retry : Z)
    (format_save_fp : string -> outcome string)
    (prior : Z) (task : each_task) (o : call_outcome (func task)) :
  plain (effects (do_task_iter max_retry format_save_fp prior task o)) = true /\
  bracketed false (effects (do_task_iter max_retry format_save_fp prior task o)) = true.
Proof.
  destruct task as [f a t]. cbn [func] in o.
  destruct o as [[result|]|exc]; cbn [do_task_iter].
  - unfold bump. destruct f; cbn [dispatch func].
    + rewrite (proj1 (handled_fan_out _ _ _)). cbn [args].
      destruct result as [|stk_id result]; [done|].
      rewrite !plain_app, plain_stock_puts.
      cbn [app bracketed andb negb]. rewrite bracketed_stock_puts.
      by destruct a as [|[?|?] ?].
    + rewrite (proj1 (handled_forward _ _ _ _)). cbn [args].
      destruct a as [|[?|?] ?]; try done.
      destruct (format_save_fp _) as [?|exc]; [done|]. by destruct (is_Empty exc).
  - cbn [handled raised performed effects]. unfold retry. by destruct (_ >=? _).
  - unfold handled. cbn [raised performed]. by destruct (is_Empty exc).
Qed.

Lemma write_result_iter_disciplined result save_fp w :
  plain (write_result_iter result save_fp w) = true /\
  bracketed false (write_result_iter result save_fp w) = true.
Proof.
  unfold write_result_iter. destruct (empty result), w as [[|]|exc]; try done.
  by destruct (is_Empty exc).
Qed.

(** Where a turn leaves a crawler: in the loop with the operations of the
    turn, or, the turn having done nothing, at the epilogue. *)
Lemma do_task_next_cases (max_retry : Z) (format_save_fp : string -> outcome string)
    (i : nat) (prior : Z) (task : each_task) (o : call_outcome (func task)) :
  let it := do_task_iter max_retry format_save_fp prior task o in
  breaks it = false /\ do_task_next i it = in_loop (effects it) \/
  breaks it = true /\ effects it = [] /\
  do_task_next i it
  = leaving [other_get;
             logging (info "Crawler Thread %d stopped." [LInt (Z.of_nat i)])].
Proof.
  intros it. unfold do_task_next. destruct (breaks it) eqn:Hb; [right|by left].
  pose proof (breaks_effects _ _ _ _ _ Hb) as He. fold it in He.
  by rewrite He.
Qed.

(** Where a turn leaves the writer: in the loop with the operations of
    the turn, or, [write] having raised [Empty], in the handler. *)
Lemma write_result_next_cases result save_fp w :
  write_result_next result save_fp w = w_in_loop (write_result_iter result save_fp w) \/
  w = Raises "Empty" /\ empty result = false /\
  write_result_iter result save_fp w = [] /\
  write_result_next result save_fp w = w_timed_out.
Proof.
  unfold write_result_next. destruct w as [?|exc]; [by left|].
  destruct (empty result) eqn:Hempty; [by left|]. cbn [negb andb].
  unfold write_result_iter, is_Empty. rewrite Hempty.
  destruct (bool_decide_reflect (exc = "Empty")) as [->|?]; [by right|by left].
Qed.

Lemma live_insert ts i t t' :
  ts !! i = Some t ->
  live (<[i := t']> ts) = live ts - Z.b2z (registered t) + Z.b2z (registered t').
Proof.
  revert i. induction ts as [|x ts IH]; intros [|i] Hi; simplify_eq/=; [lia|].
  rewrite (IH i Hi). lia.
Qed.

Lemma live_registered ts i t :
  ts !! i = Some t -> registered t = true -> 1 <= live ts.
Proof.
  assert (Hnn : forall l, 0 <= live l).
  { induction l as [|x l IH]; cbn [live]; [lia|]. destruct (registered x); cbn; lia. }
  revert i. induction ts as [|x ts IH]; intros [|i] Hi Hr; simplify_eq/=.
  - rewrite Hr. specialize (Hnn ts). cbn. lia.
  - specialize (IH i Hi Hr). destruct (registered x); cbn; lia.
Qed.

Lemma live_none ts :
  live ts = 0 -> forall i t, ts !! i = Some t -> registered t = false.
Proof.
  intros H0 i t Hi. destruct (registered t) eqn:Hr; [|done].
  pose proof (live_registered ts i t Hi Hr). lia.
Qed.

Section Discipline.

Variable task_eq : each_task -> each_task -> bool.
Variable task_lt : each_task -> each_task -> bool.

(** What one operation does to the lock, seen from the thread that runs it
    and from the others. *)
Lemma exec_lock k a rest s s' :
  exec task_eq task_lt k a s = Some s' ->
  bracketed (holds k s) (a :: rest) = true ->
  bracketed (holds k s') rest = true /\
  (forall j, j <> k -> holds j s' = holds j s) /\
  (forall x, PBAR_LOCK s' = Some x -> x = k \/ PBAR_LOCK s = Some x).
Proof.
  unfold holds.
  destruct a as [e|result save_fp|thread_id| | | |z| |z|r]; cbn [exec bracketed];
    try (intros [= <-]; cbn [PBAR_LOCK]; intros H;
         try (apply andb_prop in H as [_ H]); split_and!; by auto).
  - destruct (other s) as [|registered others]; [done|].
    intros [= <-]; cbn [PBAR_LOCK]; intros [_ H]%andb_prop. split_and!; by auto.
  - destruct (PBAR_LOCK s) as [x|] eqn:Hl; [done|].
    intros [= <-]; cbn [PBAR_LOCK]. intros [_ H]%andb_prop.
    rewrite bool_decide_eq_true_2 by done. split_and!; [done| |].
    + intros j Hj. rewrite !bool_decide_eq_false_2; [done|congruence..].
    + intros x [= <-]. by left.
  - intros [= <-]; cbn [PBAR_LOCK]. intros [Hheld H]%andb_prop.
    apply bool_decide_eq_true in Hheld.
    rewrite bool_decide_eq_false_2 by done. split_and!; [done| |done].
    intros j Hj. rewrite !bool_decide_eq_false_2; [done|congruence..].
Qed.

Lemma exec_registry k a s s' :
  exec task_eq task_lt k a s = Some s' ->
  Z.of_nat (length (other s'))
  = Z.of_nat (length (other s))
    + match a with
      | other_put _ => 1
      | other_get => -1
      | _ => 0
      end.
Proof.
  destruct a as [e|result save_fp|thread_id| | | |z| |z|r]; cbn [exec];
    try (intros [= <-]; cbn [other]; lia).
  - intros [= <-]; cbn [other]. rewrite length_app. cbn [length]. lia.
  - destruct (other s) as [|registered others]; [done|].
    intros [= <-]; cbn [other length]. lia.
  - destruct (PBAR_LOCK s); [done|]. intros [= <-]; cbn [other]. lia.
Qed.

End Discipline.

Section DisciplineKept.

Variable task_eq : each_task -> each_task -> bool.
Variable task_lt : each_task -> each_task -> bool.
Variable max_retry : Z.
Variable format_save_fp : string -> outcome string.

Local Abbreviation moved_to := (moved task_eq task_lt max_retry format_save_fp).

(** A crawler at a [get] takes up new work. *)
Lemma disciplined_crawler_update sys i t t' s' :
  disciplined sys ->
  crawlers sys !! i = Some t ->
  PBAR_LOCK s' = PBAR_LOCK (shared sys) ->
  length (other s') = length (other (shared sys)) ->
  crawler_shape t' = true ->
  bracketed (holds i (shared sys)) (crawler_pending t') = true ->
  registered t' = registered t ->
  disciplined (mk_system s' (<[i := t']> (crawlers sys))
                 (writer_th sys) (reported sys) (history sys)).
Proof.
  intros (Hts & Hwp & Hwb & Hlock & Hreg) Hi Hl Ho Hshape Hbr Hlive.
  unfold disciplined, holds in *.
  cbn [shared crawlers writer_th]. rewrite length_insert, Hl, Ho.
  split_and!; try done.
  - intros j tj [(<- & <- & _)|[Hne Hj]]%list_lookup_insert_Some; [done|by apply Hts].
  - rewrite (live_insert _ _ _ _ Hi), Hlive. lia.
Qed.

(** The writer at a [get] takes up new work. *)
Lemma disciplined_writer_update sys wt s' :
  disciplined sys ->
  PBAR_LOCK s' = PBAR_LOCK (shared sys) ->
  length (other s') = length (other (shared sys)) ->
  plain (writer_pending wt) = true ->
  bracketed (holds (length (crawlers sys)) (shared sys)) (writer_pending wt) = true ->
  disciplined (mk_system s' (crawlers sys) wt (reported sys) (history sys)).
Proof.
  intros (Hts & Hwp & Hwb & Hlock & Hreg) Hl Ho Hp Hbr.
  unfold disciplined, holds in *.
  cbn [shared crawlers writer_th]. rewrite Hl, Ho. by split_and!.
Qed.

(** A crawler runs its next operation. *)
Lemma disciplined_crawler_exec sys i t a rest s' :
  disciplined sys ->
  crawlers sys !! i = Some t ->
  crawler_pending t = a :: rest ->
  exec task_eq task_lt i a (shared sys) = Some s' ->
  disciplined (mk_system s'
                 (<[i := match t with
                         | in_loop _ => in_loop rest
                         | leaving _ => leaving rest
                         end]> (crawlers sys))
                 (writer_th sys) (reported sys) (history sys)).
Proof.
  intros (Hts & Hwp & Hwb & Hlock & Hreg) Hi Hpend Hexec.
  destruct (Hts i t Hi) as [Hshape Hbr]. rewrite Hpend in Hbr.
  destruct (exec_lock task_eq task_lt _ _ _ _ _ Hexec Hbr) as (Hbr' & Hothers & Hvalid).
  pose proof (exec_registry task_eq task_lt _ _ _ _ Hexec) as Hlen.
  pose proof (lookup_lt_Some _ _ _ Hi) as Hlt.
  assert (Hrest : plain rest = true /\
                  Z.b2z (registered t)
                  + match a with other_put _ => 1 | other_get => -1 | _ => 0 end
                  = 0 + Z.b2z (registered (match t with
                                           | in_loop _ => in_loop rest
                                           | leaving _ => leaving rest
                                           end))).
  { destruct t as [acts|acts]; cbn [crawler_pending] in Hpend; subst acts;
      destruct a; cbn [crawler_shape] in Hshape; try done;
      (split; [done|]);
      destruct (plain_thread rest Hshape) as (_ & _ & E1 & E2);
      rewrite ?E1, ?E2; cbn [registered]; done. }
  destruct Hrest as [Hplain Hcount].
  unfold disciplined. cbn [shared crawlers writer_th]. rewrite length_insert.
  split_and!.
  - intros j tj [(<- & <- & _)|[Hne Hj]]%list_lookup_insert_Some.
    + split; [|by destruct t].
      destruct (plain_thread rest Hplain) as (? & ? & _). by destruct t.
    + rewrite (Hothers j) by done. by apply Hts.
  - done.
  - rewrite Hothers by lia. done.
  - intros x [->|Hx]%Hvalid; [lia|by apply Hlock].
  - rewrite (live_insert _ _ _ _ Hi). lia.
Qed.

(** The writer runs its next operation. *)
Lemma disciplined_writer_exec sys a rest s' (wt' : writer_thread) :
  disciplined sys ->
  writer_pending (writer_th sys) = a :: rest ->
  writer_pending wt' = rest ->
  exec task_eq task_lt (length (crawlers sys)) a (shared sys) = Some s' ->
  disciplined (mk_system s' (crawlers sys) wt' (reported sys) (history sys)).
Proof.
  intros (Hts & Hwp & Hwb & Hlock & Hreg) Hpend Hpend' Hexec.
  rewrite Hpend in Hwp, Hwb.
  destruct (exec_lock task_eq task_lt _ _ _ _ _ Hexec Hwb) as (Hbr' & Hothers & Hvalid).
  pose proof (exec_registry task_eq task_lt _ _ _ _ Hexec) as Hlen.
  cbn [plain forallb] in Hwp. apply andb_prop in Hwp as [Ha Hplain].
  fold (plain rest) in Hplain.
  unfold disciplined. cbn [shared crawlers writer_th]. rewrite Hpend'.
  split_and!; try done.
  - intros j tj Hj. pose proof (lookup_lt_Some _ _ _ Hj).
    rewrite (Hothers j) by lia. by apply Hts.
  - intros x [->|Hx]%Hvalid; [lia|by apply Hlock].
  - rewrite <- Hreg, Hlen. destruct a; cbn in Ha; try done; lia.
Qed.

Lemma moved_disciplined sys sys' :
  disciplined sys -> moved_to sys sys' -> disciplined sys'.
Proof.
  intros Hinv Hmove. pose proof Hinv as (Hts & Hwp & Hwb & Hlock & Hreg).
  destruct Hmove as [i a rest s' Hi Hexec|i prior task heap o Hi Hpop|i Hi Hempty
                    |i a rest s' Hi Hexec|a rest s' Hw Hexec|result save_fp q w Hw Hq
                    |Hw Hq|Hw Ho|Hw Ho|a rest s' Hw Hexec|Hall Hwf Hrep].
  - by apply (disciplined_crawler_exec sys i (in_loop (a :: rest)) a rest s').
  - destruct (Hts _ _ Hi) as [_ Hbr]. cbn in Hbr. apply negb_true_iff in Hbr.
    destruct (do_task_iter_disciplined max_retry format_save_fp prior task o)
      as [Hplain Hbrack].
    destruct (do_task_next_cases max_retry format_save_fp i prior task o)
      as [[_ ->]|(_ & _ & ->)].
    + eapply disciplined_crawler_update; try done.
      * by apply plain_thread.
      * by rewrite Hbr.
      * by apply plain_thread.
    + eapply disciplined_crawler_update; try done. by rewrite Hbr.
  - destruct (Hts _ _ Hi) as [_ Hbr]. cbn in Hbr. apply negb_true_iff in Hbr.
    eapply disciplined_crawler_update; try done. by rewrite Hbr.
  - by apply (disciplined_crawler_exec sys i (leaving (a :: rest)) a rest s').
  - eapply disciplined_writer_exec; try done. by rewrite Hw.
  - rewrite Hw in Hwb. cbn in Hwb. apply negb_true_iff in Hwb.
    destruct (write_result_iter_disciplined result save_fp w) as [Hplain Hbrack].
    destruct (write_result_next_cases result save_fp w) as [->|(_ & _ & _ & ->)].
    + apply disciplined_writer_update; try done. by rewrite Hwb.
    + apply disciplined_writer_update; try done. by rewrite Hwb.
  - rewrite Hw in Hwb. by apply disciplined_writer_update.
  - rewrite Hw in Hwb. cbn in Hwb. apply negb_true_iff in Hwb.
    apply disciplined_writer_update; try done. by rewrite Hwb.
  - rewrite Hw in Hwb. by apply disciplined_writer_update.
  - eapply disciplined_writer_exec; try done. by rewrite Hw.
  - destruct sys as [s ts wt rep hist]. cbn in *. done.
Qed.

End DisciplineKept.

Section DisciplineOfRuns.

Variable task_eq : each_task -> each_task -> bool.
Variable task_lt : each_task -> each_task -> bool.
Variable max_retry : Z.
Variable format_save_fp : string -> outcome string.

Local Abbreviation step_of := (step task_eq task_lt max_retry format_save_fp).
Local Abbreviation run_of := (run task_eq task_lt max_retry format_save_fp).

Lemma run_disciplined ls : forall sys sys',
  disciplined sys -> run_of ls sys = Some sys' -> disciplined sys'.
Proof.
  induction ls as [|l ls IH]; intros sys sys' Hinv; cbn [run].
  { by intros [= <-]. }
  destruct (step_of l sys) as [sys1|] eqn:Hstep; [|done].
  apply IH. eapply moved_disciplined; [done|]. by eapply step_moved.
Qed.

Lemma live_starting k m :
  live (map (fun i => in_loop [other_put i;
                               logging (info "Crawler Thread %d starts..."
                                          [LInt (Z.of_nat i)])])
          (seq k m)) = 0.
Proof.
  revert k. induction m as [|m IH]; intros k; [done|].
  cbn [seq map live registered]. rewrite IH. reflexivity.
Qed.

Lemma assign_tasks_disciplined num_crawler s :
  PBAR_LOCK s = None -> other s = [] -> disciplined (assign_tasks num_crawler s).
Proof.
  intros Hl Ho. unfold disciplined, assign_tasks, holds.
  cbn [shared crawlers writer_th PBAR_LOCK other writer_pending].
  rewrite Hl, Ho, live_starting. split_and!; try done.
  intros i t [j [-> _]]%list_lookup_fmap_Some. done.
Qed.

(** Only [total += k] and [update(k)] change the bar. *)
Lemma exec_bar k a s s' :
  exec task_eq task_lt k a s = Some s' ->
  total s' <> total s \/ n s' <> n s ->
  exists z, a = total_add z \/ a = update z.
Proof.
  destruct a as [e|result save_fp|thread_id| | | |z| |z|r]; cbn [exec];
    try (intros [= <-]; cbn [total n]; intros [?|?]; done);
    try (intros _ _; eexists; eauto; fail).
  - destruct (other s) as [|registered others]; [done|].
    intros [= <-]; cbn [total n]; intros [?|?]; done.
  - destruct (PBAR_LOCK s); [done|].
    intros [= <-]; cbn [total n]; intros [?|?]; done.
Qed.

Lemma bracketed_bar held a rest :
  bracketed held (a :: rest) = true ->
  (exists z, a = total_add z \/ a = update z) -> held = true.
Proof.
  intros H [z [->| ->]]; cbn [bracketed] in H; by apply andb_prop in H as [? _].
Qed.

(** With the lock in hand the next operation never waits. *)
Lemma exec_held k a rest s :
  bracketed true (a :: rest) = true ->
  exists s', exec task_eq task_lt k a s = Some s'.
Proof. destruct a; cbn [bracketed exec]; try done; intros _; eauto. Qed.

(** With the lock free only the registry can make an operation wait. *)
Lemma exec_free k a s :
  PBAR_LOCK s = None -> a <> other_get \/ other s <> [] ->
  exists s', exec task_eq task_lt k a s = Some s'.
Proof.
  intros Hl Ha. destruct a; cbn [exec]; rewrite ?Hl; eauto.
  destruct (other s); [|eauto]. by destruct Ha.
Qed.

End DisciplineOfRuns.

(** X1: in a run of [assign_tasks] on a crawler whose lock is free and
    whose registry is empty, a step that changes [total] or [n] is a step
    of the thread that holds [PBAR_LOCK]. *)
Theorem bar_changes_under_lock (task_eq task_lt : each_task -> each_task -> bool)
    (max_retry : Z) (format_save_fp : string -> outcome string)
    (num_crawler : nat) (s : state) (ls : list label) (l : label)
    (sys sys' : system) :
  PBAR_LOCK s = None -> other s = [] ->
  run task_eq task_lt max_retry format_save_fp ls (assign_tasks num_crawler s)
  = Some sys ->
  step task_eq task_lt max_retry format_save_fp l sys = Some sys' ->
  total (shared sys') <> total (shared sys) \/ n (shared sys') <> n (shared sys) ->
  exists k, mover (length (crawlers sys)) l = Some k /\
            PBAR_LOCK (shared sys) = Some k.
Proof.
  intros Hl Ho Hrun Hstep Hbar.
  pose proof (run_disciplined _ _ _ _ _ _ _
                (assign_tasks_disciplined num_crawler s Hl Ho) Hrun)
    as (Hts & _ & Hwb & _).
  assert (Hheld : forall k a rest s1,
            exec task_eq task_lt k a (shared sys) = Some s1 ->
            total s1 <> total (shared sys) \/ n s1 <> n (shared sys) ->
            bracketed (holds k (shared sys)) (a :: rest) = true ->
            PBAR_LOCK (shared sys) = Some k).
  { intros k a rest s1 Hexec Hch Hbr.
    pose proof (bracketed_bar _ _ _ Hbr (exec_bar _ _ _ _ _ _ Hexec Hch)) as Hh.
    by apply bool_decide_eq_true in Hh. }
  destruct l as [i call|w|]; cbn [step mover] in *.
  - exists i. split; [done|].
    destruct (crawlers sys !! i) as [t|] eqn:Hi; [|done].
    destruct (Hts i t Hi) as [_ Hbr].
    destruct t as [[|a rest]|[|a rest]]; cbn [crawler_step crawler_pending] in *.
    + destruct (heapq.heappop _ _ _) as [[[prior task] heap]|]; simplify_eq;
        cbn in Hbar; by destruct Hbar.
    + destruct (exec _ _ _ _ _) as [s1|] eqn:Hexec; simplify_eq. cbn in Hbar.
      by eapply Hheld.
    + done.
    + destruct (exec _ _ _ _ _) as [s1|] eqn:Hexec; simplify_eq. cbn in Hbar.
      by eapply Hheld.
  - eexists. split; [done|].
    destruct (writer_th sys) as [[|a rest]| |[|a rest]];
      cbn [writer_step writer_pending] in *.
    + destruct (writer (shared sys)) as [|[result save_fp] q]; simplify_eq;
        cbn in Hbar; by destruct Hbar.
    + destruct (exec _ _ _ _ _) as [s1|] eqn:Hexec; simplify_eq. cbn in Hbar.
      by eapply Hheld.
    + destruct (other (shared sys)); simplify_eq; cbn in Hbar; by destruct Hbar.
    + done.
    + destruct (exec _ _ _ _ _) as [s1|] eqn:Hexec; simplify_eq. cbn in Hbar.
      by eapply Hheld.
  - destruct (_ && _); simplify_eq. cbn in Hbar. by destruct Hbar.
Qed.

Lemma bar_changes_under_lock_witness :
  exists sys sys',
    run fieldwise_eq fieldwise_lt 3 data_csv up_to_total_add (assign_tasks 1 seeded)
    = Some sys /\
    step fieldwise_eq fieldwise_lt 3 data_csv (crawler_moves 0 (answers None None)) sys
    = Some sys' /\
    total (shared sys') = 1 /\ PBAR_LOCK (shared sys) = Some 0%nat.
Proof.
  destruct (run fieldwise_eq fieldwise_lt 3 data_csv up_to_total_add
              (assign_tasks 1 seeded)) as [sys|] eqn:Hrun;
    [|vm_compute in Hrun; discriminate].
  destruct (step fieldwise_eq fieldwise_lt 3 data_csv
              (crawler_moves 0 (answers None None)) sys) as [sys'|] eqn:Hstep;
    [|vm_compute in Hrun; injection Hrun as <-; vm_compute in Hstep; discriminate].
  assert (Htotal : total (shared sys') = 1 /\ total (shared sys) = 0).
  { vm_compute in Hrun. injection Hrun as <-.
    vm_compute in Hstep. injection Hstep as <-. split; reflexivity. }
  destruct Htotal as [Ht' Ht].
  destruct (bar_changes_under_lock fieldwise_eq fieldwise_lt 3 data_csv 1 seeded
              up_to_total_add (crawler_moves 0 (answers None None)) sys sys')
    as (k & Hk & Hlock);
    [reflexivity|reflexivity|exact Hrun|exact Hstep|left; rewrite Ht', Ht; discriminate|].
  exists sys, sys'. injection Hk as <-.
  split; [reflexivity|]. split; [exact Hstep|]. split; [exact Ht'|exact Hlock].
Defined.

(** X2: in such a run the registry holds as many identities as there are
    crawlers between the [put] of line 62 and the [get] of line 118. So a
    crawler at that [get] never waits, and when the registry is empty no
    crawler is between the two. *)
Theorem registry_counts_live_crawlers
    (task_eq task_lt : each_task -> each_task -> bool)
    (max_retry : Z) (format_save_fp : string -> outcome string)
    (num_crawler : nat) (s : state) (ls : list label) (sys : system) :
  PBAR_LOCK s = None -> other s = [] ->
  run task_eq task_lt max_retry format_save_fp ls (assign_tasks num_crawler s)
  = Some sys ->
  Z.of_nat (length (other (shared sys))) = live (crawlers sys) /\
  (forall i rest call,
     crawlers sys !! i = Some (leaving (other_get :: rest)) ->
     exists sys', step task_eq task_lt max_retry format_save_fp
                    (crawler_moves i call) sys = Some sys') /\
  (other (shared sys) = [] ->
   forall i t, crawlers sys !! i = Some t -> registered t = false).
Proof.
  intros Hl Ho Hrun.
  pose proof (run_disciplined _ _ _ _ _ _ _
                (assign_tasks_disciplined num_crawler s Hl Ho) Hrun)
    as (Hts & _ & _ & _ & Hreg).
  split_and!; [done| |].
  - intros i rest call Hi. cbn [step]. rewrite Hi. cbn [crawler_step exec].
    pose proof (live_registered _ _ _ Hi eq_refl) as Hlive.
    destruct (other (shared sys)) as [|registered others]; [cbn in Hreg; lia|].
    eauto.
  - intros Hempty. apply live_none. rewrite <- Hreg, Hempty. done.
Qed.

Lemma registry_counts_live_crawlers_witness :
  exists sys sys',
    run fieldwise_eq fieldwise_lt 3 data_csv up_to_deregistration
      (assign_tasks 1 seeded) = Some sys /\
    crawlers sys !! 0%nat
    = Some (leaving [other_get;
                     logging (info "Crawler Thread %d stopped." [LInt 0])]) /\
    step fieldwise_eq fieldwise_lt 3 data_csv (crawler_moves 0 (answers None None)) sys
    = Some sys'.
Proof.
  destruct (run fieldwise_eq fieldwise_lt 3 data_csv up_to_deregistration
              (assign_tasks 1 seeded)) as [sys|] eqn:Hrun;
    [|vm_compute in Hrun; discriminate].
  assert (Hi : crawlers sys !! 0%nat
               = Some (leaving [other_get;
                                logging (info "Crawler Thread %d stopped." [LInt 0])])).
  { vm_compute in Hrun. injection Hrun as <-. reflexivity. }
  destruct (registry_counts_live_crawlers fieldwise_eq fieldwise_lt 3 data_csv 1
              seeded up_to_deregistration sys) as (_ & Hget & _);
    [reflexivity|reflexivity|exact Hrun|].
  destruct (Hget 0%nat _ (answers None None) Hi) as [sys' Hstep].
  exists sys, sys'. split; [reflexivity|]. split; [exact Hi|exact Hstep].
Defined.

Lemma unfinished_crawler ts :
  forallb finished ts = false ->
  exists i t, ts !! i = Some t /\ finished t = false.
Proof.
  induction ts as [|x ts IH]; [done|]. cbn [forallb].
  destruct (finished x) eqn:Hx.
  - intros (i & t & Hi & Ht)%IH. by exists (S i), t.
  - intros _. by exists 0%nat, x.
Qed.

Lemma finished_crawlers ts i t :
  forallb finished ts = true -> ts !! i = Some t -> t = leaving [].
Proof.
  revert i. induction ts as [|x ts IH]; intros [|i]; cbn [forallb]; try done.
  - intros [Hx _]%andb_prop [= <-]. by destruct x as [?|[|? ?]].
  - intros [_ Hts]%andb_prop Hi. by eapply IH.
Qed.

(** After the tally every worker has returned. *)
Lemma moved_reported (task_eq task_lt : each_task -> each_task -> bool)
    (max_retry : Z) (format_save_fp : string -> outcome string) (sys sys' : system) :
  (reported sys = true ->
   forallb finished (crawlers sys) = true /\ w_finished (writer_th sys) = true) ->
  moved task_eq task_lt max_retry format_save_fp sys sys' ->
  reported sys' = true ->
  forallb finished (crawlers sys') = true /\ w_finished (writer_th sys') = true.
Proof.
  intros Hinv Hmove.
  destruct Hmove as [i a rest s' Hi Hexec|i prior task heap o Hi Hpop|i Hi Hempty
                    |i a rest s' Hi Hexec|a rest s' Hw Hexec|result save_fp q w Hw Hq
                    |Hw Hq|Hw Ho|Hw Ho|a rest s' Hw Hexec|Hall Hwf Hrep];
    cbn [reported crawlers writer_th]; intros Hrep';
    try (destruct (Hinv Hrep') as [Hts Hwt];
         first [by pose proof (finished_crawlers _ _ _ Hts Hi)
               |by rewrite Hw in Hwt]).
  by split.
Qed.

Lemma run_reported (task_eq task_lt : each_task -> each_task -> bool)
    (max_retry : Z) (format_save_fp : string -> outcome string) (ls : list label) :
  forall sys sys',
    (reported sys = true ->
     forallb finished (crawlers sys) = true /\ w_finished (writer_th sys) = true) ->
    run task_eq task_lt max_retry format_save_fp ls sys = Some sys' ->
    reported sys' = true ->
    forallb finished (crawlers sys') = true /\ w_finished (writer_th sys') = true.
Proof.
  induction ls as [|l ls IH]; intros sys sys' Hinv; cbn [run].
  { by intros [= <-]. }
  destruct (step _ _ _ _ l sys) as [sys1|] eqn:Hstep; [|done].
  apply IH. eapply moved_reported; [done|]. by eapply step_moved.
Qed.

(** X3: a run of [assign_tasks] on a crawler whose lock is free and whose
    registry is empty never gets stuck: until the tally is logged some
    thread can move, whoever holds the lock; once it is logged every
    worker has returned and nothing moves any more. *)
Theorem pool_never_deadlocks (task_eq task_lt : each_task -> each_task -> bool)
    (max_retry : Z) (format_save_fp : string -> outcome string)
    (num_crawler : nat) (s : state) (ls : list label) (sys : system) :
  PBAR_LOCK s = None -> other s = [] ->
  run task_eq task_lt max_retry format_save_fp ls (assign_tasks num_crawler s)
  = Some sys ->
  if reported sys then
    forallb finished (crawlers sys) = true /\ w_finished (writer_th sys) = true /\
    forall l, step task_eq task_lt max_retry format_save_fp l sys = None
  else
    exists l sys', step task_eq task_lt max_retry format_save_fp l sys = Some sys'.
Proof.
  intros Hl Ho Hrun.
  pose proof (run_disciplined _ _ _ _ _ _ _
                (assign_tasks_disciplined num_crawler s Hl Ho) Hrun)
    as (Hts & Hwp & Hwb & Hlock & Hreg).
  destruct (reported sys) eqn:Hrep.
  { assert (Hinit : reported (assign_tasks num_crawler s) = true ->
                     forallb finished (crawlers (assign_tasks num_crawler s)) = true /\
                     w_finished (writer_th (assign_tasks num_crawler s)) = true)
      by (intros [=]).
    destruct (run_reported _ _ _ _ ls _ _ Hinit Hrun Hrep) as [Hfin Hwfin].
    split_and!; [done..|]. intros [i call|w|]; cbn [step].
    - destruct (crawlers sys !! i) as [t|] eqn:Hi; [|done].
      pose proof (finished_crawlers _ _ _ Hfin Hi) as ->. done.
    - by destruct (writer_th sys) as [?| |[|? ?]].
    - by rewrite Hrep, andb_false_r. }
  set (idle_call := answers None None).
  assert (Hcrawler : forall i t a rest,
            crawlers sys !! i = Some t -> crawler_pending t = a :: rest ->
            (exists s', exec task_eq task_lt i a (shared sys) = Some s') ->
            exists l sys', step task_eq task_lt max_retry format_save_fp l sys
                           = Some sys').
  { intros i t a rest Hi Hp [s' Hexec]. exists (crawler_moves i idle_call).
    cbn [step]. rewrite Hi.
    destruct t as [acts|acts]; cbn in Hp; subst acts; cbn [crawler_step];
      rewrite Hexec; eauto. }
  assert (Hwriter : forall a rest,
            writer_pending (writer_th sys) = a :: rest ->
            (exists s', exec task_eq task_lt (length (crawlers sys)) a (shared sys)
                        = Some s') ->
            exists l sys', step task_eq task_lt max_retry format_save_fp l sys
                           = Some sys').
  { intros a rest Hp [s' Hexec]. exists (writer_moves (Returns true)).
    cbn [step].
    destruct (writer_th sys) as [acts| |acts]; cbn in Hp; try done; subst acts;
      cbn [writer_step]; rewrite Hexec; eauto. }
  destruct (PBAR_LOCK (shared sys)) as [k|] eqn:Hheld.
  - (* the holder of the lock can move *)
    specialize (Hlock k eq_refl).
    destruct (decide (k = length (crawlers sys))) as [->|Hne].
    + unfold holds in Hwb. rewrite Hheld, bool_decide_eq_true_2 in Hwb by done.
      destruct (writer_pending (writer_th sys)) as [|a rest] eqn:Hp; [done|].
      eapply Hwriter; [done|]. by eapply exec_held.
    + destruct (lookup_lt_is_Some_2 (crawlers sys) k) as [t Hk]; [lia|].
      destruct (Hts k t Hk) as [_ Hbr].
      unfold holds in Hbr. rewrite Hheld, bool_decide_eq_true_2 in Hbr by done.
      destruct (crawler_pending t) as [|a rest] eqn:Hp; [done|].
      eapply Hcrawler; [done..|]. by eapply exec_held.
  - destruct (forallb finished (crawlers sys)) eqn:Hfin.
    + destruct (w_finished (writer_th sys)) eqn:Hwfin.
      * exists pool_exits. cbn [step]. rewrite Hfin, Hwfin, Hrep. eauto.
      * destruct (writer_th sys) as [[|a rest]| |[|a rest]] eqn:Hw; try done.
        -- exists (writer_moves (Returns true)). cbn [step]. rewrite Hw.
           cbn [writer_step]. destruct (writer (shared sys)) as [|[? ?] ?]; eauto.
        -- cbn [writer_pending plain forallb] in Hwp.
           apply andb_prop in Hwp as [Ha _].
           eapply (Hwriter a rest); [done|]. apply exec_free; [done|].
           left. by intros ->.
        -- exists (writer_moves (Returns true)). cbn [step]. rewrite Hw.
           cbn [writer_step]. destruct (other (shared sys)); eauto.
        -- cbn [writer_pending plain forallb] in Hwp.
           apply andb_prop in Hwp as [Ha _].
           eapply (Hwriter a rest); [done|]. apply exec_free; [done|].
           left. by intros ->.
    + apply unfinished_crawler in Hfin as (i & t & Hi & Hunf).
      destruct (Hts i t Hi) as [Hshape _].
      destruct t as [[|a rest]|[|a rest]]; try done.
      * exists (crawler_moves i idle_call). cbn [step]. rewrite Hi.
        cbn [crawler_step]. destruct (heapq.heappop _ _ _) as [[[? ?] ?]|]; eauto.
      * eapply (Hcrawler i _ a rest); [done..|]. apply exec_free; [done|].
        left. intros ->. done.
      * eapply (Hcrawler i _ a rest); [done..|]. apply exec_free; [done|].
        destruct a; try (left; discriminate).
        right. pose proof (live_registered _ _ _ Hi eq_refl) as Hlive.
        intros Hempty. rewrite Hempty in Hreg. cbn in Hreg. lia.
Qed.

Lemma pool_never_deadlocks_witness :
  exists sys l sys',
    run fieldwise_eq fieldwise_lt 3 data_csv up_to_total_add (assign_tasks 1 seeded)
    = Some sys /\
    step fieldwise_eq fieldwise_lt 3 data_csv l sys = Some sys'.
Proof.
  destruct (run fieldwise_eq fieldwise_lt 3 data_csv up_to_total_add
              (assign_tasks 1 seeded)) as [sys|] eqn:Hrun;
    [|vm_compute in Hrun; discriminate].
  pose proof (pool_never_deadlocks fieldwise_eq fieldwise_lt 3 data_csv 1 seeded
                up_to_total_add sys eq_refl eq_refl Hrun) as Hmove.
  assert (Hrep : reported sys = false).
  { vm_compute in Hrun. injection Hrun as <-. reflexivity. }
  rewrite Hrep in Hmove. destruct Hmove as (l & sys' & Hstep).
  exists sys, l, sys'. split; [reflexivity|exact Hstep].
Defined.

(** ** The bar is never ahead *)

Lemma harmless_owed acts :
  harmless acts = true ->
  0 <= pending_stocks acts /\ 0 <= pending_n acts /\ pending_total acts <= 0.
Proof.
  induction acts as [|a acts IH]; [cbn; lia|].
  destruct a as [e|result save_fp|thread_id| | | |z| |z|r];
    cbn [harmless pending_stocks pending_n pending_total];
    try (intros H; specialize (IH H); lia).
  - intros H. specialize (IH H). destruct (is_fetch e); lia.
  - intros [Hz H]%andb_prop. specialize (IH H). lia.
  - intros [Hz H]%andb_prop. specialize (IH H). lia.
Qed.

Lemma harmless_solvent acts : harmless acts = true -> solvent acts = true.
Proof.
  induction acts as [|a acts IH]; [done|]. intros H.
  cbn [solvent]. apply andb_true_intro. split.
  - pose proof (harmless_owed _ H). unfold owed. lia.
  - apply IH. by destruct a; cbn [harmless] in H; try apply andb_prop in H as [_ H].
Qed.

Lemma harmless_stock_puts (result : list string) rest :
  harmless (map (fun stk_id => crawler_put (0, mk_task get_stock [PStr stk_id] 0)) result
            ++ rest)
  = harmless rest.
Proof. induction result as [|stk_id result IH]; [done|]. exact IH. Qed.

Lemma solvent_owed acts : solvent acts = true -> 0 <= owed acts.
Proof.
  destruct acts as [|a acts]; [by cbn|]. cbn [solvent].
  intros [H _]%andb_prop. lia.
Qed.

Lemma solvent_tail a acts : solvent (a :: acts) = true -> solvent acts = true.
Proof. cbn [solvent]. by intros [_ H]%andb_prop. Qed.

(** A turn of [do_task] counts the stocks in [total] before it puts them. *)
Lemma do_task_iter_solvent (max_retry : Z) (format_save_fp : string -> outcome string)
    (prior : Z) (task : each_task) (o : call_outcome (func task)) :
  solvent (effects (do_task_iter max_retry format_save_fp prior task o)) = true.
Proof.
  destruct task as [f a t]. cbn [func] in o.
  destruct o as [[result|]|exc]; cbn [do_task_iter].
  - unfold bump. destruct f; cbn [dispatch func].
    + rewrite (proj1 (handled_fan_out _ _ _)). cbn [args].
      destruct result as [|stk_id result]; [done|].
      set (puts := map _ (stk_id :: result)).
      set (tail := match a with [] => _ | _ => _ end).
      assert (Hh : harmless (puts ++ tail) = true).
      { subst puts. rewrite harmless_stock_puts. subst tail.
        by destruct a as [|[?|?] ?]. }
      pose proof (harmless_owed _ Hh) as (Hs & Hn & Ht).
      assert (Howed : owed (puts ++ tail) >= Z.of_nat (length (stk_id :: result))).
      { unfold owed. subst puts. clear -Hn Ht.
        assert (forall l rest,
                  pending_stocks
                    (map (fun stk_id => crawler_put (0, mk_task get_stock [PStr stk_id] 0)) l
                     ++ rest)
                  = Z.of_nat (length l) + pending_stocks rest) as ->.
        { induction l as [|x l IH]; intros rest; [cbn; lia|].
          cbn [map app pending_stocks is_fetch snd func length]. rewrite IH. lia. }
        assert (0 <= pending_stocks tail); [|lia].
        subst tail. destruct a as [|[?|?] ?]; cbn; lia. }
      cbn [app solvent]. unfold owed in *.
      cbn [pending_stocks pending_n pending_total].
      apply andb_true_intro; split; [lia|].
      apply andb_true_intro; split; [lia|].
      apply (harmless_solvent (refresh :: release :: puts ++ tail)). exact Hh.
    + rewrite (proj1 (handled_forward _ _ _ _)). cbn [args]. apply harmless_solvent.
      destruct a as [|[?|?] ?]; try done.
      destruct (format_save_fp _) as [?|exc]; [done|]. by destruct (is_Empty exc).
  - cbn [handled raised performed effects]. unfold retry. apply harmless_solvent.
    by destruct (_ >=? _).
  - unfold handled. cbn [raised performed]. apply harmless_solvent.
    by destruct (is_Empty exc).
Qed.

Lemma write_result_iter_solvent result save_fp w :
  solvent (write_result_iter result save_fp w) = true.
Proof.
  unfold write_result_iter. apply harmless_solvent.
  destruct (empty result), w as [[|]|exc]; try done. by destruct (is_Empty exc).
Qed.

Lemma owed_by_nonneg ts :
  (forall i t, ts !! i = Some t -> solvent (crawler_pending t) = true) ->
  0 <= owed_by ts.
Proof.
  induction ts as [|x ts IH]; intros H; cbn [owed_by]; [lia|].
  pose proof (solvent_owed _ (H 0%nat x eq_refl)).
  assert (0 <= owed_by ts); [|lia].
  apply IH. intros i t Hi. by apply (H (S i)).
Qed.

Lemma moved_solvent (task_eq task_lt : each_task -> each_task -> bool)
    (max_retry : Z) (format_save_fp : string -> outcome string) (sys sys' : system) :
  all_solvent sys ->
  moved task_eq task_lt max_retry format_save_fp sys sys' ->
  all_solvent sys'.
Proof.
  intros [Hts Hwt] Hmove. unfold all_solvent.
  destruct Hmove as [i a rest s' Hi Hexec|i prior task heap o Hi Hpop|i Hi Hempty
                    |i a rest s' Hi Hexec|a rest s' Hw Hexec|result save_fp q w Hw Hq
                    |Hw Hq|Hw Ho|Hw Ho|a rest s' Hw Hexec|Hall Hwf Hrep];
    cbn [crawlers writer_th]; (split; [|try done]);
    try (intros j tj [(<- & <- & _)|[Hne Hj]]%list_lookup_insert_Some;
         [|exact (Hts _ _ Hj)]; cbn [crawler_pending]);
    try done.
  - apply (solvent_tail a). exact (Hts i _ Hi).
  - destruct (do_task_next_cases max_retry format_save_fp i prior task o)
      as [[_ ->]|(_ & _ & ->)]; [|done].
    apply do_task_iter_solvent.
  - apply (solvent_tail a). exact (Hts i _ Hi).
  - rewrite Hw in Hwt. by apply (solvent_tail a).
  - destruct (write_result_next_cases result save_fp w) as [->|(_ & _ & _ & ->)];
      [|done].
    apply write_result_iter_solvent.
  - rewrite Hw in Hwt. by apply (solvent_tail a).
Qed.

Lemma run_solvent (task_eq task_lt : each_task -> each_task -> bool)
    (max_retry : Z) (format_save_fp : string -> outcome string) (ls : list label) :
  forall sys sys',
    all_solvent sys ->
    run task_eq task_lt max_retry format_save_fp ls sys = Some sys' ->
    all_solvent sys'.
Proof.
  induction ls as [|l ls IH]; intros sys sys' Hinv; cbn [run].
  { by intros [= <-]. }
  destruct (step _ _ _ _ l sys) as [sys1|] eqn:Hstep; [|done].
  apply IH. eapply moved_solvent; [done|]. by eapply step_moved.
Qed.

Lemma assign_tasks_solvent num_crawler s : all_solvent (assign_tasks num_crawler s).
Proof.
  split; [|done]. intros i t [j [-> _]]%list_lookup_fmap_Some. done.
Qed.

(** X4: at every moment of a run of [assign_tasks] on a crawler whose bar
    agrees with its queues, [total] is [n] plus the stocks in flight plus
    the stocks refused by [write], dropped at the limit of retries or lost
    to an exception; nothing in flight is negative, so [n <= total]: the
    bar never shows more stocks saved than expected. *)
Theorem bar_is_never_ahead (task_eq task_lt : each_task -> each_task -> bool)
    (max_retry : Z) (format_save_fp : string -> outcome string)
    (num_crawler : nat) (s : state) (ls : list label) (sys : system) :
  balanced s ->
  run task_eq task_lt max_retry format_save_fp ls (assign_tasks num_crawler s)
  = Some sys ->
  n (shared sys) <= total (shared sys) /\
  0 <= in_flight sys /\
  total (shared sys)
  = n (shared sys) + in_flight sys
    + count persistence_failure sys
    + count (dropped_fetch max_retry) sys
    + count (lost_to_exception format_save_fp) sys.
Proof.
  intros Hbal Hrun.
  pose proof (run_ledger task_eq task_lt max_retry format_save_fp ls _ _
                (assign_tasks_ledger max_retry format_save_fp num_crawler s Hbal) Hrun)
    as Hledger.
  destruct (run_solvent _ _ _ _ ls _ _ (assign_tasks_solvent num_crawler s) Hrun)
    as [Hts Hwt].
  assert (Hflight : 0 <= in_flight sys).
  { unfold in_flight, queued_fetch.
    pose proof (owed_by_nonneg _ Hts). pose proof (solvent_owed _ Hwt). lia. }
  pose proof (count_nonneg persistence_failure sys).
  pose proof (count_nonneg (dropped_fetch max_retry) sys).
  pose proof (count_nonneg (lost_to_exception format_save_fp) sys).
  unfold ledger in Hledger. split_and!; [lia|done|done].
Qed.

Lemma bar_is_never_ahead_witness :
  exists sys,
    run fieldwise_eq fieldwise_lt 3 data_csv up_to_total_add (assign_tasks 1 seeded)
    = Some sys /\
    n (shared sys) <= total (shared sys).
Proof.
  destruct (run fieldwise_eq fieldwise_lt 3 data_csv up_to_total_add
              (assign_tasks 1 seeded)) as [sys|] eqn:Hrun;
    [|vm_compute in Hrun; discriminate].
  destruct (bar_is_never_ahead fieldwise_eq fieldwise_lt 3 data_csv 1 seeded
              up_to_total_add sys) as (Hle & _); [reflexivity|exact Hrun|].
  exists sys. split; [reflexivity|exact Hle].
Defined.

(** ** Priorities and tries *)

Lemma crawler_puts_app a b : crawler_puts (a ++ b) = crawler_puts a ++ crawler_puts b.
Proof.
  induction a as [|x a IH]; [done|]. destruct x; cbn [app crawler_puts]; by rewrite ?IH.
Qed.

Lemma crawler_puts_stock_puts (result : list string) :
  crawler_puts
    (map (fun stk_id => crawler_put (0, mk_task get_stock [PStr stk_id] 0)) result)
  = map (fun stk_id => (0, mk_task get_stock [PStr stk_id] 0)) result.
Proof. induction result as [|x l IH]; [done|]. cbn [map crawler_puts]. by rewrite IH. Qed.

(** What a turn puts on the crawler queue is ranked if what it took was. *)
Lemma do_task_iter_ranked (max_retry : Z) (format_save_fp : string -> outcome string)
    (prior : Z) (task : each_task) (o : call_outcome (func task)) :
  ranked max_retry (prior, task) ->
  Forall (ranked max_retry)
    (crawler_puts (effects (do_task_iter max_retry format_save_fp prior task o))).
Proof.
  unfold ranked, is_fetch. cbn [fst snd]. intros [Hprior Htries].
  destruct task as [f a t]. cbn [func tries] in *.
  destruct o as [[result|]|exc]; cbn [do_task_iter];
    [| |unfold handled; cbn [raised performed]; destruct (is_Empty exc); by constructor].
  - unfold bump. destruct f; cbn [dispatch func].
    + rewrite (proj1 (handled_fan_out _ _ _)). cbn [args].
      destruct result as [|stk_id result]; [constructor|].
      cbn [app crawler_puts]. rewrite crawler_puts_app, crawler_puts_stock_puts.
      apply Forall_app. split.
      * apply Forall_forall. intros e (x & -> & _)%list_elem_of_fmap.
        cbn [fst snd func tries]. split; [lia|by left].
      * destruct a as [|[page_num|?] ?]; cbn [crawler_puts caught]; constructor;
          [|constructor]. cbn [fst snd func tries]. split; [lia|by left].
    + rewrite (proj1 (handled_forward _ _ _ _)). cbn [args].
      destruct a as [|[?|?] ?]; try constructor.
      destruct (format_save_fp _) as [?|exc]; [constructor|].
      destruct (is_Empty exc); constructor.
  - cbn [handled raised performed effects]. unfold retry, bump. cbn [tries func args].
    destruct (Z.geb_spec (t + 1) max_retry); cbn [crawler_puts]; constructor;
      [|constructor].
    cbn [fst snd func tries]. split; [destruct f; lia|right; lia].
Qed.

Lemma write_result_iter_no_puts result save_fp w :
  crawler_puts (write_result_iter result save_fp w) = [].
Proof.
  unfold write_result_iter. destruct (empty result), w as [[|]|exc]; try done.
  by destruct (is_Empty exc).
Qed.

Section Ranks.

Variable task_eq : each_task -> each_task -> bool.
Variable task_lt : each_task -> each_task -> bool.
Variable max_retry : Z.
Variable format_save_fp : string -> outcome string.

(** An operation that is not a [put] on the crawler queue leaves it alone. *)
Lemma exec_crawler k a s s' :
  exec task_eq task_lt k a s = Some s' ->
  crawler s' = match a with
               | crawler_put e => heapq.heappush task_eq task_lt (crawler s) e
               | _ => crawler s
               end.
Proof.
  destruct a as [e|result save_fp|thread_id| | | |z| |z|r]; cbn [exec];
    try (by intros [= <-]).
  - destruct (other s) as [|registered others]; [done|]. by intros [= <-].
  - destruct (PBAR_LOCK s); [done|]. by intros [= <-].
Qed.

Lemma exec_ranked k a rest s s' :
  exec task_eq task_lt k a s = Some s' ->
  heap_ok (crawler s) -> Forall (ranked max_retry) (crawler s) ->
  Forall (ranked max_retry) (crawler_puts (a :: rest)) ->
  heap_ok (crawler s') /\ Forall (ranked max_retry) (crawler s') /\
  Forall (ranked max_retry) (crawler_puts rest).
Proof.
  intros Hexec Hok Hall Hputs. rewrite (exec_crawler _ _ _ _ Hexec).
  destruct a; cbn [crawler_puts] in Hputs; try done.
  apply Forall_cons in Hputs as [He Hrest].
  split_and!; [by apply heappush_ok| |done].
  rewrite heappush_perm. by constructor.
Qed.

Lemma moved_ranked sys sys' :
  all_ranked max_retry sys ->
  moved task_eq task_lt max_retry format_save_fp sys sys' ->
  all_ranked max_retry sys'.
Proof.
  intros (Hok & Hall & Hts & Hwt) Hmove. unfold all_ranked.
  destruct Hmove as [i a rest s' Hi Hexec|i prior task heap o Hi Hpop|i Hi Hempty
                    |i a rest s' Hi Hexec|a rest s' Hw Hexec|result save_fp q w Hw Hq
                    |Hw Hq|Hw Ho|Hw Ho|a rest s' Hw Hexec|Hall' Hwf Hrep];
    cbn [shared crawlers writer_th crawler with_crawler with_writer].
  - destruct (exec_ranked _ _ rest _ _ Hexec Hok Hall (Hts _ _ Hi)) as (? & ? & ?).
    split_and!; try done.
    intros j tj [(<- & <- & _)|[Hne Hj]]%list_lookup_insert_Some;
      [done|exact (Hts _ _ Hj)].
  - pose proof (heappop_perm _ _ _ _ _ Hpop) as Hp.
    rewrite Hp in Hall. apply Forall_cons in Hall as [He Hheap].
    split_and!; [by eapply heappop_ok|done| |done].
    intros j tj [(<- & <- & _)|[Hne Hj]]%list_lookup_insert_Some;
      [|exact (Hts _ _ Hj)].
    destruct (do_task_next_cases max_retry format_save_fp i prior task o)
      as [[_ ->]|(_ & _ & ->)]; [|constructor].
    by apply do_task_iter_ranked.
  - split_and!; try done.
    intros j tj [(<- & <- & _)|[Hne Hj]]%list_lookup_insert_Some;
      [constructor|exact (Hts _ _ Hj)].
  - destruct (exec_ranked _ _ rest _ _ Hexec Hok Hall (Hts _ _ Hi)) as (? & ? & ?).
    split_and!; try done.
    intros j tj [(<- & <- & _)|[Hne Hj]]%list_lookup_insert_Some;
      [done|exact (Hts _ _ Hj)].
  - rewrite Hw in Hwt. cbn [writer_pending] in *.
    assert (Hputs : Forall (ranked max_retry) (crawler_puts (a :: rest)))
      by (rewrite Hwt; constructor).
    destruct (exec_ranked _ _ rest _ _ Hexec Hok Hall Hputs) as (? & ? & ?).
    split_and!; try done. by destruct a.
  - split_and!; try done.
    destruct (write_result_next_cases result save_fp w) as [->|(_ & _ & _ & ->)];
      [|done].
    apply write_result_iter_no_puts.
  - by split_and!.
  - by split_and!.
  - by split_and!.
  - rewrite Hw in Hwt. cbn [writer_pending] in *.
    assert (Hputs : Forall (ranked max_retry) (crawler_puts (a :: rest)))
      by (rewrite Hwt; constructor).
    destruct (exec_ranked _ _ rest _ _ Hexec Hok Hall Hputs) as (? & ? & ?).
    split_and!; try done. by destruct a.
  - by split_and!.
Qed.

Lemma run_ranked ls : forall sys sys',
  all_ranked max_retry sys ->
  run task_eq task_lt max_retry format_save_fp ls sys = Some sys' ->
  all_ranked max_retry sys'.
Proof.
  induction ls as [|l ls IH]; intros sys sys' Hinv; cbn [run].
  { by intros [= <-]. }
  destruct (step _ _ _ _ l sys) as [sys1|] eqn:Hstep; [|done].
  apply IH. eapply moved_ranked; [done|]. by eapply step_moved.
Qed.

Lemma assign_tasks_ranked num_crawler s :
  heap_ok (crawler s) -> Forall (ranked max_retry) (crawler s) ->
  all_ranked max_retry (assign_tasks num_crawler s).
Proof.
  intros Hok Hall. split_and!; try done.
  intros i t [j [-> _]]%list_lookup_fmap_Some. constructor.
Qed.

End Ranks.

(** X5: in a run of [assign_tasks] on a crawler whose queue is a heap of
    ranked entries (one seeded with tasks that were never tried, at
    priority 0 for [get_stock] and 1 for [get_list]), every queued entry
    has priority [2 * tries] for a [get_stock] task and [2 * tries + 1] for
    a [get_list] task, with [tries] below [max_retry] once it is not 0. So
    two queued entries of one priority carry the same method and the same
    number of tries. *)
Theorem priorities_follow_tries (task_eq task_lt : each_task -> each_task -> bool)
    (max_retry : Z) (format_save_fp : string -> outcome string)
    (num_crawler : nat) (s : state) (ls : list label) (sys : system) :
  heap_ok (crawler s) -> Forall (ranked max_retry) (crawler s) ->
  run task_eq task_lt max_retry format_save_fp ls (assign_tasks num_crawler s)
  = Some sys ->
  (forall e, e ∈ crawler (shared sys) ->
     fst e = 2 * tries (snd e) + (if is_fetch e then 0 else 1) /\
     (tries (snd e) = 0 \/ 0 < tries (snd e) < max_retry)) /\
  (forall e1 e2, e1 ∈ crawler (shared sys) -> e2 ∈ crawler (shared sys) ->
     fst e1 = fst e2 ->
     func (snd e1) = func (snd e2) /\ tries (snd e1) = tries (snd e2)).
Proof.
  intros Hok Hall Hrun.
  destruct (run_ranked _ _ _ _ ls _ _
              (assign_tasks_ranked max_retry num_crawler s Hok Hall) Hrun)
    as (_ & Hq & _).
  rewrite Forall_forall in Hq. split; [exact Hq|].
  intros e1 e2 [H1 _]%Hq [H2 _]%Hq Heq. unfold is_fetch in *.
  destruct (func (snd e1)), (func (snd e2)); split; try done; lia.
Qed.

Lemma priorities_follow_tries_witness :
  exists sys,
    run fieldwise_eq fieldwise_lt 3 data_csv up_to_retried_stock (assign_tasks 1 seeded)
    = Some sys /\
    (2, mk_task get_stock [PStr "1.600000"] 1) ∈ crawler (shared sys) /\
    forall e, e ∈ crawler (shared sys) ->
      fst e = 2 * tries (snd e) + (if is_fetch e then 0 else 1).
Proof.
  destruct (run fieldwise_eq fieldwise_lt 3 data_csv up_to_retried_stock
              (assign_tasks 1 seeded)) as [sys|] eqn:Hrun;
    [|vm_compute in Hrun; discriminate].
  assert (Hseed : heap_ok (crawler seeded) /\ Forall (ranked 3) (crawler seeded)).
  { split.
    - intros [|i] x y Hi Hx Hy; [lia|]. by destruct i.
    - repeat constructor. }
  destruct Hseed as [Hok Hall].
  destruct (priorities_follow_tries fieldwise_eq fieldwise_lt 3 data_csv 1 seeded
              up_to_retried_stock sys Hok Hall Hrun) as [Hrank _].
  exists sys. split; [reflexivity|]. split.
  - vm_compute in Hrun. injection Hrun as <-. cbn. right. left.
  - intros e He. exact (proj1 (Hrank e He)).
Defined.

(** X6: in such a run, when a crawler takes a [get_list] task off the
    queue, every [get_stock] task still queued has been tried more often
    than it: the next page waits for every stock that was never tried. *)
Theorem stocks_before_next_page (task_eq task_lt : each_task -> each_task -> bool)
    (max_retry : Z) (format_save_fp : string -> outcome string)
    (num_crawler : nat) (s : state) (ls : list label) (sys : system)
    (prior : Z) (task : each_task) (heap : list entry) :
  heap_ok (crawler s) -> Forall (ranked max_retry) (crawler s) ->
  run task_eq task_lt max_retry format_save_fp ls (assign_tasks num_crawler s)
  = Some sys ->
  heapq.heappop task_eq task_lt (crawler (shared sys)) = Some ((prior, task), heap) ->
  func task = get_list ->
  forall x, x ∈ heap -> is_fetch x = true -> tries task < tries (snd x).
Proof.
  intros Hok Hall Hrun Hpop Hlist x Hx Hfetch.
  destruct (run_ranked _ _ _ _ ls _ _
              (assign_tasks_ranked max_retry num_crawler s Hok Hall) Hrun)
    as (Hheap & Hq & _).
  pose proof (heappop_perm _ _ _ _ _ Hpop) as Hp.
  rewrite Forall_forall in Hq.
  assert (Hin : x ∈ crawler (shared sys)) by (rewrite Hp; by right).
  assert (Htask : (prior, task) ∈ crawler (shared sys)) by (rewrite Hp; by left).
  pose proof (heappop_min _ _ _ _ _ x Hheap Hpop Hin) as Hmin.
  destruct (Hq _ Hin) as [Hrx _]. destruct (Hq _ Htask) as [Hrt _].
  rewrite Hfetch in Hrx. unfold is_fetch in Hrt. cbn [fst snd] in *.
  rewrite Hlist in Hrt. lia.
Qed.

Lemma stocks_before_next_page_witness :
  exists sys heap,
    run fieldwise_eq fieldwise_lt 3 data_csv up_to_retried_stock (assign_tasks 1 seeded)
    = Some sys /\
    heapq.heappop fieldwise_eq fieldwise_lt (crawler (shared sys))
    = Some ((1, mk_task get_list [PInt 1] 0), heap) /\
    forall x, x ∈ heap -> is_fetch x = true -> 0 < tries (snd x).
Proof.
  destruct (run fieldwise_eq fieldwise_lt 3 data_csv up_to_retried_stock
              (assign_tasks 1 seeded)) as [sys|] eqn:Hrun;
    [|vm_compute in Hrun; discriminate].
  assert (Hseed : heap_ok (crawler seeded) /\ Forall (ranked 3) (crawler seeded)).
  { split.
    - intros [|i] x y Hi Hx Hy; [lia|]. by destruct i.
    - repeat constructor. }
  destruct Hseed as [Hok Hall].
  destruct (heapq.heappop fieldwise_eq fieldwise_lt (crawler (shared sys)))
    as [[[prior task] heap]|] eqn:Hpop;
    [|vm_compute in Hrun; injection Hrun as <-; vm_compute in Hpop; discriminate].
  assert (Htask : prior = 1 /\ task = mk_task get_list [PInt 1] 0).
  { vm_compute in Hrun. injection Hrun as <-. vm_compute in Hpop.
    injection Hpop as <- <- _. done. }
  destruct Htask as [-> ->].
  exists sys, heap. split; [reflexivity|]. split; [exact Hpop|].
  exact (stocks_before_next_page fieldwise_eq fieldwise_lt 3 data_csv 1 seeded
           up_to_retried_stock sys 1 (mk_task get_list [PInt 1] 0) heap
           Hok Hall Hrun Hpop eq_refl).
Defined.

(** ** One page at a time *)

Lemma queued_lists_perm h h' : h ≡ₚ h' -> queued_lists h = queued_lists h'.
Proof. intros Hp. unfold queued_lists. by rewrite Hp. Qed.

Lemma queued_lists_cons e h :
  queued_lists (e :: h) = (if is_fetch e then 0 else 1) + queued_lists h.
Proof.
  unfold queued_lists. rewrite filter_cons.
  destruct (is_fetch e); case_decide; try done; cbn [length]; lia.
Qed.

Lemma pending_lists_app a b : pending_lists (a ++ b) = pending_lists a + pending_lists b.
Proof.
  induction a as [|x a IH]; [cbn; lia|].
  destruct x; cbn [app pending_lists]; lia.
Qed.

Lemma pending_lists_stock_puts (result : list string) :
  pending_lists
    (map (fun stk_id => crawler_put (0, mk_task get_stock [PStr stk_id] 0)) result)
  = 0.
Proof. induction result as [|x l IH]; [done|]. exact IH. Qed.

(** A turn puts at most the one [get_list] task it took, or its successor,
    and none when it took a [get_stock] task. *)
Lemma do_task_iter_pages (max_retry : Z) (format_save_fp : string -> outcome string)
    (prior : Z) (task : each_task) (o : call_outcome (func task)) :
  0 <= pending_lists (effects (do_task_iter max_retry format_save_fp prior task o))
    <= (if is_fetch (prior, task) then 0 else 1).
Proof.
  destruct task as [f a t]. cbn [func] in o. unfold is_fetch. cbn [snd func].
  destruct o as [[result|]|exc]; cbn [do_task_iter].
  - unfold bump. destruct f; cbn [dispatch func].
    + rewrite (proj1 (handled_fan_out _ _ _)). cbn [args].
      destruct result as [|stk_id result]; [cbn; lia|].
      rewrite !pending_lists_app, pending_lists_stock_puts.
      destruct a as [|[?|?] ?]; cbn; lia.
    + rewrite (proj1 (handled_forward _ _ _ _)). cbn [args].
      destruct a as [|[?|?] ?]; try (cbn; lia).
      destruct (format_save_fp _) as [?|exc]; [cbn; lia|].
      destruct (is_Empty exc); cbn; lia.
  - cbn [handled raised performed effects]. unfold retry, bump. cbn [tries func args].
    destruct (_ >=? _); destruct f; cbn; lia.
  - unfold handled. cbn [raised performed].
    destruct (is_Empty exc); destruct f; cbn; lia.
Qed.

Lemma lists_held_insert ts i t t' :
  ts !! i = Some t ->
  lists_held (<[i := t']> ts)
  = lists_held ts - pending_lists (crawler_pending t)
    + pending_lists (crawler_pending t').
Proof.
  revert i. induction ts as [|x ts IH]; intros [|i] Hi; simplify_eq/=; [lia|].
  rewrite (IH i Hi). lia.
Qed.

Section Pages.

Variable task_eq : each_task -> each_task -> bool.
Variable task_lt : each_task -> each_task -> bool.
Variable max_retry : Z.
Variable format_save_fp : string -> outcome string.

Lemma exec_pages k a rest s s' :
  exec task_eq task_lt k a s = Some s' ->
  queued_lists (crawler s') + pending_lists rest
  = queued_lists (crawler s) + pending_lists (a :: rest).
Proof.
  intros Hexec. rewrite (exec_crawler _ _ _ _ _ _ Hexec).
  destruct a; cbn [pending_lists]; try done.
  rewrite (queued_lists_perm _ _ (heappush_perm task_eq task_lt (crawler s) e)).
  rewrite queued_lists_cons. lia.
Qed.

(** No move adds a page to those of the run. *)
Lemma moved_pages sys sys' :
  moved task_eq task_lt max_retry format_save_fp sys sys' ->
  pages_out sys' <= pages_out sys.
Proof.
  intros Hmove. unfold pages_out.
  destruct Hmove as [i a rest s' Hi Hexec|i prior task heap o Hi Hpop|i Hi Hempty
                    |i a rest s' Hi Hexec|a rest s' Hw Hexec|result save_fp q w Hw Hq
                    |Hw Hq|Hw Ho|Hw Ho|a rest s' Hw Hexec|Hall' Hwf Hrep];
    cbn [shared crawlers writer_th crawler with_crawler with_writer].
  - rewrite (lists_held_insert _ _ _ _ Hi). cbn [crawler_pending].
    pose proof (exec_pages _ _ rest _ _ Hexec). lia.
  - rewrite (lists_held_insert _ _ _ _ Hi). cbn [crawler_pending pending_lists].
    pose proof (queued_lists_perm _ _ (heappop_perm _ _ _ _ _ Hpop)) as Hq.
    rewrite queued_lists_cons in Hq.
    pose proof (do_task_iter_pages max_retry format_save_fp prior task o).
    destruct (do_task_next_cases max_retry format_save_fp i prior task o)
      as [[_ ->]|(_ & He & ->)]; cbn [crawler_pending pending_lists];
      [lia|rewrite He in *; cbn [pending_lists] in *; lia].
  - rewrite (lists_held_insert _ _ _ _ Hi). cbn [crawler_pending pending_lists]. lia.
  - rewrite (lists_held_insert _ _ _ _ Hi). cbn [crawler_pending].
    pose proof (exec_pages _ _ rest _ _ Hexec). lia.
  - rewrite Hw. cbn [writer_pending].
    pose proof (exec_pages _ _ rest _ _ Hexec). lia.
  - rewrite Hw. cbn [writer_pending pending_lists].
    assert (pending_lists (writer_pending (write_result_next result save_fp w)) = 0)
      as ->; [|lia].
    destruct (write_result_next_cases result save_fp w) as [->|(_ & _ & _ & ->)];
      [|done].
    cbn [writer_pending]. unfold write_result_iter.
    destruct (empty result), w as [[|]|exc]; try done. by destruct (is_Empty exc).
  - rewrite Hw. cbn [writer_pending pending_lists]. lia.
  - rewrite Hw. cbn [writer_pending pending_lists]. lia.
  - rewrite Hw. cbn [writer_pending pending_lists]. lia.
  - rewrite Hw. cbn [writer_pending].
    pose proof (exec_pages _ _ rest _ _ Hexec). lia.
  - lia.
Qed.

Lemma run_pages ls : forall sys sys',
  run task_eq task_lt max_retry format_save_fp ls sys = Some sys' ->
  pages_out sys' <= pages_out sys.
Proof.
  induction ls as [|l ls IH]; intros sys sys'; cbn [run].
  { intros [= <-]. lia. }
  destruct (step _ _ _ _ l sys) as [sys1|] eqn:Hstep; [|done].
  intros Hrun. specialize (IH _ _ Hrun).
  pose proof (moved_pages _ _ (step_moved _ _ _ _ _ _ _ Hstep)). lia.
Qed.

Lemma lists_held_starting k m :
  lists_held (map (fun i => in_loop [other_put i;
                                     logging (info "Crawler Thread %d starts..."
                                                [LInt (Z.of_nat i)])])
                (seq k m)) = 0.
Proof.
  revert k. induction m as [|m IH]; intros k; [done|].
  cbn [seq map lists_held crawler_pending pending_lists]. rewrite IH. reflexivity.
Qed.

Lemma lists_held_nonneg ts : 0 <= lists_held ts.
Proof.
  assert (forall acts, 0 <= pending_lists acts).
  { induction acts as [|a acts IH]; cbn; [lia|].
    destruct a; try done. destruct (is_fetch e); lia. }
  induction ts as [|t ts IH]; cbn [lists_held]; [lia|].
  specialize (H (crawler_pending t)). lia.
Qed.

End Pages.

(** X7: a run of [assign_tasks] never holds more [get_list] tasks, queued
    or about to be put, than the crawler queue held at the start. Seeded
    with one page, the crawl has at most one page task at any moment. *)
Theorem one_page_at_a_time (task_eq task_lt : each_task -> each_task -> bool)
    (max_retry : Z) (format_save_fp : string -> outcome string)
    (num_crawler : nat) (s : state) (ls : list label) (sys : system) :
  run task_eq task_lt max_retry format_save_fp ls (assign_tasks num_crawler s)
  = Some sys ->
  pages_out sys <= queued_lists (crawler s) /\
  queued_lists (crawler (shared sys)) <= queued_lists (crawler s).
Proof.
  intros Hrun. pose proof (run_pages _ _ _ _ ls _ _ Hrun) as Hle.
  assert (Hinit : pages_out (assign_tasks num_crawler s) = queued_lists (crawler s)).
  { unfold pages_out, assign_tasks.
    cbn [shared crawlers writer_th crawler writer_pending pending_lists].
    rewrite lists_held_starting. lia. }
  rewrite Hinit in Hle. split; [done|].
  unfold pages_out in Hle.
  pose proof (lists_held_nonneg (crawlers sys)).
  assert (0 <= pending_lists (writer_pending (writer_th sys))); [|lia].
  generalize (writer_pending (writer_th sys)).
  induction l as [|a acts IH]; cbn; [lia|].
  destruct a; try done. destruct (is_fetch e); lia.
Qed.

Lemma one_page_at_a_time_witness :
  exists sys,
    run fieldwise_eq fieldwise_lt 3 data_csv up_to_next_page (assign_tasks 1 seeded)
    = Some sys /\
    queued_lists (crawler (shared sys)) <= 1.
Proof.
  destruct (run fieldwise_eq fieldwise_lt 3 data_csv up_to_next_page
              (assign_tasks 1 seeded)) as [sys|] eqn:Hrun;
    [|vm_compute in Hrun; discriminate].
  destruct (one_page_at_a_time fieldwise_eq fieldwise_lt 3 data_csv 1 seeded
              up_to_next_page sys Hrun) as [_ Hle].
  exists sys. split; [reflexivity|exact Hle].
Defined.

(** ** The two bound methods *)

Lemma bind_Returns {A B} (o : outcome A) (k : A -> outcome B) (r : B) :
  o ≫= k = Returns r <-> exists x, o = Returns x /\ k x = Returns r.
Proof.
  destruct o as [x|exc]; cbn; split.
  - intros H. by exists x.
  - intros (? & ? & ?). by simplify_eq.
  - done.
  - by intros (? & ? & _).
Qed.

Lemma bind_Raises {A B} (o : outcome A) (k : A -> outcome B) (exc : string) :
  o ≫= k = Raises exc
  <-> o = Raises exc \/ exists x, o = Returns x /\ k x = Raises exc.
Proof.
  destruct o as [x|exc']; cbn; split.
  - intros H. right. by exists x.
  - intros [?|(? & ? & ?)]; by simplify_eq.
  - intros [= ->]. by left.
  - intros [[= ->]|(? & ? & _)]; done.
Qed.

(** A comprehension returns when every item does, item by item in order. *)
Lemma mapM_Returns {A B} (f : A -> outcome B) (l : list A) (k : list B) :
  mapM f l = Returns k <-> Forall2 (fun x y => f x = Returns y) l k.
Proof.
  revert k. induction l as [|x l IH]; intros k; cbn.
  - split; [intros [= <-]; constructor|by intros ->%Forall2_nil_inv_l].
  - rewrite bind_Returns. split.
    + intros (y & Hy & (k' & Hk' & [= <-])%bind_Returns).
      constructor; [done|]. by apply IH.
    + intros (y & k' & Hy & Hk' & ->)%Forall2_cons_inv_l.
      exists y. split; [done|]. apply bind_Returns. exists k'.
      split; [by apply IH|done].
Qed.

(** It raises what the first item to raise does. *)
Lemma mapM_Raises {A B} (f : A -> outcome B) (l : list A) (exc : string) :
  mapM f l = Raises exc -> exists x, x ∈ l /\ f x = Raises exc.
Proof.
  induction l as [|x l IH]; cbn; [done|].
  intros [Hx|(y & Hy & [Hl|(k & _ & [=])]%bind_Raises)]%bind_Raises.
  - exists x. split; [left|done].
  - destruct (IH Hl) as (x' & ? & ?). exists x'. split; [by right|done].
Qed.

Lemma getitem_Returns (v : json) (key : string) (x : json) :
  py.getitem v key = Returns x
  <-> exists fields, v = JDict fields /\ py.assoc key fields = Some x.
Proof.
  split.
  - destruct v as [| | | | | |fields]; cbn; try done.
    destruct (py.assoc key fields) eqn:E; [|done]. intros [= <-]. by exists fields.
  - intros (fields & -> & E). cbn. by rewrite E.
Qed.

Lemma getitem_Raises (v : json) (key exc : string) :
  py.getitem v key = Raises exc -> exc = "KeyError" \/ exc = "TypeError".
Proof.
  destruct v as [| | | | | |fields]; cbn; try (intros [= <-]; by right).
  destruct (py.assoc key fields); [done|]. intros [= <-]. by left.
Qed.

Lemma iter_Raises (v : json) (exc : string) :
  py.iter v = Raises exc -> exc = "TypeError".
Proof. by destruct v; cbn; intros [= <-]. Qed.

Lemma stock_code_Returns (repr : json -> string) (each : json) (code : string) :
  AShareCrawler.stock_code repr each = Returns code
  <-> exists entry f13 f12,
        each = JDict entry /\ py.assoc "f13" entry = Some f13 /\
        py.assoc "f12" entry = Some f12 /\
        code = py.str repr f13 +:+ "." +:+ py.str repr f12.
Proof.
  unfold AShareCrawler.stock_code. rewrite bind_Returns. split.
  - intros (f13 & (entry & -> & H13)%getitem_Returns
                & (f12 & (entry' & [= <-] & H12)%getitem_Returns & [= <-])%bind_Returns).
    by exists entry, f13, f12.
  - intros (entry & f13 & f12 & -> & H13 & H12 & ->).
    exists f13. split; [by apply getitem_Returns; exists entry|].
    apply bind_Returns. exists f12. split; [by apply getitem_Returns; exists entry|done].
Qed.

Lemma stock_code_Raises (repr : json -> string) (each : json) (exc : string) :
  AShareCrawler.stock_code repr each = Raises exc ->
  exc = "KeyError" \/ exc = "TypeError".
Proof.
  unfold AShareCrawler.stock_code.
  intros [H|(f13 & _ & [H|(f12 & _ & [=])]%bind_Raises)]%bind_Raises;
    by eapply getitem_Raises.
Qed.

(** What iterating gives when it is not the items of a list has no keys. *)
Lemma codes_of_list (repr : json -> string) (diff : json) (items : list json)
    (codes : list string) :
  py.iter diff = Returns items ->
  mapM (AShareCrawler.stock_code repr) items = Returns codes ->
  codes <> [] ->
  diff = JList items.
Proof.
  intros Hiter Hmap%mapM_Returns Hne.
  destruct diff as [| | | |s|l|fields]; cbn in Hiter; simplify_eq; [|done|].
  - destruct s as [|c s]; cbn in Hmap.
    + by apply Forall2_nil_inv_l in Hmap.
    + apply Forall2_cons_inv_l in Hmap as (? & ? & (? & ? & ? & [=] & _)%stock_code_Returns & _).
  - destruct fields as [|[k v] fields]; cbn in Hmap.
    + by apply Forall2_nil_inv_l in Hmap.
    + apply Forall2_cons_inv_l in Hmap as (? & ? & (? & ? & ? & [=] & _)%stock_code_Returns & _).
Qed.

Lemma stock_ls_None (repr : json -> string) (content : json) :
  AShareCrawler.stock_ls repr content = Returns None <-> content = JNull.
Proof.
  split; [|by intros ->].
  destruct content; cbn; try done.
  all: destruct (py.assoc "data" fields) as [data|]; cbn; [|done].
  all: destruct (py.truthy data); cbn; [|done].
  all: intros (diff & _ & (items & _ & (codes & _ & [=])%bind_Returns)%bind_Returns)%bind_Returns.
Qed.

Lemma stock_ls_Raises (repr : json -> string) (content : json) (exc : string) :
  AShareCrawler.stock_ls repr content = Raises exc ->
  exc = "KeyError" \/ exc = "TypeError".
Proof.
  assert (Hbody :
    (data ← py.getitem content "data";
     if negb (py.truthy data) then Returns (Some [])
     else diff ← py.getitem data "diff"; items ← py.iter diff;
          codes ← mapM (AShareCrawler.stock_code repr) items; mret (Some codes))
    = Raises exc -> exc = "KeyError" \/ exc = "TypeError").
  { intros [H|(data & _ & H)]%bind_Raises; [by eapply getitem_Raises|].
    destruct (py.truthy data); cbn in H; [|done].
    apply bind_Raises in H as [H|(diff & _ & H)]; [by eapply getitem_Raises|].
    apply bind_Raises in H as [H|(items & _ & H)]; [right; by eapply iter_Raises|].
    apply bind_Raises in H as [H|(codes & _ & [=])].
    apply mapM_Raises in H as (each & _ & H). by eapply stock_code_Raises. }
  destruct content; cbn; try exact Hbody. done.
Qed.

Section Paging.

Variable repr : json -> string.
Variable get : string -> gmap string pyval -> outcome json.
Variable now : Z.
Variable frame : list string -> list (list string) -> outcome DataFrame.
Variable max_retry : Z.
Variable format_save_fp : string -> outcome string.

Local Abbreviation turn := (do_task_turn repr get now frame max_retry format_save_fp).

Lemma turn_get_list (req_info : request_info) (prior : Z) (page_num : pyval) (t : Z) :
  snd (turn req_info prior (mk_task get_list [page_num] t))
  = effects (do_task_iter max_retry format_save_fp prior
               (mk_task get_list [page_num] t)
               (value (AShareCrawler.get_list repr get now req_info page_num))).
Proof. reflexivity. Qed.

(** A turn whose call raises puts nothing on the crawler queue. *)
Lemma caught_no_put (prior : Z) (task : each_task) (exc : string) (e : entry) :
  crawler_put e
  ∉ effects (do_task_iter max_retry format_save_fp prior task (Raises exc)).
Proof.
  cbn [do_task_iter]. unfold handled. cbn [raised performed].
  destruct (is_Empty exc); cbn [effects app]; [by intros ?%elem_of_nil|].
  unfold caught. intros Hin. repeat (apply elem_of_cons in Hin as [[=]|Hin]).
  by apply elem_of_nil in Hin.
Qed.

Lemma stock_puts_other (result : list string) (e : entry) :
  func (snd e) = get_list ->
  crawler_put e
  ∉ map (fun stk_id => crawler_put (0, mk_task get_stock [PStr stk_id] 0)) result.
Proof.
  intros Hf (stk_id & [= <-] & _)%list_elem_of_In%in_map_iff. done.
Qed.

End Paging.

(** X8: a turn of [do_task] on a [get_list] task with a try left puts the
    task back on the crawler queue, two priorities lower, exactly when
    [get] returned [None]: an answer of any other shape, also one that
    makes [get_list] raise, is never asked for again. *)
Theorem page_is_retried_iff_get_fails (repr : json -> string)
    (get : string -> gmap string pyval -> outcome json) (now : Z)
    (frame : list string -> list (list string) -> outcome DataFrame)
    (max_retry : Z) (format_save_fp : string -> outcome string)
    (req_info : request_info) (prior : Z) (page_num : pyval) (t : Z) :
  let task := mk_task get_list [page_num] t in
  let params := <["_" := PInt now]> (<["pn" := page_num]> (list_params req_info)) in
  t + 1 < max_retry ->
  crawler_put (prior + 2, bump task)
  ∈ snd (do_task_turn repr get now frame max_retry format_save_fp req_info prior task)
  <-> get (list_url req_info) params = Returns JNull.
Proof.
  intros task params Ht. unfold task. rewrite turn_get_list.
  unfold AShareCrawler.get_list. cbn [value list_url]. fold params.
  destruct (get (list_url req_info) params) as [content|exc] eqn:Hget; cbn [mbind outcome_bind].
  - destruct (AShareCrawler.stock_ls repr content) as [[codes|]|exc] eqn:Hls.
    + split.
      * cbn [do_task_iter dispatch func bump]. rewrite (proj1 (handled_fan_out _ _ _)).
        destruct codes as [|code codes]; [by intros ?%elem_of_nil|].
        cbn [args]. rewrite !elem_of_app.
        intros [Hin|[Hin|Hin]].
        -- repeat (apply elem_of_cons in Hin as [[=]|Hin]). by apply elem_of_nil in Hin.
        -- by apply stock_puts_other in Hin.
        -- destruct page_num as [p|s]; cbn in Hin;
             repeat (apply elem_of_cons in Hin as [[=]|Hin]); try lia;
             by apply elem_of_nil in Hin.
      * intros [= ->]. by cbn in Hls.
    + apply stock_ls_None in Hls as ->. split; [done|intros _].
      cbn [do_task_iter handled raised performed effects].
      unfold retry. cbn [bump tries func args].
      destruct (t + 1 >=? max_retry) eqn:E; [lia|].
      right. left.
    + split.
      * intros Hin. by apply caught_no_put in Hin.
      * intros [= ->]. by cbn in Hls.
  - split; [|done].
    intros Hin. by apply caught_no_put in Hin.
Qed.

Lemma page_is_retried_iff_get_fails_witness :
  crawler_put (3, mk_task get_list [PInt 0] 1)
  ∈ snd (do_task_turn repr_empty silent 1700000000 as_written 3 data_csv config 1
           (mk_task get_list [PInt 0] 0)).
Proof.
  apply (page_is_retried_iff_get_fails repr_empty silent 1700000000 as_written 3
           data_csv config 1 (PInt 0) 0); [lia|reflexivity].
Defined.

Section Stocks.

Variable get : string -> gmap string pyval -> outcome json.
Variable now : Z.
Variable frame : list string -> list (list string) -> outcome DataFrame.

(** The ways through [get_stock]. *)
Lemma get_stock_cases (req_info : request_info) (stock_id : pyval) :
  let params := <["_" := PInt now]> (<["secid" := stock_id]> (stock_params req_info)) in
  let r := AShareCrawler.get_stock get now frame req_info stock_id in
  (exists exc, get (stock_url req_info) params = Raises exc /\
               logged r = [] /\ value r = Raises exc) \/
  (get (stock_url req_info) params = Returns JNull /\
   logged r = [] /\ value r = Returns None) \/
  (exists content,
     get (stock_url req_info) params = Returns content /\ content <> JNull /\
     ((exists data_df : DataFrame,
         AShareCrawler.klines content ≫= frame (stock_cols req_info) = Returns data_df /\
         logged r = [] /\ value r = Returns (Some data_df)) \/
      (AShareCrawler.klines content ≫= frame (stock_cols req_info) = Raises "KeyError" /\
       logged r = [error "KeyError" []] /\ value r = Returns None) \/
      (exists exc,
         exc <> "KeyError" /\
         AShareCrawler.klines content ≫= frame (stock_cols req_info) = Raises exc /\
         logged r = [] /\ value r = Raises exc))).
Proof.
  intros params r. unfold r, AShareCrawler.get_stock. cbn [stock_url stock_cols].
  fold params.
  destruct (get (stock_url req_info) params) as [content|exc];
    [|left; by exists exc].
  right. destruct content; [by left|right..]; (eexists; split; [done|]); (split; [done|]).
  all: destruct (_ ≫= _) as [data_df|exc]; [left; by exists data_df|right].
  all: destruct (decide (exc = "KeyError")) as [->|]; [by left|right; by exists exc].
Qed.

Lemma get_stock_None (req_info : request_info) (stock_id : pyval) :
  let params := <["_" := PInt now]> (<["secid" := stock_id]> (stock_params req_info)) in
  value (AShareCrawler.get_stock get now frame req_info stock_id) = Returns None
  <-> get (stock_url req_info) params = Returns JNull \/
      exists content,
        get (stock_url req_info) params = Returns content /\ content <> JNull /\
        AShareCrawler.klines content ≫= frame (stock_cols req_info)
        = Raises "KeyError".
Proof.
  intros params.
  destruct (get_stock_cases req_info stock_id)
    as [(exc & Hget & _ & ->)
       |[(Hget & _ & ->)
        |(content & Hget & Hne
          & [(data_df & Htry & _ & ->)
            |[(Htry & _ & ->)|(exc & Hexc & Htry & _ & ->)]])]];
    fold params in Hget; rewrite Hget.
  - split; [done|]. intros [?|(? & ? & _)]; done.
  - split; [by left|done].
  - split; [done|]. intros [[= ->]|(? & [= <-] & _ & ?)]; congruence.
  - split; [intros _|done]. right. by exists content.
  - split; [done|]. intros [[= ->]|(? & [= <-] & _ & ?)]; congruence.
Qed.

End Stocks.

(** X9: a turn of [do_task] on a [get_stock] task with a try left puts the
    task back, two priorities lower, exactly when [get] returned [None] or
    the [try] block of [get_stock] raised a [KeyError]; and whatever the
    answer, the turn puts nothing else on the crawler queue. An answer on
    which the block raises another exception drops the stock for good. *)
Theorem stock_is_retried_iff (repr : json -> string)
    (get : string -> gmap string pyval -> outcome json) (now : Z)
    (frame : list string -> list (list string) -> outcome DataFrame)
    (max_retry : Z) (format_save_fp : string -> outcome string)
    (req_info : request_info) (prior : Z) (stock_id : pyval) (t : Z) :
  let task := mk_task get_stock [stock_id] t in
  let params := <["_" := PInt now]> (<["secid" := stock_id]> (stock_params req_info)) in
  let turn :=
    snd (do_task_turn repr get now frame max_retry format_save_fp req_info prior task) in
  t + 1 < max_retry ->
  (crawler_put (prior + 2, bump task) ∈ turn
   <-> get (stock_url req_info) params = Returns JNull \/
       exists content,
         get (stock_url req_info) params = Returns content /\ content <> JNull /\
         AShareCrawler.klines content ≫= frame (stock_cols req_info)
         = Raises "KeyError") /\
  (forall e, crawler_put e ∈ turn -> e = (prior + 2, bump task)).
Proof.
  intros task params turn Ht. unfold params.
  rewrite <- (get_stock_None get now frame req_info stock_id).
  unfold turn, do_task_turn, call_task, task. cbn [args func snd].
  generalize (AShareCrawler.get_stock get now frame req_info stock_id).
  intros [info' logs [[data_df|]|exc]]; cbn [logged value do_task_iter].
  - assert (Hforward : forall e,
      crawler_put e
      ∉ map logging logs
        ++ effects (handled (bump (mk_task get_stock [stock_id] t))
                      (dispatch format_save_fp (bump (mk_task get_stock [stock_id] t))
                         data_df))).
    { intros e [(r & [=] & _)%list_elem_of_In%in_map_iff|Hin]%elem_of_app.
      cbn [dispatch bump func] in Hin.
      rewrite (proj1 (handled_forward _ _ _ _)) in Hin. unfold bump in Hin.
      cbn [args] in Hin. destruct stock_id as [z|s].
      - repeat (apply elem_of_cons in Hin as [[=]|Hin]). by apply elem_of_nil in Hin.
      - destruct (format_save_fp _) as [?|exc]; [|destruct (is_Empty exc)];
          repeat (apply elem_of_cons in Hin as [[=]|Hin]); by apply elem_of_nil in Hin. }
    split; [|by intros e ?%Hforward]. split; [by intros ?%Hforward|done].
  - cbn [handled raised performed effects]. unfold retry. cbn [bump tries func args].
    destruct (t + 1 >=? max_retry) eqn:E; [lia|]. split.
    + split; [done|intros _]. apply elem_of_app. right. right. left.
    + intros e [(r & [=] & _)%list_elem_of_In%in_map_iff|Hin]%elem_of_app.
      repeat (apply elem_of_cons in Hin as [[=]|Hin]); [by subst|].
      by apply elem_of_nil in Hin.
  - assert (Hcaught : forall e,
      crawler_put e
      ∉ map logging logs
        ++ effects (do_task_iter max_retry format_save_fp prior
                      (mk_task get_stock [stock_id] t) (Raises exc))).
    { intros e [(r & [=] & _)%list_elem_of_In%in_map_iff|Hin]%elem_of_app.
      by apply caught_no_put in Hin. }
    split; [|by intros e ?%Hcaught]. split; [by intros ?%Hcaught|done].
Qed.

Lemma stock_is_retried_iff_witness :
  crawler_put (2, mk_task get_stock [PStr "1.600000"] 1)
  ∈ snd (do_task_turn repr_empty without_data 1700000000 as_written 3 data_csv config 0
           (mk_task get_stock [PStr "1.600000"] 0))
  /\ forall e,
       crawler_put e
       ∉ snd (do_task_turn repr_empty unknown_stock 1700000000 as_written 3 data_csv
                config 0 (mk_task get_stock [PStr "1.600000"] 0)).
Proof.
  split.
  - apply (stock_is_retried_iff repr_empty without_data 1700000000 as_written 3
             data_csv config 0 (PStr "1.600000") 0); [lia|].
    right. eexists. split; [reflexivity|]. split; [done|reflexivity].
  - intros e He.
    destruct (stock_is_retried_iff repr_empty unknown_stock 1700000000 as_written 3
                data_csv config 0 (PStr "1.600000") 0) as [Hiff Honly]; [lia|].
    rewrite (Honly e He) in He. apply Hiff in He as [[=]|(content & [= <-] & _ & [=])].
Defined.

(** X10: [get_list] returns a non-empty list exactly on an answer whose
    [data] is truthy and whose [diff] is a list of dicts that each hold
    [f13] and [f12]; the list then has one code per entry of [diff], in
    the order of the page, each [str(f13)], a dot and [str(f12)]. *)
Theorem get_list_one_code_per_entry (repr : json -> string)
    (get : string -> gmap string pyval -> outcome json) (now : Z)
    (req_info : request_info) (page_num : pyval) (codes : list string) :
  let params := <["_" := PInt now]> (<["pn" := page_num]> (list_params req_info)) in
  codes <> [] ->
  value (AShareCrawler.get_list repr get now req_info page_num) = Returns (Some codes)
  <-> exists fields data items,
        get (list_url req_info) params = Returns (JDict fields) /\
        py.assoc "data" fields = Some data /\
        py.truthy data = true /\
        py.getitem data "diff" = Returns (JList items) /\
        Forall2 (fun each code =>
                   exists entry f13 f12,
                     each = JDict entry /\
                     py.assoc "f13" entry = Some f13 /\
                     py.assoc "f12" entry = Some f12 /\
                     code = py.str repr f13 +:+ "." +:+ py.str repr f12)
          items codes.
Proof.
  intros params Hne. unfold AShareCrawler.get_list. cbn [value list_url].
  fold params. split.
  - intros (content & Hget & Hls)%bind_Returns.
    assert (Hbody :
      (data ← py.getitem content "data";
       if negb (py.truthy data) then Returns (Some [])
       else diff ← py.getitem data "diff"; items ← py.iter diff;
            codes ← mapM (AShareCrawler.stock_code repr) items; mret (Some codes))
      = Returns (Some codes)).
    { destruct content; cbn in Hls; try done; exact Hls. }
    clear Hls.
    apply bind_Returns in Hbody as (data & (fields & -> & Hdata)%getitem_Returns & Hbody).
    destruct (py.truthy data) eqn:Htruthy; cbn [negb] in Hbody; [|by simplify_eq].
    apply bind_Returns in Hbody as (diff & Hdiff & Hbody).
    apply bind_Returns in Hbody as (items & Hiter & Hbody).
    apply bind_Returns in Hbody as (codes' & Hmap & [= ->]).
    pose proof (codes_of_list repr diff items codes Hiter Hmap Hne) as ->.
    exists fields, data, items. split_and!; try done.
    apply mapM_Returns in Hmap.
    eapply Forall2_impl; [exact Hmap|]. intros each code. by apply stock_code_Returns.
  - intros (fields & data & items & Hget & Hdata & Htruthy & Hdiff & Hall).
    apply bind_Returns.
    exists (JDict fields). split; [done|]. cbn [AShareCrawler.stock_ls].
    apply bind_Returns. exists data. cbn [py.getitem]. rewrite Hdata.
    split; [done|]. rewrite Htruthy. cbn [negb].
    apply bind_Returns. exists (JList items). split; [done|].
    apply bind_Returns. exists items. split; [done|].
    apply bind_Returns. exists codes. split; [|done].
    apply mapM_Returns. eapply Forall2_impl; [exact Hall|].
    intros each code. by apply stock_code_Returns.
Qed.

Lemma get_list_one_code_per_entry_witness :
  value (AShareCrawler.get_list repr_empty one_page 1700000000 config (PInt 0))
  = Returns (Some ["1.600000"]).
Proof.
  apply (get_list_one_code_per_entry repr_empty one_page 1700000000 config (PInt 0)
           ["1.600000"]); [done|].
  eexists _, _, _. split; [reflexivity|]. split; [reflexivity|].
  split; [reflexivity|]. split; [reflexivity|].
  constructor; [|constructor].
  eexists _, _, _. split; [reflexivity|]. split; [reflexivity|].
  split; reflexivity.
Defined.

(** X11: a turn of [do_task] on the task of page [p] puts the task of page
    [p + 1] exactly when [get_list] returned a non-empty list. An empty
    page, an answer that makes [get_list] raise and a [get] that returned
    [None] all leave the next page unasked. *)
Theorem next_page_iff_page_lists_a_stock (repr : json -> string)
    (get : string -> gmap string pyval -> outcome json) (now : Z)
    (frame : list string -> list (list string) -> outcome DataFrame)
    (max_retry : Z) (format_save_fp : string -> outcome string)
    (req_info : request_info) (prior p t : Z) :
  let task := mk_task get_list [PInt p] t in
  crawler_put (1, mk_task get_list [PInt (p + 1)] 0)
  ∈ snd (do_task_turn repr get now frame max_retry format_save_fp req_info prior task)
  <-> exists codes,
        codes <> [] /\
        value (AShareCrawler.get_list repr get now req_info (PInt p))
        = Returns (Some codes).
Proof.
  intros task. unfold task. rewrite turn_get_list.
  destruct (value (AShareCrawler.get_list repr get now req_info (PInt p)))
    as [[codes|]|exc]; cbn [do_task_iter].
  - cbn [dispatch bump func]. rewrite (proj1 (handled_fan_out _ _ _)). cbn [args].
    destruct codes as [|code codes].
    + split; [by intros ?%elem_of_nil|]. by intros (? & ? & [= <-]).
    + split; [intros _; by exists (code :: codes)|intros _].
      rewrite !elem_of_app. right. right. left.
  - cbn [handled raised performed effects].
    unfold retry. cbn [bump tries func args]. split; [|by intros (? & _ & [=])].
    destruct (_ >=? _); intros Hin;
      repeat (apply elem_of_cons in Hin as [[=]|Hin]); try lia;
      by apply elem_of_nil in Hin.
  - split; [|by intros (? & _ & [=])].
    intros Hin.
    by apply (caught_no_put max_retry format_save_fp prior
                (mk_task get_list [PInt p] t) exc) in Hin.
Qed.

(** ** From the code of a page to the path of the file *)

Lemma length_append (s1 s2 : string) :
  String.length (s1 +:+ s2) = (String.length s1 + String.length s2)%nat.
Proof.
  induction s1 as [|c s1 IH]; [done|].
  change (S (String.length (s1 +:+ s2)) = S (String.length s1 + String.length s2)).
  by rewrite IH.
Qed.

Lemma length_slice_from (k : nat) (s : string) :
  String.length (slice_from k s) = (String.length s - k)%nat.
Proof.
  revert s. induction k as [|k IH]; intros [|c s]; cbn; try done.
Qed.

(** [(s13 + '.' + s12)[2:]] is [s12] when [s13] is one character long,
    and otherwise only when both are empty. *)
Lemma slice_from_code (s13 s12 : string) :
  slice_from 2 (s13 +:+ "." +:+ s12) = s12
  <-> String.length s13 = 1%nat \/ (s13 = "" /\ s12 = "").
Proof.
  split.
  - intros H. pose proof (f_equal String.length H) as Hlen.
    rewrite length_slice_from, !length_append in Hlen. cbn in Hlen.
    destruct s13 as [|c s13]; [right|left].
    + split; [done|]. destruct s12; [done|]. cbn in Hlen. lia.
    + cbn in *. lia.
  - intros [Hlen|[-> ->]]; [|done].
    destruct s13 as [|c [|c' s13]]; cbn in Hlen; try done.
Qed.

(** X12: [do_task] names the file of a stock by [task.args[0][2:]], the
    code [get_list] built from an entry without its first two characters.
    That is [str(f12)] of the entry exactly when [str(f13)] is one
    character long (or both are empty): a market number of two digits
    leaves its last digit and the dot in the name of the file. *)
Theorem file_is_named_by_f12 (repr : json -> string)
    (format_save_fp : string -> outcome string)
    (each f13 f12 : json) (code : string) (t : Z) (result : DataFrame) :
  py.getitem each "f13" = Returns f13 ->
  py.getitem each "f12" = Returns f12 ->
  AShareCrawler.stock_code repr each = Returns code ->
  let task := mk_task get_stock [PStr code] t in
  (slice_from 2 code = py.str repr f12
   <-> String.length (py.str repr f13) = 1%nat \/
       (py.str repr f13 = "" /\ py.str repr f12 = "")) /\
  (String.length (py.str repr f13) = 1%nat ->
   forward format_save_fp task result
   = match format_save_fp (py.str repr f12) with
     | Returns save_fp => mk_tried [writer_put result save_fp] None
     | Raises exc => mk_tried [] (Some exc)
     end).
Proof.
  intros H13 H12 Hcode task.
  unfold AShareCrawler.stock_code in Hcode. rewrite H13, H12 in Hcode.
  cbn in Hcode. injection Hcode as <-.
  split; [apply slice_from_code|].
  intros Hlen. unfold forward, task. cbn [args].
  assert (slice_from 2 (py.str repr f13 +:+ "." +:+ py.str repr f12)
          = py.str repr f12) as ->; [|done].
  apply slice_from_code. by left.
Qed.

Lemma file_is_named_by_f12_witness :
  forward data_csv (mk_task get_stock [PStr "1.600000"] 0) no_rows
  = mk_tried [writer_put no_rows "./data/600000.csv"] None
  /\ slice_from 2 "116.00700" <> "00700".
Proof.
  split.
  - destruct (file_is_named_by_f12 repr_empty data_csv
                (JDict [("f12", JStr "600000"); ("f13", JInt 1)])
                (JInt 1) (JStr "600000") "1.600000" 0 no_rows)
      as [_ Hforward]; [reflexivity..|].
    apply Hforward. reflexivity.
  - destruct (file_is_named_by_f12 repr_empty data_csv
                (JDict [("f12", JStr "00700"); ("f13", JInt 116)])
                (JInt 116) (JStr "00700") "116.00700" 0 no_rows)
      as [Hiff _]; [reflexivity..|].
    intros [Hlen|[Hempty _]]%Hiff; [vm_compute in Hlen|vm_compute in Hempty]; done.
Defined.

(** ** What leaves the methods *)

(** X13: [get_list] logs nothing and raises only what [get] raised, a
    [KeyError] or a [TypeError]. [get_stock] lets no [KeyError] out but one
    [get] raised. It logs exactly when [get] returned an answer and the
    [try] block raised a [KeyError]: then it logs one record of level
    ERROR without traceback and returns [None]; in every other case it
    logs nothing. *)
Theorem exceptions_of_the_methods (repr : json -> string)
    (get : string -> gmap string pyval -> outcome json) (now : Z)
    (frame : list string -> list (list string) -> outcome DataFrame)
    (req_info : request_info) (arg : pyval) :
  let page := AShareCrawler.get_list repr get now req_info arg in
  let stock := AShareCrawler.get_stock get now frame req_info arg in
  let swallowed :=
    exists content,
      get (stock_url req_info)
        (<["_" := PInt now]> (<["secid" := arg]> (stock_params req_info)))
      = Returns content /\ content <> JNull /\
      AShareCrawler.klines content ≫= frame (stock_cols req_info) = Raises "KeyError" in
  (logged page = [] /\
   forall exc, value page = Raises exc ->
     get (list_url req_info)
       (<["_" := PInt now]> (<["pn" := arg]> (list_params req_info))) = Raises exc \/
     exc = "KeyError" \/ exc = "TypeError") /\
  (value stock = Raises "KeyError" ->
   get (stock_url req_info)
     (<["_" := PInt now]> (<["secid" := arg]> (stock_params req_info)))
   = Raises "KeyError") /\
  (swallowed ->
   logged stock = [mk_log ERROR "KeyError" [] false] /\ value stock = Returns None) /\
  (~ swallowed -> logged stock = []).
Proof.
  intros page stock swallowed. split_and!.
  - done.
  - intros exc. unfold page, AShareCrawler.get_list. cbn [value list_url].
    intros [H|(content & _ & H)]%bind_Raises; [by left|right].
    by eapply stock_ls_Raises.
  - destruct (get_stock_cases get now frame req_info arg)
      as [(exc & Hget & _ & Hv)
         |[(_ & _ & Hv)
          |(content & _ & _
            & [(data_df & _ & _ & Hv)|[(_ & _ & Hv)|(exc & Hexc & _ & _ & Hv)]])]];
      fold stock in Hv; rewrite Hv; try done.
    + by intros [= <-].
    + intros [= ->]. by destruct Hexc.
  - intros (content & Hget & Hne & Htry).
    destruct (get_stock_cases get now frame req_info arg)
      as [(exc & Hget' & _)
         |[(Hget' & _)
          |(content' & Hget' & _
            & [(data_df & Htry' & _)|[(_ & Hl & Hv)|(exc & Hexc & Htry' & _)]])]];
      rewrite Hget in Hget'; simplify_eq.
    + rewrite Htry in Htry'. done.
    + fold stock in Hl, Hv. by rewrite Hl, Hv.
    + rewrite Htry in Htry'. by simplify_eq.
  - intros Hnot.
    destruct (get_stock_cases get now frame req_info arg)
      as [(exc & _ & Hl & _)
         |[(_ & Hl & _)
          |(content & Hget & Hne
            & [(data_df & _ & Hl & _)|[(Htry & _ & _)|(exc & _ & _ & Hl & _)]])]];
      try (fold stock in Hl; exact Hl).
    destruct Hnot. by exists content.
Qed.

Lemma exceptions_of_the_methods_witness :
  logged (AShareCrawler.get_stock without_data 1700000000 as_written config
            (PStr "1.600000")) = [mk_log ERROR "KeyError" [] false].
Proof.
  destruct (exceptions_of_the_methods repr_empty without_data 1700000000 as_written
              config (PStr "1.600000")) as (_ & _ & Hlogs & _).
  apply Hlogs. eexists. split; [reflexivity|]. split; [discriminate|reflexivity].
Defined.

(** ** The rows of a stock *)

Lemma split_nonempty (sep : ascii) (s : string) : py.split sep s <> [].
Proof.
  destruct s as [|c s]; cbn; [done|].
  destruct (decide (c = sep)); [done|]. by destruct (py.split sep s).
Qed.

(** Joining the fields with the separator gives the string back. *)
Lemma concat_split (sep : ascii) (s : string) :
  String.concat (String sep "") (py.split sep s) = s.
Proof.
  induction s as [|c s IH]; [done|]. cbn [py.split].
  pose proof (split_nonempty sep s) as Hne.
  destruct (decide (c = sep)) as [->|Hc].
  - destruct (py.split sep s) as [|field fields]; [done|].
    cbn [String.concat] in *. by rewrite IH.
  - destruct (py.split sep s) as [|field fields]; [done|].
    destruct fields as [|field' fields]; cbn [String.concat] in *; by rewrite <- IH.
Qed.

(** No field holds the separator. *)
Lemma split_fields (sep : ascii) (s : string) :
  Forall (fun field => sep ∉ String.list_ascii_of_string field) (py.split sep s).
Proof.
  induction s as [|c s IH]; cbn [py.split].
  - constructor; [|constructor]. cbn. by intros ?%elem_of_nil.
  - destruct (decide (c = sep)) as [->|Hc].
    + constructor; [|done]. cbn. by intros ?%elem_of_nil.
    + pose proof (split_nonempty sep s) as Hne.
      destruct (py.split sep s) as [|field fields]; [done|].
      apply Forall_cons in IH as [Hfield Hfields]. constructor; [|done].
      cbn. intros [?|?]%elem_of_cons; [by subst|done].
Qed.

Lemma klines_rows (content : json) (rows : list (list string)) :
  AShareCrawler.klines content = Returns rows ->
  exists data lines items,
    py.getitem content "data" = Returns data /\
    py.getitem data "klines" = Returns lines /\
    py.iter lines = Returns items /\
    Forall2 (fun each row => each = JStr (String.concat "," row) /\ row <> [] /\
                             Forall (fun field => ","%char
                                                  ∉ String.list_ascii_of_string field) row)
      items rows.
Proof.
  unfold AShareCrawler.klines.
  intros (data & Hdata & (lines & Hlines & (items & Hiter & Hmap)%bind_Returns)
                            %bind_Returns)%bind_Returns.
  exists data, lines, items. split_and!; try done.
  apply mapM_Returns in Hmap. eapply Forall2_impl; [exact Hmap|].
  intros each row Hrow. destruct each; cbn in Hrow; try done.
  injection Hrow as <-. split_and!.
  - by rewrite concat_split.
  - apply split_nonempty.
  - apply split_fields.
Qed.

(** X14: the comprehension of line 169 gives one row per item of
    [content['data']['klines']], in order: it returns exactly when every
    item is a string, the row of an item is its [split(',')], no row is
    empty, no field of a row holds a comma, and the fields joined by
    commas give the item back. These rows are what [get_stock] hands to
    pandas: what pandas makes of them decides the call. *)
Theorem rows_rejoin_to_klines (content : json) :
  (forall rows,
     AShareCrawler.klines content = Returns rows ->
     exists data lines items,
       py.getitem content "data" = Returns data /\
       py.getitem data "klines" = Returns lines /\
       py.iter lines = Returns items /\
       Forall2 (fun each row =>
                  each = JStr (String.concat "," row) /\ row <> [] /\
                  Forall (fun field => ","%char ∉ String.list_ascii_of_string field)
                    row)
         items rows) /\
  (forall data lines strs,
     py.getitem content "data" = Returns data ->
     py.getitem data "klines" = Returns lines ->
     py.iter lines = Returns (map JStr strs) ->
     AShareCrawler.klines content = Returns (map (py.split ",") strs)) /\
  (forall (get : string -> gmap string pyval -> outcome json) (now : Z)
          (frame : list string -> list (list string) -> outcome DataFrame)
          (req_info : request_info) (stock_id : pyval) rows,
     get (stock_url req_info)
       (<["_" := PInt now]> (<["secid" := stock_id]> (stock_params req_info)))
     = Returns content ->
     content <> JNull ->
     AShareCrawler.klines content = Returns rows ->
     value (AShareCrawler.get_stock get now frame req_info stock_id)
     = match frame (stock_cols req_info) rows with
       | Returns data_df => Returns (Some data_df)
       | Raises exc => if decide (exc = "KeyError") then Returns None else Raises exc
       end).
Proof.
  split_and!.
  - apply klines_rows.
  - intros data lines strs Hdata Hlines Hiter. unfold AShareCrawler.klines.
    rewrite Hdata. cbn [mbind outcome_bind]. rewrite Hlines. cbn [mbind outcome_bind].
    rewrite Hiter. cbn [mbind outcome_bind].
    apply mapM_Returns. clear. induction strs as [|s strs IH]; constructor; done.
  - intros get now frame req_info stock_id rows Hget Hne Hrows.
    destruct (get_stock_cases get now frame req_info stock_id)
      as [(exc & Hget' & _)
         |[(Hget' & _)
          |(content' & Hget' & _
            & [(data_df & Htry & _ & ->)
              |[(Htry & _ & ->)|(exc & Hexc & Htry & _ & ->)]])]];
      rewrite Hget in Hget'; simplify_eq;
      rewrite Hrows in Htry; cbn [mbind outcome_bind] in Htry; rewrite Htry;
      try done.
    by destruct (decide (exc = "KeyError")).
Qed.

Lemma rows_rejoin_to_klines_witness :
  AShareCrawler.klines two_klines
  = Returns [["2024-01-02"; "10.1"; "10.4"]; ["2024-01-03"; "10.4"; "10.2"]].
Proof.
  destruct (rows_rejoin_to_klines two_klines) as (_ & Hreturns & _).
  apply (Hreturns
           (JDict [("code", JStr "600000");
                   ("klines", JList [JStr "2024-01-02,10.1,10.4";
                                     JStr "2024-01-03,10.4,10.2"])])
           (JList [JStr "2024-01-02,10.1,10.4"; JStr "2024-01-03,10.4,10.2"])
           ["2024-01-02,10.1,10.4"; "2024-01-03,10.4,10.2"]); reflexivity.
Defined.

(** ** The dict of parameters under several callers *)

(** X15: whatever other threads are in the middle of, a thread that runs
    lines 159-162 of [get_stock] with no other thread in between makes a
    request that carries its own stock code and its own time, and every
    other parameter as it found it; the dict it leaves is the one
    [get_stock] leaves in [self.req_info]. *)
Theorem uninterrupted_request_is_own
    (get : string -> gmap string pyval -> outcome json)
    (frame : list string -> list (list string) -> outcome DataFrame)
    (req_info : request_info) (stock_id : pyval) (now : Z)
    (i : nat) (c : callers) (rest : list request_op) :
  in_call c !! i = Some (stock_request req_info stock_id now ++ rest) ->
  params c = stock_params req_info ->
  exists c' sent,
    request_run [i; i; i] c = Some c' /\
    requests c' = requests c ++ [(i, (stock_url req_info, sent))] /\
    in_call c' !! i = Some rest /\
    sent !! "secid" = Some stock_id /\
    sent !! "_" = Some (PInt now) /\
    (forall key, key <> "secid" -> key <> "_" -> sent !! key = params c !! key) /\
    params c' = sent /\
    sent = stock_params (req_info_after
                           (AShareCrawler.get_stock get now frame req_info stock_id)).
Proof.
  intros Hi Hparams.
  assert (Hlen : (i < length (in_call c))%nat) by (by eapply lookup_lt_Some).
  eexists _, _. split.
  - cbn [request_run]. unfold request_step at 1. rewrite Hi. cbn [stock_request app].
    unfold request_step at 1. cbn [in_call params requests].
    rewrite list_lookup_insert_eq by done.
    unfold request_step at 1. cbn [in_call params requests].
    rewrite list_lookup_insert_eq by (by rewrite length_insert).
    reflexivity.
  - cbn [in_call params requests]. split_and!.
    + done.
    + rewrite !list_insert_insert_eq. by rewrite list_lookup_insert_eq.
    + rewrite lookup_insert_ne by done. by rewrite lookup_insert_eq.
    + by rewrite lookup_insert_eq.
    + intros key H1 H2. by rewrite !lookup_insert_ne.
    + done.
    + rewrite Hparams. unfold AShareCrawler.get_stock. cbn [stock_url stock_cols].
      destruct (get _ _) as [content|exc]; [|done].
      destruct content; try done.
      all: destruct (_ ≫= _) as [data_df|exc]; [done|].
      all: by destruct (decide (exc = "KeyError")).
Qed.

Lemma uninterrupted_request_is_own_witness :
  exists c' sent,
    request_run [0; 0; 0]%nat
      (mk_callers (stock_params config)
         [stock_request config (PStr "1.600000") 1700000000] [])
    = Some c' /\
    requests c' = [(0%nat, ("http://stock", sent))] /\
    sent !! "secid" = Some (PStr "1.600000").
Proof.
  destruct (uninterrupted_request_is_own silent as_written config (PStr "1.600000")
              1700000000 0
              (mk_callers (stock_params config)
                 [stock_request config (PStr "1.600000") 1700000000] []) [])
    as (c' & sent & Hrun & Hreq & _ & Hsecid & _); [reflexivity..|].
  by exists c', sent.
Defined.

(** X16: the dict of [stock_params] is shared. When a second crawler runs
    line 159 of [get_stock] between line 159 and the request of a first,
    both requests carry the stock code of the second, whatever the code
    of the first is. *)
Theorem interleaved_request_is_anothers (req_info : request_info)
    (a b : pyval) (now_a now_b : Z) :
  exists c sent_a sent_b,
    request_run second_assigns_in_between
      (mk_callers (stock_params req_info)
         [stock_request req_info a now_a; stock_request req_info b now_b] [])
    = Some c /\
    requests c = [(0%nat, (stock_url req_info, sent_a));
                  (1%nat, (stock_url req_info, sent_b))] /\
    in_call c = [[]; []] /\
    sent_a !! "secid" = Some b /\
    sent_b !! "secid" = Some b.
Proof.
  eexists _, _, _. split; [reflexivity|]. cbn [requests in_call params app].
  split_and!; try reflexivity.
  - rewrite lookup_insert_ne by done. by rewrite lookup_insert_eq.
  - rewrite !lookup_insert_ne by done. by rewrite lookup_insert_eq.
Qed.
